(** * STRAP: Gaussian pseudo-label synthesis and multi-task loss combination

    A shallow embedding of
    - [data_preprocess/cad120/gaussians.py] ([get_llkh], [gaussians],
      [train_set], [val_set]),
    - the weighted-loss part of [CerberusMultiHeadTrain.train] in [main.py],
    - [exec] and [save_checkpoint] of the two trainers of [main.py], and
      the renaming of the keys of a loaded state dict,
    - the multi-scale sizes of [datasets.py],
    - the min-norm solver the training loop imports from [utils]
      (that module is not among the sources; it is modelled from the
      specification, see [Module MinNorm]).

    The first half of the file holds the definitions, the second half the
    lemmas and theorems about them.

    Conventions.
    - A numpy [float64] is modelled by a real number ([R]): the development
      describes the program in exact arithmetic, rounding is not modelled.
      This holds for the keypoints table as well, whose five columns are
      read as [float64].
    - A numpy array is its row-major buffer: a [list] whose element
      [[a, b]] of a [(n, n)] array sits at index [a * n + b], which is what
      [reshape] preserves.
    - Python exceptions are values of [py_exn], carried by [result]. *)

From Stdlib Require Import ZArith List String Ascii Reals Lra Lia Bool.
From Stdlib Require Import DecimalString DecimalN DecimalPos.
From stdpp Require Import base option list gmap strings.
Import ListNotations.

(* ================================================================== *)
(** ** Python runtime: exceptions, [int()], [os.path.basename] *)
(* ================================================================== *)

Module Py.

Inductive py_exn : Type :=
| ValueError
| IndexError
| KeyError
| OSError.

Inductive result (A : Type) : Type :=
| Ok (a : A)
| Raise (e : py_exn).
Arguments Ok {A} a.
Arguments Raise {A} e.

Definition bind {A B : Type} (m : result A) (k : A -> result B) : result B :=
  match m with
  | Ok a => k a
  | Raise e => Raise e
  end.

Definition is_ok {A : Type} (m : result A) : bool :=
  match m with Ok _ => true | Raise _ => false end.

Definition of_option {A : Type} (e : py_exn) (o : option A) : result A :=
  match o with Some a => Ok a | None => Raise e end.

(** Characters [int()] strips: the whitespace code points below 256. *)
Definition is_space (c : ascii) : bool :=
  let n := nat_of_ascii c in
  ((9 <=? n)%nat && (n <=? 13)%nat) || ((28 <=? n)%nat && (n <=? 32)%nat)
  || (n =? 133)%nat || (n =? 160)%nat.

Fixpoint lstrip (s : list ascii) : list ascii :=
  match s with
  | c :: t => if is_space c then lstrip t else s
  | [] => []
  end.

Definition strip (s : list ascii) : list ascii :=
  rev (lstrip (rev (lstrip s))).

Definition digit_val (c : ascii) : option Z :=
  let n := nat_of_ascii c in
  if ((48 <=? n)%nat && (n <=? 57)%nat) then Some (Z.of_nat n - 48)%Z else None.

(** Decimal digits, single underscores allowed between two digits.
    [prev] tells whether the previous character was a digit. *)
Fixpoint parse_digits (acc : Z) (prev : bool) (s : list ascii) : option Z :=
  match s with
  | [] => if prev then Some acc else None
  | c :: t =>
      match digit_val c with
      | Some d => parse_digits (10 * acc + d)%Z true t
      | None =>
          if (Ascii.eqb c "_" && prev)%bool then parse_digits acc false t
          else None
      end
  end.

(** [int(s)] for a string [s], base 10. *)
Definition py_int (s : string) : result Z :=
  let body := strip (list_ascii_of_string s) in
  of_option ValueError
    match body with
    | "+"%char :: t => parse_digits 0 false t
    | "-"%char :: t => option_map Z.opp (parse_digits 0 false t)
    | _ => parse_digits 0 false body
    end.

(** [s[i:j]]: slices never raise, they are cut at the end of the string. *)
Definition slice (i j : nat) (s : string) : string :=
  substring i (j - i) s.

(** [s[i]]: raises [IndexError] past the end. *)
Definition index (s : string) (i : nat) : result string :=
  match String.get i s with
  | Some c => Ok (String c EmptyString)
  | None => Raise IndexError
  end.

(** [os.path.basename]: what follows the last ['/']. *)
Fixpoint basename_aux (cur : list ascii) (s : list ascii) : list ascii :=
  match s with
  | [] => rev cur
  | c :: t => if Ascii.eqb c "/" then basename_aux [] t
              else basename_aux (c :: cur) t
  end.

Definition basename (p : string) : string :=
  string_of_list_ascii (basename_aux [] (list_ascii_of_string p)).

(** [l[i]] for a list: raises [IndexError] past the end. *)
Definition getitem {A : Type} (l : list A) (i : nat) : result A :=
  of_option IndexError (l !! i).

(** [sum(l)]: starts from [0] and adds from the left. *)
Definition py_sum (l : list R) : R := fold_left Rplus l 0%R.

(** The mathematical sum of a list. *)
Definition sumR (l : list R) : R := fold_right Rplus 0%R l.

(** A loop that appends one result per element and stops at the first
    exception. *)
Fixpoint mapM {A B : Type} (f : A -> result B) (l : list A) : result (list B) :=
  match l with
  | [] => Ok []
  | a :: t =>
      match f a with
      | Ok b => match mapM f t with Ok bs => Ok (b :: bs) | Raise e => Raise e end
      | Raise e => Raise e
      end
  end.

End Py.

Notation "'pylet' x ':=' m 'in' k" := (Py.bind m (fun x => k))
  (at level 10, x name, m at level 100, k at level 200).

(* ================================================================== *)
(** ** numpy: the operations [gaussians.py] uses *)
(* ================================================================== *)

Module Np.
Import Py.

(** A 2x2 array [[m00, m01], [m10, m11]]. *)
Record mat2 : Type := Mat2 { m00 : R; m01 : R; m10 : R; m11 : R }.

(** [np.linalg.det] of a 2x2 array. *)
Definition det (m : mat2) : R := (m00 m * m11 m - m01 m * m10 m)%R.

(** [np.linalg.pinv] of a 2x2 array, the Moore-Penrose inverse: the
    inverse when there is one, the transpose over the squared Frobenius
    norm for a matrix of rank one, zero for the zero matrix. *)
Definition pinv (m : mat2) : mat2 :=
  let d := det m in
  if Req_dec_T d 0 then
    let s := (m00 m * m00 m + m01 m * m01 m + m10 m * m10 m + m11 m * m11 m)%R in
    if Req_dec_T s 0 then Mat2 0 0 0 0
    else Mat2 (m00 m / s) (m10 m / s) (m01 m / s) (m11 m / s)
  else Mat2 (m11 m / d) (- m01 m / d) (- m10 m / d) (m00 m / d).

(** [x @ y] for two 2x2 arrays. *)
Definition mat_mul (x y : Np.mat2) : Np.mat2 :=
  Np.Mat2 (Np.m00 x * Np.m00 y + Np.m01 x * Np.m10 y)
          (Np.m00 x * Np.m01 y + Np.m01 x * Np.m11 y)
          (Np.m10 x * Np.m00 y + Np.m11 x * Np.m10 y)
          (Np.m10 x * Np.m01 y + Np.m11 x * Np.m11 y).

(** [np.arange(1, n + 1)]. *)
Definition arange1 (n : nat) : list R := map INR (seq 1 n).

(** Buffer of [np.tile(x, (1, n))] for [x] of shape [(1, m)]: the row
    [n] times over. *)
Definition tile_row (x : list R) (n : nat) : list R := concat (repeat x n).

(** Buffer of [np.tile(x.T, (1, n))] for [x] of shape [(1, m)]: row [p] of
    the [(m, n)] result holds [x[p]] in every column. *)
Definition tile_col (x : list R) (n : nat) : list R :=
  flat_map (fun v => repeat v n) x.

(** [np.max] of an array with buffer [l]; a zero-size array has no
    maximum. *)
Definition max (l : list R) : result R :=
  match l with
  | [] => Raise ValueError
  | x :: t => Ok (fold_left Rmax t x)
  end.

Definition maxZ (l : list Z) : result Z :=
  match l with
  | [] => Raise ValueError
  | x :: t => Ok (fold_left Z.max t x)
  end.

(** [x == k] for a [float64] and a Python integer. *)
Definition eq_int (x : R) (k : Z) : bool :=
  if Req_dec_T x (IZR k) then true else false.

(** [a > t] for an array and a scalar. *)
Definition gt (l : list R) (t : R) : list bool :=
  map (fun v => if Rgt_dec v t then true else false) l.

(** [a.astype(np.uint8)] for a boolean array, and for an array of
    integral values. *)
Definition bool_to_uint8 (l : list bool) : list Z := map Z.b2z l.
Definition to_uint8 (l : list Z) : list Z := map (fun z => z mod 256)%Z l.

(** [np.maximum] of two arrays of one shape. *)
Definition maximum (x y : list Z) : list Z := zip_with Z.max x y.

(** [np.e]. *)
Definition e : R := exp 1.

End Np.

(* ================================================================== *)
(** ** [gaussians.py] *)
(* ================================================================== *)

Module Gaussians.
Import Py.

(** One row of the keypoints table, an array of [float64] with five
    columns: image id, bounding-box id, channel index (1-based), and the
    two coordinates. *)
Record kp_row : Type := KpRow {
  kp_image : R;
  kp_bb : R;
  kp_chan : R;
  kp_r : R;
  kp_c : R
}.

(** The list [btemp] handed to [get_llkh]. *)
Record btemp_t : Type := Btemp {
  bt0 : R; bt1 : R; bt2 : R; bt3 : R; bt4 : R
}.

(** The reference array of a [.mat] file, of shape [(ref_h, ref_w, ref_c)]:
    a multi-label mask with integer entries. Arrays of another rank, on
    which [input.shape[2]] raises, are outside the model. *)
Record ref_array : Type := RefArray {
  ref_h : nat;
  ref_w : nat;
  ref_c : nat;
  ref_at : nat -> nat -> nat -> Z
}.

(** Buffer of [input[:, :, i]]. *)
Definition ref_slice (input : ref_array) (i : nat) : list Z :=
  flat_map
    (fun a => map (fun b => ref_at input a b i) (seq 0 (ref_w input)))
    (seq 0 (ref_h input)).

(** The label volume [data] of shape [(crop_size, crop_size, C)], kept as
    its [C] layers [data[:, :, i]], each a row-major buffer. *)
Abbreviation volume := (list (list Z)).

Definition get_llkh (allrc : list (R * R)) (btemp : btemp_t) (crop_size : nat)
  : result (list R) :=
  let meanrc := (bt0 btemp, bt1 btemp) in
  let covrc := Np.Mat2 (bt2 btemp) (bt4 btemp) (bt4 btemp) (bt3 btemp) in
  let p := Np.pinv covrc in
  let expt (rc : R * R) : R :=
    let diff := (fst rc - fst meanrc, snd rc - snd meanrc)%R in
    let dp := (fst diff * Np.m00 p + snd diff * Np.m10 p,
               fst diff * Np.m01 p + snd diff * Np.m11 p)%R in
    (-0.5 * (fst dp * fst diff + snd dp * snd diff))%R in
  let const := (1 / sqrt (Np.det covrc * 2 * PI))%R in
  let llkh := map (fun rc => (const * exp (expt rc))%R) allrc in
  (* reshape((crop_size, crop_size)) *)
  if (length llkh =? crop_size * crop_size)%nat then Ok llkh
  else Raise ValueError.

(** The points [allrc]: row [k] of the [(crop_size^2, 2)] array. *)
Definition grid (crop_size : nat) : list (R * R) :=
  let crop_range := Np.arange1 crop_size in
  let allr := Np.tile_row crop_range crop_size in
  let allc := Np.tile_col crop_range crop_size in
  combine allr allc.

(** Body of the loop over [j]: one keypoint's thresholded surface. *)
Definition blob (allrc : list (R * R)) (crop_size : nat) (gaussian_size : R)
    (yj : kp_row) : result (list Z) :=
  let btemp := Btemp (kp_r yj) (kp_c yj)
                 (gaussian_size * gaussian_size) (gaussian_size * gaussian_size) 0 in
  pylet llkh := get_llkh allrc btemp crop_size in
  pylet peak := Np.max llkh in
  Ok (Np.bool_to_uint8 (Np.gt llkh (peak / Np.e))).

Fixpoint blobs_loop (allrc : list (R * R)) (crop_size : nat) (gaussian_size : R)
    (y : list kp_row) (layer : list Z) : result (list Z) :=
  match y with
  | [] => Ok layer
  | yj :: rest =>
      pylet m := blob allrc crop_size gaussian_size yj in
      blobs_loop allrc crop_size gaussian_size rest (Np.maximum layer m)
  end.

(** The three successive selections of rows. *)
Definition select (keypoints : list kp_row) (image_id bb_id : Z) (i : nat)
  : list kp_row :=
  let y := List.filter (fun r => Np.eq_int (kp_image r) image_id) keypoints in
  let y := List.filter (fun r => Np.eq_int (kp_bb r) bb_id) y in
  List.filter (fun r => Np.eq_int (kp_chan r) (Z.of_nat i + 1)) y.

(** The loop over the channels [i], over the remaining indices [todo]. *)
Fixpoint channels_loop (allrc : list (R * R)) (crop_size : nat)
    (gaussian_size : R) (keypoints : list kp_row) (image_id bb_id : Z)
    (input : ref_array) (todo : list nat) (data : volume) : result volume :=
  match todo with
  | [] => Ok data
  | i :: rest =>
      pylet mx := Np.maxZ (ref_slice input i) in
      if (0 <? mx)%Z then
        let y := select keypoints image_id bb_id i in
        pylet layer := blobs_loop allrc crop_size gaussian_size y
                         (default [] (data !! i)) in
        channels_loop allrc crop_size gaussian_size keypoints image_id bb_id
          input rest (<[i := layer]> data)
      else
        channels_loop allrc crop_size gaussian_size keypoints image_id bb_id
          input rest data
  end.

(** Files: a [.mat] file with its variable ["data"] (if it has one), a
    pickled volume, or anything else. *)
Inductive file : Type :=
| MatFile (data : option ref_array)
| PickleFile (data : volume)
| OtherFile.

Record world : Type := World {
  files : gmap string file;
  can_open_wb : string -> bool
}.

(** [loadmat(file_path)["data"]]. *)
Definition loadmat_data (w : world) (file_path : string) : result ref_array :=
  match files w !! file_path with
  | Some (MatFile (Some d)) => Ok d
  | Some (MatFile None) => Raise KeyError
  | Some _ => Raise ValueError
  | None => Raise OSError
  end.

(** Lines 20-47 of [gaussians]: everything up to the array that is
    written. *)
Definition synthesize (keypoints : list kp_row) (file_path : string)
    (w : world) : result volume :=
  let crop_size := 321%nat in
  let gaussian_size := 50%R in
  let file_name := basename file_path in
  pylet image_id := py_int (slice 1 5 file_name) in
  pylet c6 := index file_name 6 in
  pylet bb_id := py_int c6 in
  pylet input := loadmat_data w file_path in
  let data := repeat (repeat 0%Z (crop_size * crop_size)) (ref_c input) in
  let allrc := grid crop_size in
  pylet data := channels_loop allrc crop_size gaussian_size keypoints
                  image_id bb_id input (seq 0 (ref_c input)) data in
  Ok (map Np.to_uint8 data).

(** [gaussians(keypoints, file_path, save_path)] in the world [w]: what
    the call returns or raises, and the world it leaves. *)
Definition gaussians (keypoints : list kp_row) (file_path save_path : string)
    (w : world) : result unit * world :=
  match synthesize keypoints file_path w with
  | Raise e => (Raise e, w)
  | Ok data =>
      if can_open_wb w save_path then
        (Ok tt, World (<[save_path := PickleFile data]> (files w)) (can_open_wb w))
      else (Raise OSError, w)
  end.

(** *** Auxiliary definitions for the statements below *)

(** The value [get_llkh] computes at one point [rc] of the grid. *)
Definition density (bt : btemp_t) (rc : R * R) : R :=
  let p := Np.pinv (Np.Mat2 (bt2 bt) (bt4 bt) (bt4 bt) (bt3 bt)) in
  let dr := (fst rc - bt0 bt)%R in
  let dc := (snd rc - bt1 bt)%R in
  (1 / sqrt (Np.det (Np.Mat2 (bt2 bt) (bt4 bt) (bt4 bt) (bt3 bt)) * 2 * PI)
   * exp (-0.5 * ((dr * Np.m00 p + dc * Np.m10 p) * dr
                  + (dr * Np.m01 p + dc * Np.m11 p) * dc)))%R.

(** The bivariate normal density with the given mean and covariance, as
    the specification names it: [1 / (2 pi sqrt(det cov))] times the
    exponential of minus half the squared Mahalanobis distance. *)
Definition gaussian_pdf (mean : R * R) (cov : Np.mat2) (x : R * R) : R :=
  let p := Np.pinv cov in
  let dr := (fst x - fst mean)%R in
  let dc := (snd x - snd mean)%R in
  (1 / (2 * PI * sqrt (Np.det cov))
   * exp (- (1 / 2) * ((dr * Np.m00 p + dc * Np.m10 p) * dr
                       + (dr * Np.m01 p + dc * Np.m11 p) * dc)))%R.

(** [btemp] of the keypoint [yj] for the blob radius [g]. *)
Definition iso (yj : kp_row) (g : R) : btemp_t :=
  Btemp (kp_r yj) (kp_c yj) (g * g) (g * g) 0.

(** The constant factor of [get_llkh] for [iso yj g]. *)
Definition peak_const (g : R) : R := (1 / sqrt (g * g * (g * g) * 2 * PI))%R.

(** [np.max] of a buffer that is known not to be empty. *)
Definition peak (l : list R) : R :=
  match l with [] => 0%R | x :: t => fold_left Rmax t x end.

(** What [blob] returns on the grid of side [n]. *)
Definition blob_mask (n : nat) (g : R) (yj : kp_row) : list Z :=
  let llkh := map (density (iso yj g)) (grid n) in
  Np.bool_to_uint8 (Np.gt llkh (peak llkh / Np.e)).

(** A buffer of zeros and ones. *)
Definition bits (l : list Z) : Prop := Forall (fun z => z = 0%Z \/ z = 1%Z) l.

(** One turn of [channels_loop], as a function of the layer it starts
    from. *)
Definition layer_result (allrc : list (R * R)) (crop_size : nat)
    (gaussian_size : R) (keypoints : list kp_row) (image_id bb_id : Z)
    (input : ref_array) (zero : list Z) (i : nat) : result (list Z) :=
  pylet mx := Np.maxZ (ref_slice input i) in
  if (0 <? mx)%Z then
    blobs_loop allrc crop_size gaussian_size
      (select keypoints image_id bb_id i) zero
  else Ok zero.

(** [np.max(input[:, :, i])] when the slice is not empty. *)
Definition chan_max (input : ref_array) (i : nat) : Z :=
  match ref_slice input i with [] => 0%Z | x :: t => fold_left Z.max t x end.

(** Layer [i] of the volume. *)
Definition layer_of (n : nat) (g : R) (keypoints : list kp_row)
    (image_id bb_id : Z) (input : ref_array) (i : nat) : list Z :=
  if (0 <? chan_max input i)%Z then
    fold_left Np.maximum
      (map (blob_mask n g) (select keypoints image_id bb_id i))
      (repeat 0%Z (n * n))
  else repeat 0%Z (n * n).

(** Lines 23-25: the ids read off the file name. *)
Definition sample_ids (file_path : string) : result (Z * Z) :=
  let file_name := basename file_path in
  pylet image_id := py_int (slice 1 5 file_name) in
  pylet c6 := index file_name 6 in
  pylet bb_id := py_int c6 in
  Ok (image_id, bb_id).


(** The volume as a function of the ids and of the reference array. *)
Definition layers (keypoints : list kp_row) (ids : Z * Z) (input : ref_array)
  : result volume :=
  if ((ref_c input =? 0)%nat || (0 <? ref_h input * ref_w input)%nat)%bool
  then Ok (map (layer_of 321 50 keypoints (fst ids) (snd ids) input)
               (seq 0 (ref_c input)))
  else Raise ValueError.

(** The rows [select] keeps. *)
Definition matches (image_id bb_id : Z) (i : nat) (r : kp_row) : bool :=
  (Np.eq_int (kp_image r) image_id && Np.eq_int (kp_bb r) bb_id
   && Np.eq_int (kp_chan r) (Z.of_nat i + 1))%bool.

(** Rows whose channel index is one of [1, ..., c]. *)
Definition chan_in_range (c : nat) (r : kp_row) : bool :=
  existsb (fun i => Np.eq_int (kp_chan r) (Z.of_nat i + 1)) (seq 0 c).

(** A sample: image 1, box 1, two channels of which only the first has
    positive reference data, and a keypoint at row 100, column 250. The
    reference array is kept small: [gaussians] reads its maximum per
    channel and its number of channels, nothing else. *)
Definition sample_path : string :=
  "/cad120/segmentation_mat/10001_1_binary_multilabel.mat".
Definition sample_ref : ref_array :=
  RefArray 2 2 2 (fun _ _ i => if (i =? 0)%nat then 1%Z else 0%Z).
Definition sample_world : world :=
  World {[ sample_path := MatFile (Some sample_ref) ]} (fun _ => true).
Definition sample_keypoint : kp_row := KpRow 1 1 1 100 250.

(** The on pixels of a layer are the pixels of the grid at Euclidean
    distance less than [50 * sqrt 2] from the point [(row, col)]; the
    pixel at position [[a, b]] of the layer is the pixel of row [a + 1]
    and column [b + 1]. *)
Definition disc_at (layer : list Z) (row col : R) : Prop :=
  forall a b : nat, a < 321 -> b < 321 ->
    (layer !! (a * 321 + b) = Some 1%Z
     <-> (sqrt ((INR (S a) - row) * (INR (S a) - row)
                + (INR (S b) - col) * (INR (S b) - col)) < 50 * sqrt 2)%R).

(** A second keypoint of the same channel, a keypoint of a channel the
    sample does not have, and the same reference array under another
    path. *)
Definition second_keypoint : kp_row := KpRow 1 1 1 30 40.
Definition stray_keypoint : kp_row := KpRow 1 1 7 10 10.
Definition other_path : string := "/elsewhere/10001_1.mat".
Definition other_world : world :=
  World {[ other_path := MatFile (Some sample_ref) ]} (fun _ => true).

End Gaussians.

(* ================================================================== *)
(** ** [utils.MinNormSolver] *)
(* ================================================================== *)

Module MinNorm.
Import Py.

(** Modelled from the spec: a gradient tensor of the "Gradient list" of
    the data model, which [utils.py] (not among the sources) receives:
    its shape and its entries, flattened. *)
Record tensor : Type := Tensor { shape : list nat; entries : list R }.

(** Modelled from the spec: the iteration cap ("e.g., 250") and the
    tolerance on the step size ("e.g., 1e-5") of
    [MinNormSolver] in [utils.py]. *)
Definition MAX_ITER : nat := 250.
Definition STOP_CRIT : R := (1 / 100000)%R.

Definition shapes (g : list tensor) : list (list nat) := map shape g.

(** Modelled from the spec: the validation of [utils.py]'s solver, "shape
    mismatches across tasks for the same positional gradient are a fatal
    contract violation - must be validated before computing dot
    products". *)
Definition validate (gs : list (list tensor)) : bool :=
  match gs with
  | [] => true
  | g0 :: rest => forallb (fun g => bool_decide (shapes g = shapes g0)) rest
  end.

(** Modelled from the spec: the Gram entries of [utils.py]'s solver, "the
    dot product of the flattened gradient vectors of tasks i and j (sum of
    element-wise products across all positional tensors)". *)
Definition dot_tensor (a b : tensor) : R :=
  sumR (zip_with Rmult (entries a) (entries b)).

Definition dot (g h : list tensor) : R := sumR (zip_with dot_tensor g h).

Definition gram (gs : list (list tensor)) (i j : nat) : R :=
  match gs !! i, gs !! j with
  | Some g, Some h => dot g h
  | _, _ => 0%R
  end.

(** The pairs [i < j] below [k]. *)
Definition pairs (k : nat) : list (nat * nat) :=
  flat_map (fun i => map (fun j => (i, j)) (seq (S i) (k - S i))) (seq 0 k).

(** Modelled from the spec: the diagnostic second component of
    [utils.py]'s result, the Gram entries for [i <= j]. *)
Definition gram_values (gs : list (list tensor)) : list R :=
  let k := length gs in
  flat_map (fun i => map (fun j => gram gs i j) (seq i (k - i))) (seq 0 k).

Definition clip01 (x : R) : R :=
  if Rle_dec x 0 then 0%R else if Rle_dec 1 x then 1%R else x.

(** Modelled from the spec: the closed-form minimization on a segment of
    [utils.py]'s solver. For two points with squared norms [a] and [c] and
    dot product [b], the weight of the first point at the minimum-norm
    point of the segment, "clipped to [0, 1]", with the "equal-weight
    split" for a degenerate denominator. *)
Definition line_min (a b c : R) : R :=
  let den := (a + c - 2 * b)%R in
  if Req_dec_T den 0 then (1 / 2)%R else clip01 ((c - b) / den).

(** Squared norm of the point of weight [gamma] on that segment. *)
Definition line_cost (a b c gamma : R) : R :=
  (gamma * gamma * a + 2 * gamma * (1 - gamma) * b
   + (1 - gamma) * (1 - gamma) * c)%R.

(** Component [k] of the one-hot vector at [t]. *)
Definition delta (k t : nat) : R := if (k =? t)%nat then 1%R else 0%R.

Definition pair_split (gs : list (list tensor)) (ij : nat * nat) : R :=
  line_min (gram gs (fst ij) (fst ij)) (gram gs (fst ij) (snd ij))
           (gram gs (snd ij) (snd ij)).

Definition pair_cost (gs : list (list tensor)) (ij : nat * nat) : R :=
  line_cost (gram gs (fst ij) (fst ij)) (gram gs (fst ij) (snd ij))
            (gram gs (snd ij) (snd ij)) (pair_split gs ij).

(** Modelled from the spec: the initialization of [utils.py]'s solver,
    "over all pairs (i, j), the analytic minimum-norm point on the line
    segment between g_i and g_j", of which the best pair is kept; its
    split is a one-hot vector when the minimum is at an endpoint. *)
Definition best_pair (gs : list (list tensor)) : nat * nat :=
  fold_left
    (fun best ij => if Rlt_dec (pair_cost gs ij) (pair_cost gs best)
                    then ij else best)
    (pairs (length gs)) (0, 1).

Definition init_weights (gs : list (list tensor)) : list R :=
  let ij := best_pair gs in
  let gamma := pair_split gs ij in
  map (fun k => (gamma * delta k (fst ij) + (1 - gamma) * delta k (snd ij))%R)
      (seq 0 (length gs)).

(** [(G w)_t]: the dot product of the current combination with [g_t]. *)
Definition gw (gs : list (list tensor)) (w : list R) (t : nat) : R :=
  sumR (zip_with (fun wk k => (wk * gram gs t k)%R) w (seq 0 (length gs))).

(** The first index below [k] at which [f] is least. *)
Definition argmin (f : nat -> R) (k : nat) : nat :=
  fold_left (fun best t => if Rlt_dec (f t) (f best) then t else best)
            (seq 1 (k - 1)) 0.

(** The convex combination of [w] and of the vertex [t], of weight
    [gamma] on the vertex. *)
Definition fw_update (w : list R) (gamma : R) (t : nat) : list R :=
  zip_with (fun wk k => ((1 - gamma) * wk + gamma * delta k t)%R)
           w (seq 0 (length w)).

(** Modelled from the spec: the refinement loop of [utils.py]'s solver,
    "find the task index t minimizing the directional derivative ...;
    compute the optimal step size analytically ...; update weights as a
    convex combination of the current iterate and the vertex; stop when the
    computed step size is below a small fixed tolerance or after a fixed
    maximum iteration count". *)
Fixpoint iterate (gs : list (list tensor)) (fuel : nat) (w : list R) : list R :=
  match fuel with
  | 0 => w
  | S fuel' =>
      let t := argmin (gw gs w) (length gs) in
      let vv := sumR (zip_with (fun wk k => (wk * gw gs w k)%R) w
                               (seq 0 (length gs))) in
      let vg := gw gs w t in
      let gg := gram gs t t in
      let gamma := line_min gg vg vv in
      if Rlt_dec gamma STOP_CRIT then w
      else iterate gs fuel' (fw_update w gamma t)
  end.

(** Modelled from the spec: [MinNormSolver.find_min_norm_element] of
    [utils.py], which is not among the sources. One task gets the weight 1
    "without entering the iterative loop"; mismatched shapes are an
    error. *)
Definition find_min_norm_element (gs : list (list tensor))
  : result (list R * list R) :=
  match gs with
  | [] => Raise ValueError
  | [_] => Ok ([1%R], gram_values gs)
  | _ =>
      if validate gs then
        Ok (iterate gs MAX_ITER (init_weights gs), gram_values gs)
      else Raise ValueError
  end.

(** The weights of a convex combination of [k] points. *)
Definition simplex (k : nat) (w : list R) : Prop :=
  length w = k /\ Forall (fun x => (0 <= x)%R) w /\ sumR w = 1%R.

(** The invariant of a gradient list in the data model: every task has the
    same number of tensors, with the same shapes position by position. *)
Definition gradient_list (gs : list (list tensor)) : Prop :=
  forall g h, In g gs -> In h gs -> map shape g = map shape h.

(** Two tasks with one tensor of two entries each. *)
Definition two_tasks : list (list tensor) :=
  [[Tensor [2] [1%R; 0%R]]; [Tensor [2] [0%R; 1%R]]].

(** Two tasks whose tensors differ in shape. *)
Definition mismatched_tasks : list (list tensor) :=
  [[Tensor [2] [1%R; 0%R]]; [Tensor [3] [0%R; 1%R; 0%R]]].

End MinNorm.

(* ================================================================== *)
(** ** [main.py]: [CerberusMultiHeadTrain.train], one iteration *)
(* ================================================================== *)

Module Train.
Import Py.

(** What the model sees between two uses of the parameters. *)
Inductive event : Type :=
| ZeroGrad
| Backward (loss : R)
| OptimizerStep.

Section Step.
(** Tensors, the state of the model (parameters, buffers, mode), the
    forward pass [self.model(input, task_i)] and [self.criterion]. *)
Context {Tensor State : Type}.
Variable forward : State -> Tensor -> nat -> list Tensor * State.
Variable criterion : Tensor -> Tensor -> R.

(** [for idx in range(len(output)): loss.append(self.criterion(output[idx],
    target[idx]))]. *)
Fixpoint head_loop (output target : list Tensor) (idxs : list nat)
    (loss : list R) : result (list R) :=
  match idxs with
  | [] => Ok loss
  | idx :: rest =>
      pylet o := getitem output idx in
      pylet t := getitem target idx in
      head_loop output target rest (loss ++ [criterion o t])
  end.

(** The second loop over [enumerate(task_data_pair)], from [task_i] on. *)
Fixpoint task_loop (st : State) (task_i : nat)
    (task_data_pair : list (Tensor * list Tensor)) (task_loss : list R)
  : result (list R * State) :=
  match task_data_pair with
  | [] => Ok (task_loss, st)
  | (input, target) :: rest =>
      let (output, st') := forward st input task_i in
      pylet loss := head_loop output target (seq 0 (length output)) [] in
      let loss := py_sum loss in
      task_loop st' (S task_i) rest (task_loss ++ [loss])
  end.

(** Lines 299-317: from the weights [sol] to the optimizer step;
    [n_tasks] is [len(self.task_root_list)]. *)
Definition combine_and_step (st : State) (sol : list R)
    (task_data_pair : list (Tensor * list Tensor)) (n_tasks : nat)
  : result (list event * State) :=
  pylet r := task_loop st 0 task_data_pair [] in
  let task_loss := fst r in
  pylet loss := mapM (fun i => pylet s := getitem sol i in
                               pylet l := getitem task_loss i in
                               Ok (s * l)%R)
                     (seq 0 n_tasks) in
  let loss := py_sum loss in
  Ok ([ZeroGrad; Backward loss; OptimizerStep], snd r).

(** Lines 246-295, the per-task backward passes that collect [grads], and
    the solver of [utils]: parameters of the iteration. *)
Context {Grad Diag : Type}.
Variable collect_grads :
  State -> list (Tensor * list Tensor) -> result (list (list Grad) * State).
Variable find_min_norm_element : list (list Grad) -> result (list R * Diag).

(** One iteration of the loop over [self.train_loader]. *)
Definition train_iteration (st : State)
    (task_data_pair : list (Tensor * list Tensor)) (n_tasks : nat)
  : result (list event * State) :=
  pylet g := collect_grads st task_data_pair in
  pylet s := find_min_norm_element (fst g) in
  let sol := fst s in
  combine_and_step (snd g) sol task_data_pair n_tasks.

(** The outputs of the model in the second pass, task by task. *)
Fixpoint outputs (st : State) (task_i : nat)
    (task_data_pair : list (Tensor * list Tensor)) : list (list Tensor) :=
  match task_data_pair with
  | [] => []
  | (input, _) :: rest =>
      fst (forward st input task_i)
      :: outputs (snd (forward st input task_i)) (S task_i) rest
  end.

(** The loss of one task: the sum of the criterion over its heads. *)
Definition task_loss_of (output target : list Tensor) : R :=
  sumR (zip_with criterion output target).

End Step.

(** A toy instance: numbers as tensors, a model with two heads and no
    state, the squared error, and a solver that weighs the tasks
    equally. *)
Definition toy_forward (st : unit) (input : R) (task_i : nat) : list R * unit :=
  ([input; (input + INR task_i)%R], st).
Definition toy_criterion (o t : R) : R := ((o - t) * (o - t))%R.
Definition toy_collect (st : unit) (p : list (R * list R))
  : result (list (list unit) * unit) := Ok (map (fun _ => [tt]) p, st).
Definition toy_solver (g : list (list unit)) : result (list R * unit) :=
  Ok (map (fun _ => (1 / 2)%R) g, tt).
Definition toy_data : list (R * list R) :=
  [(1%R, [0%R; 0%R]); (2%R, [1%R; 1%R; 1%R])].

End Train.

(* ================================================================== *)
(** ** [gaussians.py]: rows of a sample, distances *)
(* ================================================================== *)

Module GaussiansRows.
Import Py.
Import Gaussians.

(** Rows of this sample: the first two selections of [select], on the
    image id and on the bounding-box id. *)
Definition of_sample (image_id bb_id : Z) (r : kp_row) : bool :=
  (Np.eq_int (kp_image r) image_id && Np.eq_int (kp_bb r) bb_id)%bool.

(** Squared distance from a grid point to the keypoint. *)
Definition sq_dist (yj : kp_row) (rc : R * R) : R :=
  ((fst rc - kp_r yj) * (fst rc - kp_r yj)
   + (snd rc - kp_c yj) * (snd rc - kp_c yj))%R.

(** The coordinate of the grid, [1] to [321], nearest to [z]. *)
Definition clamp (z : Z) : Z := Z.max 1 (Z.min 321 z).

(** A keypoint off the grid, with first coordinate 400 and second
    coordinate 100. *)
Definition off_grid_keypoint : kp_row := KpRow 1 1 1 400 100.


End GaussiansRows.

(* ================================================================== *)
(** ** Strings and paths: [str.strip], [str.startswith], [os.path.join] *)
(* ================================================================== *)

Module PyStr.
Import Py.

(** [s.startswith(p)] and [s.endswith(p)]. *)
Definition startswith (s p : string) : bool := String.prefix p s.

Definition endswith (s p : string) : bool :=
  let n := String.length s in
  let m := String.length p in
  (m <=? n)%nat && String.eqb (substring (n - m) m s) p.

(** [posixpath.join(path, b)] for one component. *)
Definition join2 (path b : string) : string :=
  if startswith b "/" then b
  else if (String.eqb path "" || endswith path "/")%bool then (path ++ b)%string
  else (path ++ "/" ++ b)%string.

(** [os.path.join(a, *p)]. *)
Definition join (a : string) (p : list string) : string := fold_left join2 p a.

(** [s.strip()]. *)
Definition str_strip (s : string) : string :=
  string_of_list_ascii (strip (list_ascii_of_string s)).

(** [t] ends with [s]. *)
Definition ends_with (t s : string) : Prop := exists u, t = (u ++ s)%string.

End PyStr.

(* ================================================================== *)
(** ** [train_set] and [val_set] of [gaussians.py]

    The files are those of [Gaussians.world], paths compared as strings.
    Directories are not part of it: [os.makedirs] and [os.chdir] are taken
    to succeed. The table of [keypoints.txt] and the lines of the split
    files next to the script are given. *)
(* ================================================================== *)

Module Cad120.
Import Py.
Import Gaussians.
Import PyStr.

(** How a call ends: it returns, it raises one of the exceptions of
    [py_exn], or an [assert] fails. *)
Inductive outcome : Type :=
| Returned
| Raised (e : py_exn)
| AssertionError.

(** ["\n"]. *)
Definition nl : string := String "010"%char EmptyString.

(** [os.path.exists(p)] for a file. *)
Definition path_exists (w : world) (p : string) : bool :=
  match files w !! p with Some _ => true | None => false end.

(** [shutil.copyfile(src, dst)]: every way it fails is an [OSError]. *)
Definition copyfile (w : world) (src dst : string) : result world :=
  match files w !! src with
  | None => Raise OSError
  | Some f =>
      if String.eqb src dst then Raise OSError
      else if can_open_wb w dst then
        Ok (World (<[dst := f]> (files w)) (can_open_wb w))
      else Raise OSError
  end.

(** [open(p, "w")]: the file is there and empty from then on; it is a
    text file, neither a reference nor a pickle. *)
Definition open_w (w : world) (p : string) : result world :=
  if can_open_wb w p then
    Ok (World (<[p := OtherFile]> (files w)) (can_open_wb w))
  else Raise OSError.

(** The four paths of one line of a split file. *)
Definition image_path (cad120_path line : string) : string :=
  join cad120_path ["object_crop_images"; line ++ ".png"]%string.
Definition image_save_path (images_path line : string) : string :=
  join images_path [line ++ ".png"]%string.
Definition label_path (cad120_path line : string) : string :=
  join cad120_path ["segmentation_mat"; line ++ "_binary_multilabel.mat"]%string.
Definition label_save_path (labels_path line : string) : string :=
  join labels_path [line ++ ".pkl"]%string.

(** Body of the loop over the lines; [fresh] tells whether the [assert]
    of [val_set] is there. It gives the text written to the index. *)
Definition line_step (fresh : bool) (keypoints : list kp_row)
    (cad120_path images_path labels_path : string) (line : string) (w : world)
  : outcome * world * string :=
  let line := str_strip line in
  let isp := image_save_path images_path line in
  let lsp := label_save_path labels_path line in
  if (fresh && (path_exists w isp || path_exists w lsp))%bool
  then (AssertionError, w, ""%string)
  else
    match copyfile w (image_path cad120_path line) isp with
    | Raise e => (Raised e, w, ""%string)
    | Ok w1 =>
        match gaussians keypoints (label_path cad120_path line) lsp w1 with
        | (Raise e, w2) => (Raised e, w2, ""%string)
        | (Ok _, w2) => (Returned, w2, (isp ++ "," ++ lsp ++ nl)%string)
        end
    end.

(** The loop over the lines; [written] is what [fb] was given so far. *)
Fixpoint lines_loop (fresh : bool) (keypoints : list kp_row)
    (cad120_path images_path labels_path : string) (lines : list string)
    (w : world) (written : string) : outcome * world * string :=
  match lines with
  | [] => (Returned, w, written)
  | line :: rest =>
      match line_step fresh keypoints cad120_path images_path labels_path
              line w with
      | (Returned, w', text) =>
          lines_loop fresh keypoints cad120_path images_path labels_path rest
            w' (written ++ text)%string
      | (o, w', _) => (o, w', written)
      end
  end.

Definition images_dir (save_path s : string) : string :=
  join (join save_path [s]) ["affordance"; "images"]%string.
Definition labels_dir (save_path s : string) : string :=
  join (join save_path [s]) ["affordance"; "labels"]%string.
Definition index_path (save_path s index_name : string) : string :=
  join (join save_path [s]) [index_name].

(** Body of the loop over the splits. [ids_files] gives the lines of the
    split files, by name. [closed] lists the indexes closed so far, each
    with its path and its text; an index left by an exception is never
    closed. *)
Definition split_body (fresh : bool) (index_name ids_prefix : string)
    (keypoints : list kp_row) (ids_files : string -> result (list string))
    (cad120_path save_path s : string) (w : world)
    (closed : list (string * string))
  : outcome * world * list (string * string) :=
  let fb := index_path save_path s index_name in
  match open_w w fb with
  | Raise e => (Raised e, w, closed)
  | Ok w0 =>
      match ids_files (ids_prefix ++ s ++ "_split_id.txt")%string with
      | Raise e => (Raised e, w0, closed)
      | Ok lines =>
          match lines_loop fresh keypoints cad120_path
                  (images_dir save_path s) (labels_dir save_path s) lines
                  w0 ""%string with
          | (Returned, w', written) =>
              (Returned, w', closed ++ [(fb, written)])
          | (o, w', _) => (o, w', closed)
          end
      end
  end.

Fixpoint splits_loop (fresh : bool) (index_name ids_prefix : string)
    (keypoints : list kp_row) (ids_files : string -> result (list string))
    (cad120_path save_path : string) (splits : list string) (w : world)
    (closed : list (string * string))
  : outcome * world * list (string * string) :=
  match splits with
  | [] => (Returned, w, closed)
  | s :: rest =>
      match split_body fresh index_name ids_prefix keypoints ids_files
              cad120_path save_path s w closed with
      | (Returned, w', closed') =>
          splits_loop fresh index_name ids_prefix keypoints ids_files
            cad120_path save_path rest w' closed'
      | r => r
      end
  end.

(** [train_set(cad120_path, save_path)] and [val_set(cad120_path,
    save_path)]. *)
Definition train_set (keypoints : list kp_row)
    (ids_files : string -> result (list string))
    (cad120_path save_path : string) (w : world)
  : outcome * world * list (string * string) :=
  splits_loop false "train_affordance.txt" "train_" keypoints ids_files
    cad120_path save_path ["object"; "actor"]%string w [].

Definition val_set (keypoints : list kp_row)
    (ids_files : string -> result (list string))
    (cad120_path save_path : string) (w : world)
  : outcome * world * list (string * string) :=
  splits_loop true "val_affordance.txt" "test_" keypoints ids_files
    cad120_path save_path ["object"; "actor"]%string w [].

(** ** Auxiliary definitions *)

(** A pickled volume as [gaussians] writes them: crop-sized layers of
    zeros and ones. *)
Definition label_volume (vol : volume) : Prop :=
  Forall (fun layer => length layer = 321 * 321 /\ bits layer) vol.

(** A path that holds a pickle of a label volume. *)
Definition good_label (w : world) (p : string) : Prop :=
  exists vol, files w !! p = Some (PickleFile vol) /\ label_volume vol.

(** Both outputs of a line are there. *)
Definition line_done (images_path labels_path : string) (w : world)
    (line : string) : Prop :=
  is_Some (files w !! image_save_path images_path (str_strip line))
  /\ good_label w (label_save_path labels_path (str_strip line)).

(** The line of the index for one line of a split file, and the index
    for all of them. *)
Definition index_entry (images_path labels_path line : string) : string :=
  (image_save_path images_path (str_strip line) ++ ","
   ++ label_save_path labels_path (str_strip line) ++ nl)%string.

Definition index_text (images_path labels_path : string)
    (lines : list string) : string :=
  fold_right (fun line acc => (index_entry images_path labels_path line ++ acc)%string)
             ""%string lines.

(** A run on one split file of one line. *)
Definition sample_ids_files (name : string) : result (list string) :=
  if String.eqb name "train_object_split_id.txt"
     || String.eqb name "test_object_split_id.txt"
  then Ok [("10001_1" ++ nl)%string]
  else if String.eqb name "train_actor_split_id.txt"
          || String.eqb name "test_actor_split_id.txt"
  then Ok []
  else Raise OSError.

Definition sample_disk : world :=
  World (<["/cad120/object_crop_images/10001_1.png"%string := OtherFile]>
           (files sample_world))
        (fun _ => true).

End Cad120.

(* ================================================================== *)
(** ** Checkpoints: [exec] and [save_checkpoint] of [main.py]

    The two trainers, [CerberusMultiHeadTrain] and [CerberusSingleTrain],
    have the same [exec] and [save_checkpoint]. Training, validation and
    the scheduler are parameters; they are taken to return. *)
(* ================================================================== *)

Module Checkpoint.
Import Py.
Import PyStr.

(** A validation score: a number or [nan]. *)
Inductive score : Type :=
| Num (x : R)
| NaN.

(** [a > b]: false as soon as one side is [nan]. *)
Definition py_gt (a b : score) : bool :=
  match a, b with
  | Num x, Num y => if Rgt_dec x y then true else false
  | _, _ => false
  end.

(** [max(a, b)]: [b] replaces [a] only if [b > a]. *)
Definition py_max (a b : score) : score := if py_gt b a then b else a.

(** [range(start, stop)]. *)
Definition range (start stop : Z) : list Z :=
  map (fun i => (start + Z.of_nat i)%Z) (seq 0 (Z.to_nat (stop - start))).

(** [k] zeros. *)
Fixpoint zeros (k : nat) : string :=
  match k with
  | O => ""
  | S k => String "0" (zeros k)
  end.

(** The decimal digits of a natural number. *)
Definition digits (n : N) : string := NilZero.string_of_uint (N.to_uint n).

(** [s.zfill(width)] for a string of digits. *)
Definition zfill (width : nat) (s : string) : string :=
  (zeros (width - String.length s) ++ s)%string.

(** [f"{z:04d}"]: the sign counts in the width. *)
Definition format_04d (z : Z) : string :=
  if (z <? 0)%Z then ("-" ++ zfill 3 (digits (Z.abs_N z)))%string
  else zfill 4 (digits (Z.to_N z)).

(** Reading [format_04d] back: the digits, then the sign. *)
Definition decode (s : string) : option N :=
  match NilEmpty.uint_of_string s with
  | Some d => Some (N.of_uint d)
  | None => None
  end.

Definition decode_int (s : string) : option Z :=
  match s with
  | String "-" t =>
      match decode t with Some n => Some (- Z.of_N n)%Z | None => None end
  | _ => match decode s with Some n => Some (Z.of_N n) | None => None end
  end.

(** What a run can fail with. *)
Inductive failure : Type :=
| Raised (e : py_exn)
| ZeroDivisionError.

Section Trainer.
(** [T]: the model, the optimizer and the scheduler; [D]: state dicts. *)
Context {T D : Type}.
Variable train : Z -> T -> T.
Variable validate : Z -> T -> score * T.
Variable scheduler_step : T -> T.
Variable model_state_dict : T -> D.

(** The dict [state]. *)
Record checkpoint : Type := Ckpt {
  epoch : Z;
  state_dict : D;
  best_score : score
}.

(** The checkpoint files, by path, and the paths that can be written. *)
Record store : Type := Store {
  saved : gmap string checkpoint;
  can_write : string -> bool
}.

(** [torch.save(state, p)]. *)
Definition torch_save (st : store) (state : checkpoint) (p : string)
  : result store :=
  if can_write st p then Ok (Store (<[p := state]> (saved st)) (can_write st))
  else Raise OSError.

(** [shutil.copyfile(src, dst)]. *)
Definition copyfile (st : store) (src dst : string) : result store :=
  match saved st !! src with
  | None => Raise OSError
  | Some c =>
      if String.eqb src dst then Raise OSError
      else if can_write st dst then
        Ok (Store (<[dst := c]> (saved st)) (can_write st))
      else Raise OSError
  end.

Definition checkpoint_path (save_dir : string) : string :=
  join save_dir ["checkpoint_latest.pth"]%string.
Definition best_path (save_dir : string) : string :=
  join save_dir ["model_best.pth"]%string.
Definition history_path (save_dir : string) (e : Z) : string :=
  join save_dir [("checkpoint_" ++ format_04d e ++ ".pth")%string].

(** [save_checkpoint(state, is_best, save_dir, backup_freq)]. *)
Definition save_checkpoint (state : checkpoint) (is_best : bool)
    (save_dir : string) (backup_freq : Z) (st : store)
  : option failure * store :=
  match torch_save st state (checkpoint_path save_dir) with
  | Raise e => (Some (Raised e), st)
  | Ok st1 =>
      match (if is_best
             then copyfile st1 (checkpoint_path save_dir) (best_path save_dir)
             else Ok st1) with
      | Raise e => (Some (Raised e), st1)
      | Ok st2 =>
          if (backup_freq =? 0)%Z then (Some ZeroDivisionError, st2)
          else if (epoch state mod backup_freq =? 0)%Z then
            match copyfile st2 (checkpoint_path save_dir)
                    (history_path save_dir (epoch state)) with
            | Raise e => (Some (Raised e), st2)
            | Ok st3 => (None, st3)
            end
          else (None, st2)
      end
  end.

(** The trainer: what training changes, and [self.best_score]. *)
Record trainer : Type := Trainer {
  internals : T;
  self_best_score : score
}.

(** One epoch up to the call of [save_checkpoint]: the validation score,
    [is_best], [state] and the trainer after it. *)
Record epoch_result : Type := EpochResult {
  val_score : score;
  is_best : bool;
  state : checkpoint;
  after : trainer
}.

Definition run_epoch (e : Z) (tr : trainer) : epoch_result :=
  let t1 := train e (internals tr) in
  let (s, t2) := validate e t1 in
  let t3 := scheduler_step t2 in
  let best := py_max s (self_best_score tr) in
  EpochResult s (py_gt s (self_best_score tr))
              (Ckpt (e + 1) (model_state_dict t3) best)
              (Trainer t3 best).

(** The loop of [exec] in mode [train]. *)
Fixpoint exec_loop (self_save_dir : string) (epochs : list Z) (tr : trainer)
    (st : store) : option failure * trainer * store :=
  match epochs with
  | [] => (None, tr, st)
  | e :: rest =>
      let r := run_epoch e tr in
      match save_checkpoint (state r) (is_best r)
              (join self_save_dir ["model"]%string) 10 st with
      | (None, st') => exec_loop self_save_dir rest (after r) st'
      | (Some err, st') => (Some err, after r, st')
      end
  end.

Definition exec_train (self_save_dir : string) (start_epoch epochs : Z)
    (tr : trainer) (st : store) : option failure * trainer * store :=
  exec_loop self_save_dir (range start_epoch epochs) tr st.

(** ** Auxiliary definitions *)

(** What the epochs give, one after the other, files aside. *)
Fixpoint trajectory (epochs : list Z) (tr : trainer) : list epoch_result :=
  match epochs with
  | [] => []
  | e :: rest => run_epoch e tr :: trajectory rest (after (run_epoch e tr))
  end.

(** The last epoch that was best when it ended. *)
Fixpoint last_best (l : list epoch_result) : option epoch_result :=
  match l with
  | [] => None
  | r :: rest =>
      match last_best rest with
      | Some r' => Some r'
      | None => if is_best r then Some r else None
      end
  end.

(** The trainer after the epochs. *)
Definition trainer_after (epochs : list Z) (tr : trainer) : trainer :=
  fold_left (fun tr e => after (run_epoch e tr)) epochs tr.

Definition is_number (s : score) : Prop := exists x, s = Num x.

End Trainer.

Arguments checkpoint : clear implicits.
Arguments store : clear implicits.
Arguments trainer : clear implicits.
Arguments epoch_result : clear implicits.

(** A run of the epochs [8], [9], [10], whose scores are [1], [3], [2];
    the model counts the epochs it was trained for. *)
Definition sample_train (e : Z) (t : Z) : Z := (t + 1)%Z.
Definition sample_step (t : Z) : Z := t.
Definition sample_validate (e : Z) (t : Z) : score * Z :=
  (Num (if (e =? 8)%Z then 1 else if (e =? 9)%Z then 3 else 2), t).
Definition sample_store : store Z := Store ∅ (fun _ => true).
Definition sample_trainer : trainer Z := Trainer 0%Z (Num 0).
Definition sample_run : option failure * trainer Z * store Z :=
  exec_train sample_train sample_validate sample_step sample_step "/run" 8 11
    sample_trainer sample_store.

(** The state of epoch [10] of a run, which is the best so far. *)
Definition sample_state : checkpoint Z := Ckpt 10%Z 7%Z (Num 1).

(** Two epochs, the first of which has no score, for a trainer whose best
    score is [5]. *)
Definition nan_validate (e : Z) (t : Z) : score * Z :=
  (if (e =? 0)%Z then NaN else Num 1, t).
Definition resumed_trainer : trainer Z := Trainer 0%Z (Num 5).
Definition nan_run : option failure * trainer Z * store Z :=
  exec_loop sample_train nan_validate sample_step sample_step "/run" [0; 1]%Z
    resumed_trainer sample_store.

End Checkpoint.

(* ================================================================== *)
(** ** Multi-scale sizes of [datasets.py] *)
(* ================================================================== *)

Module MultiScale.

(** The integers that a [float64] holds exactly whatever their low bits:
    up to [2^53] in absolute value. *)
Definition exact_float (n : Z) : bool := (Z.abs n <=? 9007199254740992)%Z.

(** [round(x)] for a quotient [x = n / d] that is held exactly, [d > 0]:
    [x] is rounded to the nearest integer, a tie to the even one. *)
Definition round_div (n d : Z) : Z :=
  let q := (n / d)%Z in
  let r := (n mod d)%Z in
  if (2 * r <? d)%Z then q
  else if (d <? 2 * r)%Z then (q + 1)%Z
  else if Z.even q then q else (q + 1)%Z.

(** [round(n / 32) * 32], with [n] the value of [int(w * s)]. The
    quotient [n / 32] is a [float64]: for [n] up to [2^53] in absolute
    value it is the exact quotient, a division by a power of two, and
    [round] rounds that. Beyond, the quotient is rounded before [round]
    sees it; that is not modelled, and the result is [None]. *)
Definition ms_side (n : Z) : option Z :=
  if exact_float n then Some (round_div n 32 * 32)%Z else None.

(** The size the image is resized to, from [int(w * s)] and
    [int(h * s)]. *)
Definition ms_size (ws hs : Z) : option (Z * Z) :=
  match ms_side ws, ms_side hs with
  | Some a, Some b => Some (a, b)
  | _, _ => None
  end.

End MultiScale.

(* ================================================================== *)
(** ** Loading a checkpoint: the keys of the state dict *)
(* ================================================================== *)

Module StateDict.

(** [s.replace(old, new)] for a non-empty [old], from the left, without
    overlap; [skip] characters of a match are still to be dropped. *)
Fixpoint replace_from (old new : string) (skip : nat) (s : string) : string :=
  match s with
  | EmptyString => EmptyString
  | String c t =>
      match skip with
      | S k => replace_from old new k t
      | O =>
          if String.prefix old s
          then (new ++ replace_from old new (String.length old - 1) t)%string
          else String c (replace_from old new 0 t)
      end
  end.

(** [s.replace(old, new)]; an empty [old] matches before every character
    and at the end. *)
Definition replace (s old new : string) : string :=
  match old with
  | EmptyString =>
      (new ++ String.concat "" (map (fun c => String c new)
                                    (list_ascii_of_string s)))%string
  | _ => replace_from old new 0 s
  end.

(** [{k.replace("module.", ""): v for k, v in items}]: a later item
    replaces an earlier one of the same key. *)
Definition strip_module {V : Type} (items : list (string * V))
  : gmap string V :=
  fold_left (fun m kv => <[replace (fst kv) "module." "" := snd kv]> m)
            items ∅.

(** ** Auxiliary definitions *)

(** [old in s]. *)
Fixpoint occurs (old s : string) : bool :=
  String.prefix old s
  || match s with
     | EmptyString => false
     | String _ t => occurs old t
     end.

(** A key as a model gives it, or as a model wrapped in [DataParallel]
    gives it; [plain_name] is the name in the model. *)
Definition plain (k : string) : Prop := occurs "module." k = false.

Definition wrapped_or_plain (k : string) : Prop :=
  plain k \/ exists k', k = ("module." ++ k')%string /\ plain k'.

Definition plain_name (k : string) : string :=
  if String.prefix "module." k then substring 7 (String.length k - 7) k else k.

(** A state dict with a wrapped key and a plain one. *)
Definition sample_items : list (string * Z) :=
  [("module.scratch.conv.weight"%string, 1%Z); ("scratch.conv.bias"%string, 2%Z)].

End StateDict.

(* ================================================================== *)
(** * Lemmas and theorems *)
(* ================================================================== *)

(** ** Python runtime *)

Module PyFacts.
Import Py.

Example py_int_leading_zeros : py_int "0001" = Ok 1%Z.
Proof. reflexivity. Qed.

Example py_int_spaces_sign_underscore : py_int " -1_2 " = Ok (-12)%Z.
Proof. reflexivity. Qed.

Example py_int_letters : py_int "abel" = Raise ValueError.
Proof. reflexivity. Qed.

Example py_int_double_underscore : py_int "1__2" = Raise ValueError.
Proof. reflexivity. Qed.

Example basename_sample :
  basename "/cad120/segmentation_mat/10001_1_binary_multilabel.mat"
  = "10001_1_binary_multilabel.mat"%string.
Proof. reflexivity. Qed.

Example index_past_the_end : index "10001_" 6 = Raise IndexError.
Proof. reflexivity. Qed.

Lemma mapM_ok {A B : Type} (f : A -> result B) (g : A -> B) (l : list A) :
  (forall a, In a l -> f a = Ok (g a)) -> mapM f l = Ok (map g l).
Proof.
  induction l as [|a l IH]; intros H; simpl; [done|].
  rewrite (H a) by (by left). simpl. rewrite IH; [done|].
  intros a' Ha'. apply H. by right.
Qed.

Lemma mapM_raise {A B : Type} (f : A -> result B) (e : py_exn) (l : list A) :
  l <> [] -> (forall a, f a = Raise e) -> mapM f l = Raise e.
Proof. destruct l as [|a l]; [done|]. intros _ H. simpl. by rewrite H. Qed.

Lemma py_sum_sumR (l : list R) : py_sum l = sumR l.
Proof.
  unfold py_sum, sumR. apply fold_symmetric; intros; lra.
Qed.

End PyFacts.

(** ** numpy *)

Module NpFacts.
Import Np.

(** [pinv] is the inverse where there is one. *)
Lemma pinv_inverse (m : mat2) :
  det m <> 0%R -> mat_mul m (pinv m) = Mat2 1 0 0 1.
Proof.
  intros Hd. unfold pinv. destruct (Req_dec_T (det m) 0); [done|].
  destruct m as [a b c d]. unfold mat_mul, det in *. simpl in *.
  f_equal; field; exact Hd.
Qed.


(** The first Penrose condition, [m (pinv m) m = m], also when [m] has no
    inverse. *)
Lemma pinv_penrose_1 (m : mat2) : mat_mul (mat_mul m (pinv m)) m = m.
Proof.
  destruct (Req_dec_T (det m) 0) as [Hd|Hd].
  - unfold pinv. destruct (Req_dec_T (det m) 0) as [_|]; [|done].
    destruct m as [a b c d]. unfold det in Hd. simpl in Hd.
    cbn [m00 m01 m10 m11].
    destruct (Req_dec_T (a * a + b * b + c * c + d * d) 0) as [Hs|Hs].
    + assert (a = 0 /\ b = 0 /\ c = 0 /\ d = 0)%R as (-> & -> & -> & ->).
      { pose proof (Rle_0_sqr a). pose proof (Rle_0_sqr b).
        pose proof (Rle_0_sqr c). pose proof (Rle_0_sqr d). unfold Rsqr in *.
        repeat split; apply Rsqr_0_uniq; unfold Rsqr; lra. }
      unfold mat_mul. simpl. f_equal; lra.
    + unfold mat_mul. simpl.
      pose proof (f_equal (Rmult a) Hd) as Ha.
      pose proof (f_equal (Rmult b) Hd) as Hb.
      pose proof (f_equal (Rmult c) Hd) as Hc.
      pose proof (f_equal (Rmult d) Hd) as Hd'.
      f_equal; field_simplify_eq; try exact Hs; lra.
  - rewrite pinv_inverse by done. destruct m as [a b c d].
    unfold mat_mul. simpl. f_equal; lra.
Qed.

End NpFacts.

(** ** [gaussians.py] *)

Module GaussiansFacts.
Import PyFacts.
Import Py.
Import Gaussians.

(** *** Lists *)

Section ListFacts.
Context {A B : Type}.

Lemma lookup_map (f : A -> B) (l : list A) (i : nat) :
  map f l !! i = f <$> (l !! i).
Proof. exact (list_lookup_fmap f l i). Qed.

Lemma lookup_repeat (x : A) (n i : nat) :
  i < n -> repeat x n !! i = Some x.
Proof.
  revert i. induction n as [|n IH]; intros [|i] Hi; simpl; try lia; [done|].
  apply IH. lia.
Qed.

Lemma lookup_concat_repeat (x : list A) (n a b : nat) :
  a < n -> b < length x ->
  concat (repeat x n) !! (a * length x + b) = x !! b.
Proof.
  revert a. induction n as [|n IH]; intros a Ha Hb; [lia|].
  simpl. destruct a as [|a].
  - simpl. by rewrite lookup_app_l.
  - rewrite lookup_app_r by (simpl; lia).
    replace (S a * length x + b - length x) with (a * length x + b) by (simpl; lia).
    apply IH; lia.
Qed.

Lemma lookup_flat_map_repeat (x : list A) (n a b : nat) :
  b < n ->
  flat_map (fun v => repeat v n) x !! (a * n + b) = x !! a.
Proof.
  intros Hb. revert a. induction x as [|v x IH]; intros a; simpl.
  - by rewrite !lookup_nil.
  - destruct a as [|a]; simpl.
    + rewrite lookup_app_l by (rewrite repeat_length; lia).
      by apply lookup_repeat.
    + rewrite lookup_app_r by (rewrite repeat_length; lia).
      rewrite repeat_length.
      replace (n + a * n + b - n) with (a * n + b) by lia. apply IH.
Qed.

Lemma lookup_combine (l : list A) (k : list B) (i : nat) (x : A) (y : B) :
  l !! i = Some x -> k !! i = Some y -> combine l k !! i = Some (x, y).
Proof.
  revert k i. induction l as [|a l IH]; intros [|b k] [|i]; simpl; try done.
  - intros [= ->] [= ->]. done.
  - apply IH.
Qed.

End ListFacts.

Lemma length_tile_row (x : list R) (n : nat) :
  length (Np.tile_row x n) = n * length x.
Proof.
  unfold Np.tile_row. induction n as [|n IH]; simpl; [done|].
  rewrite length_app, IH. lia.
Qed.

Lemma length_tile_col (x : list R) (n : nat) :
  length (Np.tile_col x n) = length x * n.
Proof.
  unfold Np.tile_col. induction x as [|v x IH]; simpl; [done|].
  rewrite length_app, repeat_length, IH. lia.
Qed.

Lemma length_arange1 (n : nat) : length (Np.arange1 n) = n.
Proof. unfold Np.arange1. by rewrite length_map, length_seq. Qed.

Lemma lookup_arange1 (n b : nat) :
  b < n -> Np.arange1 n !! b = Some (INR (S b)).
Proof.
  intros Hb. unfold Np.arange1. rewrite lookup_map, lookup_seq_lt by done.
  done.
Qed.

Lemma length_grid (n : nat) : length (grid n) = n * n.
Proof.
  unfold grid. rewrite length_combine, length_tile_row, length_tile_col.
  rewrite length_arange1. lia.
Qed.

(** The point that ends up at position [[a, b]] of the reshaped surface
    has first coordinate [b + 1] and second coordinate [a + 1]. *)
Lemma lookup_grid (n a b : nat) :
  a < n -> b < n ->
  grid n !! (a * n + b) = Some (INR (S b), INR (S a)).
Proof.
  intros Ha Hb. unfold grid. apply lookup_combine.
  - unfold Np.tile_row.
    pose proof (lookup_concat_repeat (Np.arange1 n) n a b Ha) as H.
    rewrite length_arange1 in H. rewrite H by done.
    by apply lookup_arange1.
  - unfold Np.tile_col. rewrite lookup_flat_map_repeat by done.
    by apply lookup_arange1.
Qed.

(** *** The likelihood surface *)

Lemma get_llkh_eq (allrc : list (R * R)) (bt : btemp_t) (n : nat) :
  get_llkh allrc bt n
  = if (length allrc =? n * n)%nat then Ok (map (density bt) allrc)
    else Raise ValueError.
Proof. unfold get_llkh. rewrite length_map. reflexivity. Qed.

Lemma sq_pos (g : R) : (g <> 0)%R -> (0 < g * g)%R.
Proof. intros Hg. destruct (Rdichotomy _ _ Hg); nra. Qed.

Lemma peak_const_pos (g : R) : (g <> 0)%R -> (0 < peak_const g)%R.
Proof.
  intros Hg. unfold peak_const. apply Rdiv_lt_0_compat; [lra|].
  apply sqrt_lt_R0. pose proof PI_RGT_0.
  pose proof (sq_pos g Hg).
  assert (0 < g * g * (g * g))%R by (apply Rmult_lt_0_compat; lra).
  apply Rmult_lt_0_compat; lra.
Qed.

Lemma density_iso (yj : kp_row) (g : R) (rc : R * R) :
  (g <> 0)%R ->
  density (iso yj g) rc
  = (peak_const g
     * exp (- (((fst rc - kp_r yj) * (fst rc - kp_r yj)
                + (snd rc - kp_c yj) * (snd rc - kp_c yj)) / (2 * (g * g)))))%R.
Proof.
  intros Hg. unfold density, iso, peak_const, Np.pinv, Np.det. simpl.
  assert (Hd : (g * g * (g * g) - 0 * 0 <> 0)%R).
  { pose proof (sq_pos g Hg).
    assert (0 < g * g * (g * g))%R by (apply Rmult_lt_0_compat; lra). lra. }
  destruct (Req_dec_T _ 0) as [He|_]; [contradiction|]. simpl.
  replace (g * g * (g * g) - 0 * 0)%R with (g * g * (g * g))%R in * by lra.
  f_equal. f_equal. set (dr := (rc.1 - kp_r yj)%R). set (dc := (rc.2 - kp_c yj)%R).
  replace (-0.5)%R with (- (1 / 2))%R by lra. field. exact Hg.
Qed.

(** *** [np.max] *)

Lemma fold_left_Rmax_ge (t : list R) (x : R) :
  (x <= fold_left Rmax t x)%R /\ Forall (fun y => (y <= fold_left Rmax t x)%R) t.
Proof.
  revert x. induction t as [|y t IH]; intros x; simpl.
  - split; [lra|constructor].
  - destruct (IH (Rmax x y)) as [H1 H2].
    pose proof (Rmax_l x y). pose proof (Rmax_r x y).
    split; [lra|]. constructor; [lra|exact H2].
Qed.

Lemma fold_left_Rmax_in (t : list R) (x : R) : In (fold_left Rmax t x) (x :: t).
Proof.
  revert x. induction t as [|y t IH]; intros x; simpl; [by left|].
  destruct (IH (Rmax x y)) as [H|H].
  - unfold Rmax in H at 1. destruct (Rle_dec x y); [right; left|left]; done.
  - right. by right.
Qed.

Lemma np_max_intro (l : list R) (m : R) :
  In m l -> Forall (fun y => (y <= m)%R) l -> Np.max l = Ok m.
Proof.
  intros Hin Hall. destruct l as [|x t]; [destruct Hin|].
  simpl. f_equal.
  destruct (fold_left_Rmax_ge t x) as [Hx Ht].
  pose proof (fold_left_Rmax_in t x) as Hf.
  rewrite Forall_forall in Hall.
  apply Rle_antisym.
  - apply Hall. rewrite <- list_elem_of_In in Hf. exact Hf.
  - destruct Hin as [<-|Hin]; [exact Hx|].
    rewrite List.Forall_forall in Ht. by apply Ht.
Qed.

Lemma np_max_ok (l : list R) : l <> [] -> exists m, Np.max l = Ok m.
Proof. destruct l; [done|]. intros _. by eexists. Qed.

(** *** One blob on the grid *)

Lemma grid_nonempty (n : nat) : 0 < n -> grid n <> [].
Proof.
  intros Hn Heq. pose proof (length_grid n) as Hl. rewrite Heq in Hl.
  simpl in Hl. nia.
Qed.

Lemma blob_grid (n : nat) (g : R) (yj : kp_row) :
  0 < n -> blob (grid n) n g yj = Ok (blob_mask n g yj).
Proof.
  intros Hn. unfold blob, blob_mask. fold (iso yj g).
  rewrite get_llkh_eq, length_grid, Nat.eqb_refl. simpl.
  pose proof (grid_nonempty n Hn) as Hne.
  destruct (grid n) as [|rc t]; [done|]. reflexivity.
Qed.

Lemma length_blob_mask (n : nat) (g : R) (yj : kp_row) :
  length (blob_mask n g yj) = n * n.
Proof.
  unfold blob_mask, Np.bool_to_uint8, Np.gt.
  by rewrite !length_map, length_grid.
Qed.

Lemma bits_blob_mask (n : nat) (g : R) (yj : kp_row) : bits (blob_mask n g yj).
Proof.
  unfold bits, blob_mask, Np.bool_to_uint8, Np.gt.
  apply List.Forall_forall. intros z Hz.
  apply in_map_iff in Hz as (b & <- & _). destruct b; simpl; auto.
Qed.

Lemma lookup_blob_mask (n : nat) (g : R) (yj : kp_row) (k : nat) (rc : R * R) :
  grid n !! k = Some rc ->
  blob_mask n g yj !! k
  = Some (if Rgt_dec (density (iso yj g) rc)
                     (peak (map (density (iso yj g)) (grid n)) / Np.e)
          then 1%Z else 0%Z).
Proof.
  intros Hk. unfold blob_mask, Np.bool_to_uint8, Np.gt.
  rewrite !lookup_map, Hk. simpl. by destruct (Rgt_dec _ _).
Qed.

Lemma blobs_loop_grid (n : nat) (g : R) (ys : list kp_row) (layer : list Z) :
  0 < n ->
  blobs_loop (grid n) n g ys layer
  = Ok (fold_left Np.maximum (map (blob_mask n g) ys) layer).
Proof.
  intros Hn. revert layer. induction ys as [|yj ys IH]; intros layer; simpl.
  - reflexivity.
  - rewrite blob_grid by done. simpl. apply IH.
Qed.

(** *** Layers of zeros and ones under [np.maximum] *)

Lemma length_maximum (x y : list Z) :
  length y = length x -> length (Np.maximum x y) = length x.
Proof. intros H. unfold Np.maximum. rewrite length_zip_with. lia. Qed.

Lemma bits_maximum (x y : list Z) : bits x -> bits y -> bits (Np.maximum x y).
Proof.
  unfold bits, Np.maximum. intros Hx. revert y.
  induction Hx as [|a x Ha Hx IH]; intros y Hy; simpl; [constructor|].
  destruct Hy as [|b y Hb Hy]; simpl; constructor.
  - destruct Ha as [-> | ->], Hb as [-> | ->]; auto.
  - by apply IH.
Qed.

Lemma lookup_maximum (x y : list Z) (k : nat) (a b : Z) :
  x !! k = Some a -> y !! k = Some b -> Np.maximum x y !! k = Some (Z.max a b).
Proof.
  intros Ha Hb. unfold Np.maximum. rewrite lookup_zip_with, Ha. simpl.
  by rewrite Hb.
Qed.

Section Fold.
Variable len : nat.

Lemma fold_maximum_shape (ms : list (list Z)) (layer : list Z) :
  Forall (fun m => length m = len /\ bits m) ms ->
  length layer = len -> bits layer ->
  length (fold_left Np.maximum ms layer) = len
  /\ bits (fold_left Np.maximum ms layer).
Proof.
  intros Hms. revert layer.
  induction Hms as [|m ms [Hl Hb] _ IH]; intros layer Hlen Hbits; simpl.
  - done.
  - apply IH.
    + rewrite length_maximum; congruence.
    + by apply bits_maximum.
Qed.

(** Pixel-wise, the fold of [np.maximum] is a logical OR. *)
Lemma fold_maximum_or (ms : list (list Z)) (layer : list Z) (k : nat) :
  Forall (fun m => length m = len /\ bits m) ms ->
  length layer = len -> bits layer -> k < len ->
  fold_left Np.maximum ms layer !! k = Some 1%Z
  <-> (layer !! k = Some 1%Z \/ exists m, In m ms /\ m !! k = Some 1%Z).
Proof.
  intros Hms. revert layer.
  induction Hms as [|m ms [Hl Hb] _ IH]; intros layer Hlen Hbits Hk; simpl.
  - split; [by left|]. intros [H|(m & [] & _)]. done.
  - rewrite IH; [|rewrite length_maximum; congruence|by apply bits_maximum|done].
    destruct (lookup_lt_is_Some_2 layer k) as [a Ha]; [lia|].
    destruct (lookup_lt_is_Some_2 m k) as [b Hb']; [lia|].
    rewrite (lookup_maximum _ _ _ _ _ Ha Hb').
    assert (Ha01 : a = 0%Z \/ a = 1%Z).
    { unfold bits in Hbits. rewrite Forall_lookup in Hbits. by eapply Hbits. }
    assert (Hb01 : b = 0%Z \/ b = 1%Z).
    { unfold bits in Hb. rewrite Forall_lookup in Hb. by eapply Hb. }
    rewrite Ha. split.
    + intros [H|(m' & Hin & Hm')].
      * destruct Ha01 as [-> | ->]; [|by left].
        destruct Hb01 as [-> | ->]; [done|]. right. exists m. split; [by left|done].
      * right. exists m'. split; [by right|done].
    + intros [[= ->]|(m' & [<-|Hin] & Hm')].
      * left. destruct Hb01 as [-> | ->]; done.
      * left. rewrite Hb' in Hm'. injection Hm' as ->.
        destruct Ha01 as [-> | ->]; done.
      * right. by exists m'.
Qed.

End Fold.

Lemma to_uint8_bits (l : list Z) : bits l -> Np.to_uint8 l = l.
Proof.
  unfold bits, Np.to_uint8. induction 1 as [|z l Hz _ IH]; simpl; [done|].
  rewrite IH. by destruct Hz as [-> | ->].
Qed.

Lemma bits_repeat_0 (n : nat) : bits (repeat 0%Z n).
Proof. unfold bits. apply List.Forall_forall. intros z Hz. apply repeat_spec in Hz. auto. Qed.

(** *** The loop over the channels *)

Section Loop.
Context (allrc : list (R * R)) (crop_size : nat) (gaussian_size : R)
        (keypoints : list kp_row) (image_id bb_id : Z) (input : ref_array)
        (zero : list Z).

Local Abbreviation step := (layer_result allrc crop_size gaussian_size keypoints
                          image_id bb_id input zero).
Local Abbreviation loop := (channels_loop allrc crop_size gaussian_size keypoints
                          image_id bb_id input).

Lemma channels_loop_seq (len : nat) :
  forall (s : nat) (pre : list (list Z)),
    length pre = s ->
    loop (seq s len) (pre ++ repeat zero len)
    = pylet ls := mapM step (seq s len) in Ok (pre ++ ls).
Proof.
  induction len as [|len IH]; intros s pre Hs; simpl.
  - reflexivity.
  - unfold layer_result at 1.
    destruct (Np.maxZ (ref_slice input s)) as [mx|e]; simpl; [|reflexivity].
    assert (Hl : (pre ++ zero :: repeat zero len) !! s = Some zero).
    { rewrite lookup_app_r by lia. replace (s - length pre) with 0 by lia. done. }
    assert (Hi : forall x, <[s := x]> (pre ++ zero :: repeat zero len)
                 = (pre ++ [x]) ++ repeat zero len).
    { intros x. rewrite insert_app_r_alt by lia.
      replace (s - length pre) with 0 by lia. simpl.
      by rewrite <- app_assoc. }
    destruct (0 <? mx)%Z.
    + rewrite Hl. simpl.
      destruct (blobs_loop _ _ _ _ zero) as [layer|e]; simpl; [|reflexivity].
      rewrite Hi. rewrite (IH (S s)).
      2:{ rewrite length_app. simpl. lia. }
      destruct (mapM step (seq (S s) len)); simpl; [|reflexivity].
      by rewrite <- app_assoc.
    + replace (pre ++ zero :: repeat zero len)
        with ((pre ++ [zero]) ++ repeat zero len) by (by rewrite <- app_assoc).
      rewrite (IH (S s)).
      2:{ rewrite length_app. simpl. lia. }
      destruct (mapM step (seq (S s) len)); simpl; [|reflexivity].
      by rewrite <- app_assoc.
Qed.

End Loop.

Lemma length_ref_slice (input : ref_array) (i : nat) :
  length (ref_slice input i) = ref_h input * ref_w input.
Proof.
  unfold ref_slice. generalize 0 at 2. 
  induction (ref_h input) as [|h IH]; intros s; simpl; [done|].
  rewrite length_app, length_map, length_seq, IH. lia.
Qed.

Lemma maxZ_slice (input : ref_array) (i : nat) :
  Np.maxZ (ref_slice input i)
  = if (0 <? ref_h input * ref_w input)%nat then Ok (chan_max input i)
    else Raise ValueError.
Proof.
  pose proof (length_ref_slice input i) as Hl. unfold chan_max.
  destruct (ref_slice input i) as [|x t]; simpl in *.
  - rewrite <- Hl. done.
  - rewrite <- Hl. done.
Qed.

Lemma layer_of_shape (n : nat) (g : R) (keypoints : list kp_row)
    (image_id bb_id : Z) (input : ref_array) (i : nat) :
  length (layer_of n g keypoints image_id bb_id input i) = n * n
  /\ bits (layer_of n g keypoints image_id bb_id input i).
Proof.
  unfold layer_of. destruct (0 <? chan_max input i)%Z.
  - apply fold_maximum_shape.
    + apply List.Forall_forall. intros m Hm.
      apply in_map_iff in Hm as (yj & <- & _).
      split; [apply length_blob_mask|apply bits_blob_mask].
    + apply repeat_length.
    + apply bits_repeat_0.
  - split; [apply repeat_length|apply bits_repeat_0].
Qed.

Lemma layer_result_grid (n : nat) (g : R) (keypoints : list kp_row)
    (image_id bb_id : Z) (input : ref_array) (i : nat) :
  0 < n ->
  layer_result (grid n) n g keypoints image_id bb_id input (repeat 0%Z (n * n)) i
  = if (0 <? ref_h input * ref_w input)%nat
    then Ok (layer_of n g keypoints image_id bb_id input i)
    else Raise ValueError.
Proof.
  intros Hn. unfold layer_result, layer_of. rewrite maxZ_slice.
  destruct (0 <? ref_h input * ref_w input)%nat; simpl; [|done].
  destruct (0 <? chan_max input i)%Z; [|done].
  by apply blobs_loop_grid.
Qed.

Lemma synthesize_eq (keypoints : list kp_row) (file_path : string) (w : world) :
  synthesize keypoints file_path w
  = pylet ids := sample_ids file_path in
    pylet input := loadmat_data w file_path in
    layers keypoints ids input.
Proof.
  unfold synthesize, sample_ids, layers. cbv zeta.
  set (n := 321). assert (Hn : 0 < n) by (unfold n; lia). clearbody n.
  set (g := 50%R).
  destruct (py_int (slice 1 5 (basename file_path))) as [image_id|e];
    simpl; [|done].
  destruct (index (basename file_path) 6) as [c6|e]; simpl; [|done].
  destruct (py_int c6) as [bb_id|e]; simpl; [|done].
  destruct (loadmat_data w file_path) as [input|e]; simpl; [|done].
  pose proof (channels_loop_seq (grid n) n g keypoints image_id bb_id input
                (repeat 0%Z (n * n)) (ref_c input) 0 [] eq_refl) as Hloop.
  simpl in Hloop. rewrite Hloop. clear Hloop.
  destruct (0 <? ref_h input * ref_w input)%nat eqn:Hhw.
  - rewrite orb_true_r.
    rewrite (mapM_ok _ (layer_of n g keypoints image_id bb_id input)).
    2:{ intros i _. rewrite layer_result_grid by done. by rewrite Hhw. }
    simpl. f_equal. rewrite map_map. apply map_ext. intros i.
    apply to_uint8_bits. apply layer_of_shape.
  - rewrite orb_false_r. destruct (ref_c input) as [|c]; simpl; [done|].
    rewrite layer_result_grid by done. by rewrite Hhw.
Qed.

(** *** A keypoint on the grid *)

Lemma exp_nonpos_le_1 (x : R) : (x <= 0)%R -> (exp x <= 1)%R.
Proof.
  intros [Hlt | ->].
  - pose proof (exp_increasing x 0 Hlt) as H. rewrite exp_0 in H. lra.
  - rewrite exp_0. lra.
Qed.

Lemma threshold_iff (K t : R) :
  (0 < K)%R -> (K * exp (- t) > K / Np.e <-> t < 1)%R.
Proof.
  intros HK. unfold Np.e, Rdiv. rewrite <- exp_Ropp. split.
  - intros H. apply Rmult_lt_reg_l in H; [|exact HK].
    apply exp_lt_inv in H. lra.
  - intros H. apply Rmult_gt_compat_l; [exact HK|].
    apply exp_increasing. lra.
Qed.

Lemma peak_np_max (l : list R) (m : R) : Np.max l = Ok m -> peak l = m.
Proof. destruct l; simpl; [done|]. by intros [= <-]. Qed.

Section OnGrid.
Context (n : nat) (g : R) (yj : kp_row) (a0 b0 : nat).
Hypothesis Hg : (g <> 0)%R.
Hypothesis Ha0 : a0 < n.
Hypothesis Hb0 : b0 < n.
Hypothesis Hr : kp_r yj = INR (S b0).
Hypothesis Hc : kp_c yj = INR (S a0).

(** With the keypoint on a grid point, the peak of the surface is its
    value at that point. *)
Lemma peak_on_grid :
  peak (map (density (iso yj g)) (grid n)) = peak_const g.
Proof.
  apply peak_np_max. apply np_max_intro.
  - apply in_map_iff. exists (INR (S b0), INR (S a0)). split.
    + rewrite density_iso by done. cbn [fst snd]. rewrite Hr, Hc.
      replace (- _)%R with 0%R.
      * rewrite exp_0. lra.
      * field. exact Hg.
    + apply list_elem_of_In. eapply list_elem_of_lookup_2.
      by apply (lookup_grid n a0 b0).
  - apply List.Forall_forall. intros v Hv.
    apply in_map_iff in Hv as (rc & <- & _).
    rewrite density_iso by done.
    pose proof (peak_const_pos g Hg) as HK.
    pose proof (sq_pos g Hg) as Hgg.
    set (q := (_ + _)%R).
    assert (Hq : (0 <= q)%R).
    { unfold q. pose proof (Rle_0_sqr (rc.1 - kp_r yj)) as H1.
      pose proof (Rle_0_sqr (rc.2 - kp_c yj)) as H2. unfold Rsqr in *. lra. }
    assert (He : (exp (- (q / (2 * (g * g)))) <= 1)%R).
    { apply exp_nonpos_le_1.
      assert (0 <= q / (2 * (g * g)))%R; [|lra].
      apply Rmult_le_pos; [exact Hq|].
      apply Rlt_le, Rinv_0_lt_compat. lra. }
    nra.
Qed.

(** Position [[a, b]] of the mask is on exactly when the point
    [(b + 1, a + 1)] lies within squared distance [2 g^2] of the
    keypoint. *)
Lemma blob_mask_on_grid (a b : nat) :
  a < n -> b < n ->
  blob_mask n g yj !! (a * n + b)
  = Some (if Rlt_dec ((INR (S b) - kp_r yj) * (INR (S b) - kp_r yj)
                      + (INR (S a) - kp_c yj) * (INR (S a) - kp_c yj))
                     (2 * (g * g))
          then 1%Z else 0%Z).
Proof.
  intros Ha Hb.
  rewrite (lookup_blob_mask n g yj _ _ (lookup_grid n a b Ha Hb)).
  rewrite peak_on_grid. rewrite density_iso by done. cbn [fst snd].
  set (q := (_ + _)%R).
  pose proof (threshold_iff (peak_const g) (q / (2 * (g * g)))
                (peak_const_pos g Hg)) as Hth.
  pose proof (sq_pos g Hg) as Hgg.
  assert (Hdiv : (q / (2 * (g * g)) < 1 <-> q < 2 * (g * g))%R).
  { split; intros H.
    - apply (Rmult_lt_compat_r (2 * (g * g))) in H; [|lra].
      unfold Rdiv in H. rewrite Rmult_assoc, Rinv_l in H; lra.
    - apply (Rmult_lt_reg_r (2 * (g * g))); [lra|].
      unfold Rdiv. rewrite Rmult_assoc, Rinv_l; lra. }
  destruct (Rgt_dec _ _) as [Hgt|Hngt], (Rlt_dec _ _) as [Hlt|Hnlt];
    try reflexivity; exfalso; tauto.
Qed.

End OnGrid.

(** *** The surface and the normal density *)

Lemma sqrt_2PI_gt_1 : (1 < sqrt (2 * PI))%R.
Proof.
  rewrite <- sqrt_1 at 1. apply sqrt_lt_1_alt. pose proof PI2_1. lra.
Qed.

Lemma density_vs_pdf (bt : btemp_t) (rc : R * R) :
  (0 < Np.det (Np.Mat2 (bt2 bt) (bt4 bt) (bt4 bt) (bt3 bt)))%R ->
  density bt rc
  = (sqrt (2 * PI)
     * gaussian_pdf (bt0 bt, bt1 bt)
         (Np.Mat2 (bt2 bt) (bt4 bt) (bt4 bt) (bt3 bt)) rc)%R.
Proof.
  intros Hdet. unfold density, gaussian_pdf. cbn [fst snd].
  set (d := Np.det _) in *. set (E := (_ + _)%R).
  replace (-0.5)%R with (- (1 / 2))%R by lra.
  rewrite <- Rmult_assoc. f_equal.
  pose proof sqrt_2PI_gt_1 as Hs.
  pose proof (sqrt_lt_R0 d Hdet) as Hsd.
  replace (d * 2 * PI)%R with (d * (2 * PI))%R by lra.
  rewrite sqrt_mult_alt by lra.
  assert (Hss : (2 * PI = sqrt (2 * PI) * sqrt (2 * PI))%R).
  { symmetry. apply sqrt_sqrt. pose proof PI_RGT_0. lra. }
  set (s := sqrt (2 * PI)) in *. clearbody s. rewrite Hss.
  field. split; lra.
Qed.

Lemma gaussian_pdf_pos (mean : R * R) (cov : Np.mat2) (x : R * R) :
  (0 < Np.det cov)%R -> (0 < gaussian_pdf mean cov x)%R.
Proof.
  intros Hdet. unfold gaussian_pdf. apply Rmult_lt_0_compat; [|apply exp_pos].
  apply Rdiv_lt_0_compat; [lra|].
  pose proof (sqrt_lt_R0 _ Hdet). pose proof PI_RGT_0.
  apply Rmult_lt_0_compat; lra.
Qed.

Lemma det_iso (g : R) : (g <> 0)%R ->
  (0 < Np.det (Np.Mat2 (g * g) 0 0 (g * g)))%R.
Proof.
  intros Hg. unfold Np.det. simpl. pose proof (sq_pos g Hg).
  assert (0 < g * g * (g * g))%R by (apply Rmult_lt_0_compat; lra). lra.
Qed.

(** C5, where the code departs from it. For every keypoint, [get_llkh]
    returns on the 321 x 321 grid a surface that is, at every grid point,
    [sqrt (2 pi)] times the bivariate normal density with mean
    (row, column) and covariance diag(50^2, 50^2) (pseudo-inverse of the
    covariance): the constant is [1 / sqrt (det * 2 pi)] where the density
    has [1 / (2 pi sqrt det)]. The surface is therefore nowhere equal to
    the density. *)
Theorem llkh_is_sqrt_2pi_times_the_density (yj : kp_row) :
  exists llkh,
    get_llkh (grid 321) (Btemp (kp_r yj) (kp_c yj) (50 * 50) (50 * 50) 0) 321
    = Ok llkh
    /\ forall (k : nat) (rc : R * R), grid 321 !! k = Some rc ->
       let pdf := gaussian_pdf (kp_r yj, kp_c yj)
                    (Np.Mat2 (50 * 50) 0 0 (50 * 50)) rc in
       llkh !! k = Some (sqrt (2 * PI) * pdf)%R /\ llkh !! k <> Some pdf.
Proof.
  rewrite get_llkh_eq, length_grid, Nat.eqb_refl. eexists. split; [done|].
  intros k rc Hk pdf.
  assert (H50 : (50 <> 0)%R) by lra.
  assert (Hl : map (density (Btemp (kp_r yj) (kp_c yj) (50 * 50) (50 * 50) 0))
                 (grid 321) !! k = Some (sqrt (2 * PI) * pdf)%R).
  { rewrite lookup_map, Hk. simpl. f_equal.
    rewrite density_vs_pdf; [done|]. apply (det_iso 50 H50). }
  split; [exact Hl|]. rewrite Hl. intros [= Heq].
  pose proof (gaussian_pdf_pos (kp_r yj, kp_c yj) _ rc (det_iso 50 H50)) as Hp.
  fold pdf in Hp. pose proof sqrt_2PI_gt_1. nra.
Qed.

(** *** The sample *)

Lemma sample_ids_sample : sample_ids sample_path = Ok (1%Z, 1%Z).
Proof. vm_compute. reflexivity. Qed.

Lemma loadmat_sample : loadmat_data sample_world sample_path = Ok sample_ref.
Proof.
  unfold loadmat_data, sample_world. cbn [files]. by rewrite lookup_singleton_eq.
Qed.

Lemma INR_literal (n : nat) : INR n = IZR (Z.of_nat n).
Proof. apply INR_IZR_INZ. Qed.

Lemma maximum_zero_l (m : list Z) :
  bits m -> Np.maximum (repeat 0%Z (length m)) m = m.
Proof.
  unfold bits, Np.maximum. induction 1 as [|z m Hz _ IH]; simpl; [done|].
  rewrite IH. by destruct Hz as [-> | ->].
Qed.

Lemma maximum_zero_blob (n : nat) (g : R) (yj : kp_row) :
  Np.maximum (repeat 0%Z (n * n)) (blob_mask n g yj) = blob_mask n g yj.
Proof.
  rewrite <- (length_blob_mask n g yj). apply maximum_zero_l, bits_blob_mask.
Qed.


(** *** What a call of [gaussians] does *)

Lemma layers_ok (keypoints : list kp_row) (ids : Z * Z) (input : ref_array)
    (vol : volume) :
  layers keypoints ids input = Ok vol ->
  vol = map (layer_of 321 50 keypoints (fst ids) (snd ids) input)
            (seq 0 (ref_c input)).
Proof. unfold layers. destruct (_ || _)%bool; [|done]. by intros [= <-]. Qed.

Lemma synthesize_ok_inv (keypoints : list kp_row) (file_path : string)
    (w : world) (vol : volume) :
  synthesize keypoints file_path w = Ok vol ->
  exists ids input,
    sample_ids file_path = Ok ids /\ loadmat_data w file_path = Ok input
    /\ layers keypoints ids input = Ok vol.
Proof.
  rewrite synthesize_eq.
  destruct (sample_ids file_path) as [ids|e]; simpl; [|done].
  destruct (loadmat_data w file_path) as [input|e]; simpl; [|done].
  intros H. by exists ids, input.
Qed.

Lemma layers_keypoints_irrelevant (kps kps' : list kp_row) (ids : Z * Z)
    (input : ref_array) :
  is_ok (layers kps ids input) = is_ok (layers kps' ids input).
Proof. unfold layers. by destruct (_ || _)%bool. Qed.

Lemma lookup_layers (keypoints : list kp_row) (ids : Z * Z) (input : ref_array)
    (vol : volume) (i : nat) :
  layers keypoints ids input = Ok vol ->
  vol !! i = if (i <? ref_c input)%nat
             then Some (layer_of 321 50 keypoints (fst ids) (snd ids) input i)
             else None.
Proof.
  intros ->%layers_ok. rewrite lookup_map.
  destruct (Nat.ltb_spec i (ref_c input)) as [Hi|Hi].
  - by rewrite lookup_seq_lt.
  - by rewrite lookup_seq_ge.
Qed.

Lemma maxZ_ok_nonempty (input : ref_array) (i : nat) (mx : Z) :
  Np.maxZ (ref_slice input i) = Ok mx ->
  (0 <? ref_h input * ref_w input)%nat = true /\ chan_max input i = mx.
Proof.
  rewrite maxZ_slice. destruct (0 <? _)%nat; [|done]. by intros [= <-].
Qed.

Lemma eq_int_true (x : R) (k : Z) : Np.eq_int x k = true <-> x = IZR k.
Proof. unfold Np.eq_int. destruct (Req_dec_T x (IZR k)); split; done. Qed.

Lemma matches_true (image_id bb_id : Z) (i : nat) (r : kp_row) :
  matches image_id bb_id i r = true
  <-> kp_image r = IZR image_id /\ kp_bb r = IZR bb_id
      /\ kp_chan r = IZR (Z.of_nat i + 1).
Proof.
  unfold matches. rewrite !andb_true_iff, !eq_int_true. tauto.
Qed.

Lemma select_eq (keypoints : list kp_row) (image_id bb_id : Z) (i : nat) :
  select keypoints image_id bb_id i
  = List.filter (matches image_id bb_id i) keypoints.
Proof.
  unfold select, matches. induction keypoints as [|r kps IH]; [done|].
  simpl. destruct (Np.eq_int (kp_image r) image_id); simpl; [|exact IH].
  destruct (Np.eq_int (kp_bb r) bb_id); simpl; [|exact IH].
  destruct (Np.eq_int (kp_chan r) (Z.of_nat i + 1)); simpl; [|exact IH].
  by rewrite IH.
Qed.

Lemma select_In (keypoints : list kp_row) (image_id bb_id : Z) (i : nat)
    (r : kp_row) :
  In r (select keypoints image_id bb_id i) ->
  select [r] image_id bb_id i = [r].
Proof.
  rewrite !select_eq, filter_In. intros [_ H]. simpl. by rewrite H.
Qed.

Lemma select_nil_iff (keypoints : list kp_row) (image_id bb_id : Z) (i : nat) :
  (forall r, In r keypoints ->
     ~ (kp_image r = IZR image_id /\ kp_bb r = IZR bb_id
        /\ kp_chan r = IZR (Z.of_nat i + 1))) ->
  select keypoints image_id bb_id i = [].
Proof.
  intros H. rewrite select_eq. induction keypoints as [|r kps IH]; [done|].
  simpl. destruct (matches image_id bb_id i r) eqn:Hm.
  - apply matches_true in Hm. exfalso. by apply (H r (or_introl eq_refl)).
  - apply IH. intros r' Hr'. apply H. by right.
Qed.

(** C6. For a call whose file name carries the ids, whose reference
    array loads and whose output file can be opened, and for every channel
    [i] of the reference array: if the maximum of the reference channel is
    not positive, or if no keypoint row matches the image id, the
    bounding-box id and the channel index [i + 1], the call returns
    without an exception and layer [i] of the volume it writes is zero
    everywhere. *)
Theorem channel_without_data_or_keypoints_is_zero
    (keypoints : list kp_row) (file_path save_path : string) (w : world)
    (image_id bb_id : Z) (input : ref_array) (i : nat) (mx : Z) :
  sample_ids file_path = Ok (image_id, bb_id) ->
  loadmat_data w file_path = Ok input ->
  can_open_wb w save_path = true ->
  i < ref_c input ->
  Np.maxZ (ref_slice input i) = Ok mx ->
  ((mx <= 0)%Z
   \/ forall r, In r keypoints ->
        ~ (kp_image r = IZR image_id /\ kp_bb r = IZR bb_id
           /\ kp_chan r = IZR (Z.of_nat i + 1))) ->
  exists vol : volume,
    gaussians keypoints file_path save_path w
    = (Ok tt, World (<[save_path := PickleFile vol]> (files w)) (can_open_wb w))
    /\ vol !! i = Some (repeat 0%Z (321 * 321)).
Proof.
  intros Hids Hload Hopen Hi Hmax Hcase.
  apply maxZ_ok_nonempty in Hmax as [Hne Hmx].
  unfold gaussians. rewrite synthesize_eq, Hids, Hload. cbn [bind].
  unfold layers. rewrite Hne, orb_true_r, Hopen.
  eexists. split; [reflexivity|].
  rewrite lookup_map, lookup_seq_lt by done. cbn [fmap option_fmap option_map fst snd Nat.add].
  f_equal. unfold layer_of. rewrite Hmx.
  destruct Hcase as [Hle|Hnone].
  - destruct (Z.ltb_spec 0 mx); [lia|done].
  - rewrite (select_nil_iff _ _ _ _ Hnone). by destruct (0 <? mx)%Z.
Qed.

Lemma channel_without_data_or_keypoints_is_zero_witness :
  exists vol : volume,
    gaussians [sample_keypoint] sample_path "/out/10001_1.pkl" sample_world
    = (Ok tt,
       World (<["/out/10001_1.pkl"%string := PickleFile vol]> (files sample_world))
             (can_open_wb sample_world))
    /\ vol !! 1 = Some (repeat 0%Z (321 * 321)).
Proof.
  apply (channel_without_data_or_keypoints_is_zero
           [sample_keypoint] sample_path "/out/10001_1.pkl" sample_world 1 1
           sample_ref 1 0).
  - vm_compute. reflexivity.
  - unfold loadmat_data, sample_world. cbn [files].
    rewrite lookup_singleton_eq. reflexivity.
  - reflexivity.
  - simpl. lia.
  - vm_compute. reflexivity.
  - left. lia.
Defined.

(** C7. Every call that returns without an exception leaves at
    [save_path] a pickled volume with one layer per channel of the
    reference array loaded from [file_path], every layer of size
    321 x 321, every entry an unsigned byte equal to 0 or 1. *)
Theorem persisted_volume_is_binary_uint8
    (keypoints : list kp_row) (file_path save_path : string) (w : world) :
  fst (gaussians keypoints file_path save_path w) = Ok tt ->
  exists (input : ref_array) (vol : volume),
    loadmat_data w file_path = Ok input
    /\ files (snd (gaussians keypoints file_path save_path w)) !! save_path
       = Some (PickleFile vol)
    /\ length vol = ref_c input
    /\ Forall (fun layer =>
                 length layer = 321 * 321
                 /\ Forall (fun z => (0 <= z < 256)%Z /\ (z = 0 \/ z = 1)%Z) layer)
              vol.
Proof.
  unfold gaussians.
  destruct (synthesize keypoints file_path w) as [vol|e] eqn:Hs; [|done].
  destruct (can_open_wb w save_path); [|done]. intros _. cbn [fst snd files].
  apply synthesize_ok_inv in Hs as (ids & input & _ & Hload & Hl).
  exists input, vol. split; [done|]. split; [by rewrite lookup_insert_eq|].
  apply layers_ok in Hl as ->. split; [by rewrite length_map, length_seq|].
  apply List.Forall_forall. intros layer (i & <- & _)%in_map_iff.
  destruct (layer_of_shape 321 50 keypoints ids.1 ids.2 input i) as [Hlen Hb].
  split; [exact Hlen|]. unfold bits in Hb.
  eapply List.Forall_impl; [|exact Hb]. intros z [-> | ->]; split; (lia || auto).
Qed.

Lemma persisted_volume_is_binary_uint8_witness :
  exists (input : ref_array) (vol : volume),
    loadmat_data sample_world sample_path = Ok input
    /\ files (snd (gaussians [sample_keypoint] sample_path "/out/10001_1.pkl"
                     sample_world)) !! "/out/10001_1.pkl"%string
       = Some (PickleFile vol)
    /\ length vol = ref_c input
    /\ Forall (fun layer =>
                 length layer = 321 * 321
                 /\ Forall (fun z => (0 <= z < 256)%Z /\ (z = 0 \/ z = 1)%Z) layer)
              vol.
Proof.
  apply (persisted_volume_is_binary_uint8
           [sample_keypoint] sample_path "/out/10001_1.pkl" sample_world).
  unfold gaussians. rewrite synthesize_eq, sample_ids_sample, loadmat_sample.
  reflexivity.
Defined.






(** C9. Two calls with the same keypoints table, on file names that
    carry the same ids and on the same reference array, synthesize the same
    volume, whatever else the two worlds hold and wherever the result is
    saved; when both return, the two files written are identical. *)
Theorem synthesis_is_a_function_of_keypoints_and_reference
    (keypoints : list kp_row) (path1 path2 save1 save2 : string)
    (w1 w2 : world) :
  sample_ids path1 = sample_ids path2 ->
  loadmat_data w1 path1 = loadmat_data w2 path2 ->
  synthesize keypoints path1 w1 = synthesize keypoints path2 w2
  /\ forall vol : volume,
       fst (gaussians keypoints path1 save1 w1) = Ok tt ->
       fst (gaussians keypoints path2 save2 w2) = Ok tt ->
       files (snd (gaussians keypoints path1 save1 w1)) !! save1
         = Some (PickleFile vol) ->
       files (snd (gaussians keypoints path2 save2 w2)) !! save2
         = Some (PickleFile vol).
Proof.
  intros Hids Hload.
  assert (Heq : synthesize keypoints path1 w1 = synthesize keypoints path2 w2).
  { by rewrite !synthesize_eq, Hids, Hload. }
  split; [exact Heq|]. unfold gaussians. rewrite <- Heq.
  destruct (synthesize keypoints path1 w1) as [v|e]; [|done].
  destruct (can_open_wb w1 save1); [|done].
  destruct (can_open_wb w2 save2); [|done].
  cbn [fst snd files]. intros vol _ _. by rewrite !lookup_insert_eq.
Qed.

Lemma synthesis_is_a_function_of_keypoints_and_reference_witness :
  synthesize [sample_keypoint] sample_path sample_world
  = synthesize [sample_keypoint] other_path other_world
  /\ forall vol : volume,
       fst (gaussians [sample_keypoint] sample_path "/out/a.pkl" sample_world)
         = Ok tt ->
       fst (gaussians [sample_keypoint] other_path "/out/b.pkl" other_world)
         = Ok tt ->
       files (snd (gaussians [sample_keypoint] sample_path "/out/a.pkl"
                     sample_world)) !! "/out/a.pkl"%string
         = Some (PickleFile vol) ->
       files (snd (gaussians [sample_keypoint] other_path "/out/b.pkl"
                     other_world)) !! "/out/b.pkl"%string
         = Some (PickleFile vol).
Proof.
  apply (synthesis_is_a_function_of_keypoints_and_reference
           [sample_keypoint] sample_path other_path "/out/a.pkl" "/out/b.pkl"
           sample_world other_world).
  - vm_compute. reflexivity.
  - unfold loadmat_data, sample_world, other_world. cbn [files].
    rewrite !lookup_singleton_eq. reflexivity.
Defined.

Lemma filter_filter_weaker {A : Type} (p q : A -> bool) (l : list A) :
  (forall x, p x = true -> q x = true) ->
  List.filter p (List.filter q l) = List.filter p l.
Proof.
  intros H. induction l as [|x l IH]; [done|]. simpl.
  destruct (q x) eqn:Hq, (p x) eqn:Hp; simpl; rewrite ?Hp, ?IH; try done.
  rewrite (H x Hp) in Hq. done.
Qed.

Lemma select_chan_in_range (keypoints : list kp_row) (image_id bb_id : Z)
    (c i : nat) :
  i < c ->
  select (List.filter (chan_in_range c) keypoints) image_id bb_id i
  = select keypoints image_id bb_id i.
Proof.
  intros Hi. rewrite !select_eq. apply filter_filter_weaker.
  intros r (_ & _ & Hchan)%matches_true. unfold chan_in_range.
  apply existsb_exists. exists i. split; [apply in_seq; lia|].
  by apply eq_int_true.
Qed.

(** C10. Rows whose channel index is not in [1 .. C], for [C] the number
    of channels of the reference array, are ignored: removing them from the
    keypoints table changes neither what the call returns or raises nor the
    world it leaves. *)
Theorem rows_of_other_channels_are_ignored
    (keypoints : list kp_row) (file_path save_path : string) (w : world)
    (input : ref_array) :
  loadmat_data w file_path = Ok input ->
  gaussians (List.filter (chan_in_range (ref_c input)) keypoints)
    file_path save_path w
  = gaussians keypoints file_path save_path w.
Proof.
  intros Hload. unfold gaussians. rewrite !synthesize_eq, Hload.
  destruct (sample_ids file_path) as [ids|e]; [|done]. cbn [bind].
  unfold layers. destruct (_ || _)%bool; [|done].
  replace (map (layer_of 321 50 (List.filter _ keypoints) ids.1 ids.2 input) _)
    with (map (layer_of 321 50 keypoints ids.1 ids.2 input)
              (seq 0 (ref_c input))); [done|].
  apply map_ext_in. intros i Hi%in_seq. unfold layer_of.
  rewrite select_chan_in_range by lia. done.
Qed.

Lemma rows_of_other_channels_are_ignored_witness :
  gaussians (List.filter (chan_in_range (ref_c sample_ref))
               [sample_keypoint; stray_keypoint])
    sample_path "/out/10001_1.pkl" sample_world
  = gaussians [sample_keypoint; stray_keypoint]
      sample_path "/out/10001_1.pkl" sample_world.
Proof.
  apply (rows_of_other_channels_are_ignored
           [sample_keypoint; stray_keypoint] sample_path "/out/10001_1.pkl"
           sample_world sample_ref).
  unfold loadmat_data, sample_world. cbn [files].
  rewrite lookup_singleton_eq. reflexivity.
Defined.

(** *** Union of the blobs *)







(** What the code does for a single keypoint on the grid: position
    [[a, b]] of the layer is on exactly when
    [(b + 1 - row)^2 + (a + 1 - column)^2 < 5000]. *)
Lemma single_keypoint_layer
    (keypoints : list kp_row) (file_path : string) (w : world)
    (image_id bb_id : Z) (input : ref_array) (vol : volume) (i : nat)
    (layer : list Z) (yj : kp_row) (mx r c : Z) :
  sample_ids file_path = Ok (image_id, bb_id) ->
  loadmat_data w file_path = Ok input ->
  synthesize keypoints file_path w = Ok vol ->
  vol !! i = Some layer ->
  Np.maxZ (ref_slice input i) = Ok mx -> (0 < mx)%Z ->
  select keypoints image_id bb_id i = [yj] ->
  kp_r yj = IZR r -> kp_c yj = IZR c ->
  (1 <= r <= 321)%Z -> (1 <= c <= 321)%Z ->
  forall a b : nat, a < 321 -> b < 321 ->
    layer !! (a * 321 + b)
    = Some (if ((Z.of_nat b + 1 - r) * (Z.of_nat b + 1 - r)
                + (Z.of_nat a + 1 - c) * (Z.of_nat a + 1 - c) <? 5000)%Z
            then 1%Z else 0%Z).
Proof.
  intros Hids Hload Hs Hi Hmax Hpos Hsel Hr Hc Hrr Hcr a b Ha Hb.
  rewrite synthesize_eq, Hids, Hload in Hs. cbn [bind] in Hs.
  rewrite (lookup_layers _ _ _ _ i Hs) in Hi. cbn [fst snd] in Hi.
  destruct (Nat.ltb_spec i (ref_c input)) as [Hlt|]; [|done].
  injection Hi as <-.
  apply maxZ_ok_nonempty in Hmax as [_ Hmx].
  unfold layer_of. rewrite Hmx, Hsel.
  destruct (Z.ltb_spec 0 mx) as [_|]; [|lia].
  cbn [map fold_left]. rewrite maximum_zero_blob.
  assert (H50 : (50 <> 0)%R) by lra.
  assert (Hr' : kp_r yj = INR (S (Z.to_nat (r - 1)))).
  { rewrite Hr, INR_literal. f_equal. lia. }
  assert (Hc' : kp_c yj = INR (S (Z.to_nat (c - 1)))).
  { rewrite Hc, INR_literal. f_equal. lia. }
  rewrite (blob_mask_on_grid 321 50 yj (Z.to_nat (c - 1)) (Z.to_nat (r - 1)) H50)
    by (done || lia).
  f_equal. rewrite Hr, Hc, !INR_literal.
  replace (Z.of_nat (S b)) with (Z.of_nat b + 1)%Z by lia.
  replace (Z.of_nat (S a)) with (Z.of_nat a + 1)%Z by lia.
  rewrite <- !minus_IZR, <- !mult_IZR, <- plus_IZR.
  set (q := (_ + _)%Z).
  destruct (Rlt_dec _ _) as [Hlt'|Hge], (Z.ltb_spec q 5000) as [Hz|Hz];
    try reflexivity; exfalso.
  - apply lt_IZR in Hlt'. lia.
  - apply Hge. apply IZR_lt. lia.
Qed.

(** The bound [5000] on the squared distance is the radius
    [50 * sqrt 2]. *)
Lemma disc_radius (q : R) :
  (0 <= q)%R -> (q < 5000 <-> sqrt q < 50 * sqrt 2)%R.
Proof.
  intros Hq.
  assert (H : (50 * sqrt 2 = sqrt 5000)%R).
  { replace 5000%R with (50 * 50 * 2)%R by lra.
    rewrite sqrt_mult by lra. by rewrite sqrt_square by lra. }
  rewrite H. split.
  - intros Hlt. apply sqrt_lt_1_alt. lra.
  - intros Hlt. apply sqrt_lt_0_alt in Hlt. exact Hlt.
Qed.

Lemma matches_sample_keypoint : matches 1 1 0 sample_keypoint = true.
Proof.
  apply matches_true. unfold sample_keypoint. cbn [kp_image kp_bb kp_chan].
  repeat split; reflexivity.
Qed.

(** The sample has one keypoint, at row 100 and column 250, matching
    channel 0, whose reference data is positive. In the layer of that
    channel the position [[99, 249]] is off and the position [[249, 99]] is
    on. *)
Lemma sample_layer_positions :
  exists (vol : volume) (layer : list Z),
    synthesize [sample_keypoint] sample_path sample_world = Ok vol
    /\ vol !! 0 = Some layer
    /\ layer !! (99 * 321 + 249) = Some 0%Z
    /\ layer !! (249 * 321 + 99) = Some 1%Z.
Proof.
  rewrite synthesize_eq, sample_ids_sample, loadmat_sample.
  eexists _, _. split; [reflexivity|]. split; [reflexivity|].
  unfold layer_of. cbn [fst snd].
  replace (chan_max sample_ref 0) with 1%Z by (vm_compute; reflexivity).
  rewrite (select_In [sample_keypoint] 1 1 0 sample_keypoint)
    by (rewrite select_eq; apply filter_In; split;
        [by left|exact matches_sample_keypoint]).
  cbn [Z.ltb Z.compare map fold_left]. rewrite maximum_zero_blob.
  assert (H50 : (50 <> 0)%R) by lra.
  assert (Hr : kp_r sample_keypoint = INR (S 99))
    by (rewrite INR_literal; reflexivity).
  assert (Hc : kp_c sample_keypoint = INR (S 249))
    by (rewrite INR_literal; reflexivity).
  split.
  - rewrite (blob_mask_on_grid 321 50 sample_keypoint 249 99 H50) by (done || lia).
    f_equal. destruct (Rlt_dec _ _) as [Hlt|_]; [exfalso|done].
    rewrite !INR_literal in Hlt. revert Hlt.
    change (Z.of_nat (S 249)) with 250%Z. change (Z.of_nat (S 99)) with 100%Z.
    unfold sample_keypoint. cbn [kp_r kp_c]. lra.
  - rewrite (blob_mask_on_grid 321 50 sample_keypoint 249 99 H50) by (done || lia).
    f_equal. destruct (Rlt_dec _ _) as [_|Hn]; [done|exfalso]. apply Hn.
    rewrite !INR_literal.
    change (Z.of_nat (S 249)) with 250%Z. change (Z.of_nat (S 99)) with 100%Z.
    unfold sample_keypoint. cbn [kp_r kp_c]. lra.
Qed.

Lemma sqrt_sq_dist_0 (x y : R) :
  (sqrt ((x - x) * (x - x) + (y - y) * (y - y)) < 50 * sqrt 2)%R.
Proof.
  replace ((x - x) * (x - x) + (y - y) * (y - y))%R with 0%R by lra.
  rewrite sqrt_0. pose proof (sqrt_lt_R0 2). lra.
Qed.

(** C1, what the code does. For every call in which the maximum of the
    reference channel is positive and exactly one keypoint row matches
    that channel, with the keypoint at row [r] and column [c] on the
    321 x 321 grid: the on pixels of the layer are the grid pixels at
    Euclidean distance less than [50 * sqrt 2] from the pixel of row [c]
    and column [r], the keypoint with its coordinates swapped, and every
    other pixel is 0. When row and column differ by 50 or more, the
    pixel of the keypoint itself, [[r - 1, c - 1]], is off and the pixel
    [[c - 1, r - 1]] is on: the layer is not the disc around the
    keypoint. *)
Theorem single_keypoint_disc_is_transposed
    (keypoints : list kp_row) (file_path : string) (w : world)
    (image_id bb_id : Z) (input : ref_array) (vol : volume) (i : nat)
    (layer : list Z) (yj : kp_row) (mx r c : Z) :
  sample_ids file_path = Ok (image_id, bb_id) ->
  loadmat_data w file_path = Ok input ->
  synthesize keypoints file_path w = Ok vol ->
  vol !! i = Some layer ->
  Np.maxZ (ref_slice input i) = Ok mx -> (0 < mx)%Z ->
  select keypoints image_id bb_id i = [yj] ->
  kp_r yj = IZR r -> kp_c yj = IZR c ->
  (1 <= r <= 321)%Z -> (1 <= c <= 321)%Z ->
  disc_at layer (IZR c) (IZR r)
  /\ (forall a b : nat, a < 321 -> b < 321 ->
        layer !! (a * 321 + b) = Some 0%Z
        \/ layer !! (a * 321 + b) = Some 1%Z)
  /\ ((50 <= Z.abs (r - c))%Z ->
      layer !! (Z.to_nat (r - 1) * 321 + Z.to_nat (c - 1)) = Some 0%Z
      /\ layer !! (Z.to_nat (c - 1) * 321 + Z.to_nat (r - 1)) = Some 1%Z
      /\ ~ disc_at layer (IZR r) (IZR c)).
Proof.
  intros Hids Hload Hs Hi Hmax Hpos Hsel Hr Hc Hrr Hcr.
  pose proof (single_keypoint_layer keypoints file_path w image_id bb_id input
                vol i layer yj mx r c Hids Hload Hs Hi Hmax Hpos Hsel Hr Hc
                Hrr Hcr) as Hpix.
  split; [|split].
  - intros a b Ha Hb. rewrite (Hpix a b Ha Hb).
    rewrite <- disc_radius.
    2:{ pose proof (Rle_0_sqr (INR (S a) - IZR c)).
        pose proof (Rle_0_sqr (INR (S b) - IZR r)). unfold Rsqr in *. lra. }
    rewrite !INR_literal.
    replace (Z.of_nat (S b)) with (Z.of_nat b + 1)%Z by lia.
    replace (Z.of_nat (S a)) with (Z.of_nat a + 1)%Z by lia.
    rewrite <- !minus_IZR, <- !mult_IZR, <- plus_IZR.
    destruct (Z.ltb_spec ((Z.of_nat b + 1 - r) * (Z.of_nat b + 1 - r)
                          + (Z.of_nat a + 1 - c) * (Z.of_nat a + 1 - c)) 5000)
      as [Hz|Hz]; split; intros H; try done.
    + apply IZR_lt. lia.
    + apply lt_IZR in H. lia.
  - intros a b Ha Hb. rewrite (Hpix a b Ha Hb). destruct (_ <? _)%Z; auto.
  - intros Hfar.
    assert (Ha0 : Z.to_nat (r - 1) < 321) by lia.
    assert (Hb0 : Z.to_nat (c - 1) < 321) by lia.
    assert (Hra : (Z.of_nat (Z.to_nat (r - 1)) + 1 = r)%Z) by lia.
    assert (Hcb : (Z.of_nat (Z.to_nat (c - 1)) + 1 = c)%Z) by lia.
    assert (H0 : layer !! (Z.to_nat (r - 1) * 321 + Z.to_nat (c - 1))
                 = Some 0%Z).
    { rewrite (Hpix _ _ Ha0 Hb0), Hra, Hcb.
      destruct (Z.ltb_spec ((c - r) * (c - r) + (r - c) * (r - c)) 5000)
        as [Hz|_]; [|done].
      exfalso. nia. }
    split; [exact H0|]. split.
    + rewrite (Hpix _ _ Hb0 Ha0), Hra, Hcb.
      by replace ((r - r) * (r - r) + (c - c) * (c - c))%Z with 0%Z by lia.
    + intros Hdisc. specialize (Hdisc _ _ Ha0 Hb0).
      assert (H1 : layer !! (Z.to_nat (r - 1) * 321 + Z.to_nat (c - 1))
                   = Some 1%Z).
      { apply Hdisc. rewrite !INR_literal.
        replace (Z.of_nat (S (Z.to_nat (r - 1)))) with r by lia.
        replace (Z.of_nat (S (Z.to_nat (c - 1)))) with c by lia.
        apply sqrt_sq_dist_0. }
      rewrite H0 in H1. discriminate H1.
Qed.

Lemma single_keypoint_disc_is_transposed_witness :
  disc_at (layer_of 321 50 [sample_keypoint] 1 1 sample_ref 0)
          (IZR 250) (IZR 100)
  /\ (forall a b : nat, a < 321 -> b < 321 ->
        layer_of 321 50 [sample_keypoint] 1 1 sample_ref 0 !! (a * 321 + b)
        = Some 0%Z
        \/ layer_of 321 50 [sample_keypoint] 1 1 sample_ref 0 !! (a * 321 + b)
           = Some 1%Z)
  /\ ((50 <= Z.abs (100 - 250))%Z ->
      layer_of 321 50 [sample_keypoint] 1 1 sample_ref 0
        !! (Z.to_nat (100 - 1) * 321 + Z.to_nat (250 - 1)) = Some 0%Z
      /\ layer_of 321 50 [sample_keypoint] 1 1 sample_ref 0
           !! (Z.to_nat (250 - 1) * 321 + Z.to_nat (100 - 1)) = Some 1%Z
      /\ ~ disc_at (layer_of 321 50 [sample_keypoint] 1 1 sample_ref 0)
                   (IZR 100) (IZR 250)).
Proof.
  apply (single_keypoint_disc_is_transposed
           [sample_keypoint] sample_path sample_world 1 1 sample_ref
           (map (layer_of 321 50 [sample_keypoint] 1 1 sample_ref) (seq 0 2))
           0 _ sample_keypoint 1 100 250).
  - vm_compute. reflexivity.
  - unfold loadmat_data, sample_world. cbn [files].
    rewrite lookup_singleton_eq. reflexivity.
  - rewrite synthesize_eq, sample_ids_sample, loadmat_sample. reflexivity.
  - reflexivity.
  - vm_compute. reflexivity.
  - lia.
  - rewrite select_eq. cbn [List.filter]. rewrite matches_sample_keypoint.
    reflexivity.
  - reflexivity.
  - reflexivity.
  - lia.
  - lia.
Defined.

End GaussiansFacts.

(** ** [utils.MinNormSolver] *)

Module MinNormFacts.
Import Py.
Import MinNorm.

Lemma clip01_range (x : R) : (0 <= clip01 x <= 1)%R.
Proof.
  unfold clip01. destruct (Rle_dec x 0); [lra|]. destruct (Rle_dec 1 x); lra.
Qed.

Lemma line_min_range (a b c : R) : (0 <= line_min a b c <= 1)%R.
Proof.
  unfold line_min. destruct (Req_dec_T _ 0); [lra|apply clip01_range].
Qed.

Lemma sumR_app (l1 l2 : list R) : sumR (l1 ++ l2) = (sumR l1 + sumR l2)%R.
Proof. induction l1 as [|x l1 IH]; simpl; [lra|]. rewrite IH. lra. Qed.

Lemma sum_delta (c : R) (t len s : nat) :
  sumR (map (fun k => (c * delta k t)%R) (seq s len))
  = if ((s <=? t) && (t <? s + len))%nat then c else 0%R.
Proof.
  revert s. induction len as [|len IH]; intros s; simpl.
  - destruct (Nat.leb_spec s t), (Nat.ltb_spec t (s + 0)); simpl; try lra; lia.
  - rewrite IH. unfold delta.
    destruct (Nat.eqb_spec s t) as [->|Hne].
    + rewrite Nat.leb_refl.
      destruct (Nat.leb_spec (S t) t); [lia|].
      destruct (Nat.ltb_spec t (t + S len)); [|lia]. simpl. lra.
    + destruct (Nat.leb_spec s t), (Nat.leb_spec (S s) t),
        (Nat.ltb_spec t (s + S len)), (Nat.ltb_spec t (S s + len));
        simpl; try lra; lia.
Qed.

Lemma sum_fw_update (gamma : R) (t : nat) (w : list R) (s : nat) :
  sumR (zip_with (fun wk k => ((1 - gamma) * wk + gamma * delta k t)%R)
                 w (seq s (length w)))
  = ((1 - gamma) * sumR w
     + (if ((s <=? t) && (t <? s + length w))%nat then gamma else 0))%R.
Proof.
  revert s. induction w as [|x w IH]; intros s; simpl.
  - destruct (Nat.leb_spec s t), (Nat.ltb_spec t (s + 0)); simpl; try lra; lia.
  - rewrite IH. unfold delta.
    destruct (Nat.eqb_spec s t) as [->|Hne].
    + rewrite Nat.leb_refl.
      destruct (Nat.leb_spec (S t) t); [lia|].
      destruct (Nat.ltb_spec t (t + S (length w))); [|lia]. simpl. lra.
    + destruct (Nat.leb_spec s t), (Nat.leb_spec (S s) t),
        (Nat.ltb_spec t (s + S (length w))),
        (Nat.ltb_spec t (S s + length w)); simpl; try lra; lia.
Qed.

Lemma fw_update_simplex (k : nat) (w : list R) (gamma : R) (t : nat) :
  simplex k w -> (0 <= gamma <= 1)%R -> t < k ->
  simplex k (fw_update w gamma t).
Proof.
  intros (Hlen & Hpos & Hsum) Hg Ht. unfold fw_update. repeat split.
  - rewrite length_zip_with, length_seq. lia.
  - apply Forall_lookup. intros i x Hx.
    apply lookup_zip_with_Some in Hx as (wk & j & -> & Hwk & _).
    rewrite Forall_lookup in Hpos. specialize (Hpos i wk Hwk). simpl in Hpos.
    unfold delta. destruct (j =? t)%nat; nra.
  - rewrite sum_fw_update, Hsum, Hlen. simpl.
    destruct (Nat.ltb_spec t k); [lra|lia].
Qed.

Lemma argmin_lt (f : nat -> R) (k : nat) : 0 < k -> argmin f k < k.
Proof.
  intros Hk. unfold argmin.
  assert (H : forall l best, best < k -> Forall (fun t => t < k) l ->
            fold_left (fun best t => if Rlt_dec (f t) (f best) then t else best)
                      l best < k).
  { induction l as [|t l IH]; intros best Hb Hl; simpl; [done|].
    inversion Hl; subst. apply IH; [|done]. by destruct (Rlt_dec _ _). }
  apply H; [done|]. apply List.Forall_forall. intros t Ht%in_seq. lia.
Qed.

Lemma iterate_simplex (gs : list (list tensor)) (fuel : nat) (w : list R) :
  0 < length gs -> simplex (length gs) w ->
  simplex (length gs) (iterate gs fuel w).
Proof.
  intros Hk. revert w. induction fuel as [|fuel IH]; intros w Hw; simpl; [done|].
  destruct (Rlt_dec _ STOP_CRIT); [done|].
  apply IH. apply fw_update_simplex; [done|apply line_min_range|].
  by apply argmin_lt.
Qed.

Lemma pairs_lt (k i j : nat) : In (i, j) (pairs k) -> i < k /\ j < k.
Proof.
  unfold pairs. rewrite in_flat_map. intros (i' & Hi'%in_seq & Hin).
  apply in_map_iff in Hin as (j' & [= <- <-] & Hj'%in_seq). lia.
Qed.

Lemma best_pair_lt (gs : list (list tensor)) :
  2 <= length gs ->
  fst (best_pair gs) < length gs /\ snd (best_pair gs) < length gs.
Proof.
  intros Hk. unfold best_pair.
  assert (H : forall l best,
            (fst best < length gs /\ snd best < length gs) ->
            Forall (fun ij => fst ij < length gs /\ snd ij < length gs) l ->
            let r := fold_left
              (fun best ij => if Rlt_dec (pair_cost gs ij) (pair_cost gs best)
                              then ij else best) l best in
            fst r < length gs /\ snd r < length gs).
  { induction l as [|ij l IH]; intros best Hb Hl; simpl; [done|].
    inversion Hl; subst. apply IH; [|done]. by destruct (Rlt_dec _ _). }
  apply H; [simpl; lia|]. apply List.Forall_forall. intros [i j] Hin.
  by apply pairs_lt.
Qed.

Lemma init_weights_simplex (gs : list (list tensor)) :
  2 <= length gs -> simplex (length gs) (init_weights gs).
Proof.
  intros Hk. destruct (best_pair_lt gs Hk) as [Hi Hj]. unfold init_weights.
  pose proof (line_min_range
                (gram gs (best_pair gs).1 (best_pair gs).1)
                (gram gs (best_pair gs).1 (best_pair gs).2)
                (gram gs (best_pair gs).2 (best_pair gs).2)) as Hg.
  fold (pair_split gs (best_pair gs)) in Hg.
  set (gamma := pair_split gs (best_pair gs)) in *.
  repeat split.
  - by rewrite length_map, length_seq.
  - apply List.Forall_forall. intros x (k & <- & _)%in_map_iff.
    unfold delta. destruct (k =? _)%nat, (k =? _)%nat; nra.
  - assert (Hsplit : forall l,
              sumR (map (fun k => (gamma * delta k (best_pair gs).1
                                   + (1 - gamma) * delta k (best_pair gs).2)%R) l)
              = (sumR (map (fun k => (gamma * delta k (best_pair gs).1)%R) l)
                 + sumR (map (fun k => ((1 - gamma) * delta k (best_pair gs).2)%R) l))%R).
    { induction l as [|k l IH]; simpl; [lra|]. rewrite IH. lra. }
    rewrite Hsplit, !sum_delta. simpl.
    destruct (Nat.ltb_spec (best_pair gs).1 (length gs)); [|lia].
    destruct (Nat.ltb_spec (best_pair gs).2 (length gs)); [|lia]. lra.
Qed.

Lemma validate_gradient_list (gs : list (list tensor)) :
  gradient_list gs -> validate gs = true.
Proof.
  intros H. destruct gs as [|g0 rest]; [done|]. simpl.
  apply forallb_forall. intros g Hg. apply bool_decide_eq_true.
  apply H; [by right|by left].
Qed.

(** C3. For every non-empty gradient list (a list of per-task lists of
    tensors whose shapes agree position by position, as the data model
    requires), the solver returns a pair whose first component has one
    weight per task, every weight non-negative, the weights summing to 1. *)
Theorem weights_lie_on_the_simplex (gs : list (list tensor)) :
  gs <> [] -> gradient_list gs ->
  exists (weights gram_vals : list R),
    find_min_norm_element gs = Ok (weights, gram_vals)
    /\ length weights = length gs
    /\ Forall (fun x => (0 <= x)%R) weights
    /\ sumR weights = 1%R.
Proof.
  intros Hne Hwf. destruct gs as [|g0 [|g1 rest]]; [done| |].
  - exists [1%R], (gram_values [g0]). simpl. repeat split; try done.
    + constructor; [lra|constructor].
    + lra.
  - unfold find_min_norm_element. rewrite (validate_gradient_list _ Hwf).
    eexists _, _. split; [reflexivity|].
    apply (iterate_simplex (g0 :: g1 :: rest)); [simpl; lia|].
    apply init_weights_simplex. simpl. lia.
Qed.

Lemma weights_lie_on_the_simplex_witness :
  exists (weights gram_vals : list R),
    find_min_norm_element two_tasks = Ok (weights, gram_vals)
    /\ length weights = length two_tasks
    /\ Forall (fun x => (0 <= x)%R) weights
    /\ sumR weights = 1%R.
Proof.
  apply (weights_lie_on_the_simplex two_tasks).
  - discriminate.
  - intros g h Hg Hh. simpl in Hg, Hh.
    destruct Hg as [<-|[<-|[]]], Hh as [<-|[<-|[]]]; reflexivity.
Defined.

(** Shapes that differ between two tasks are reported, not combined. *)
Lemma mismatched_shapes_raise :
  find_min_norm_element mismatched_tasks = Raise ValueError.
Proof. reflexivity. Qed.

End MinNormFacts.

(** ** [main.py] *)

Module TrainFacts.
Import Py.
Import PyFacts.
Import Train.

Section Step.
Context {Tensor State Grad Diag : Type}.
Variable forward : State -> Tensor -> nat -> list Tensor * State.
Variable criterion : Tensor -> Tensor -> R.
Variable collect_grads :
  State -> list (Tensor * list Tensor) -> result (list (list Grad) * State).
Variable find_min_norm_element : list (list Grad) -> result (list R * Diag).

Local Abbreviation head_loop := (Train.head_loop criterion).
Local Abbreviation task_loop := (Train.task_loop forward criterion).
Local Abbreviation outputs := (Train.outputs forward).
Local Abbreviation task_loss_of := (Train.task_loss_of criterion).
Local Abbreviation train_iteration :=
  (Train.train_iteration forward criterion collect_grads find_min_norm_element).

Lemma head_loop_app (out2 : list Tensor) :
  forall (out1 tgt1 tgt2 : list Tensor) (acc : list R),
    length out1 = length tgt1 -> length out2 <= length tgt2 ->
    head_loop (out1 ++ out2) (tgt1 ++ tgt2)
      (seq (length out1) (length out2)) acc
    = Ok (acc ++ zip_with criterion out2 tgt2).
Proof.
  induction out2 as [|o out2 IH]; intros out1 tgt1 tgt2 acc Hl Hle; simpl.
  - by rewrite app_nil_r.
  - destruct tgt2 as [|t tgt2]; simpl in Hle; [lia|].
    unfold getitem at 1. rewrite lookup_app_r by lia.
    replace (length out1 - length out1) with 0 by lia. simpl.
    unfold getitem at 1. rewrite lookup_app_r by lia.
    replace (length out1 - length tgt1) with 0 by lia. simpl.
    replace (S (length out1)) with (length (out1 ++ [o]))
      by (rewrite length_app; simpl; lia).
    rewrite (cons_middle o out1 out2), (cons_middle t tgt1 tgt2), !app_assoc.
    rewrite IH.
    + by rewrite <- app_assoc.
    + rewrite !length_app. simpl. lia.
    + lia.
Qed.

Lemma head_loop_all (output target : list Tensor) :
  length output <= length target ->
  head_loop output target (seq 0 (length output)) []
  = Ok (zip_with criterion output target).
Proof. intros H. by apply (head_loop_app output [] [] target []). Qed.

Lemma task_loop_eq (task_data_pair : list (Tensor * list Tensor)) :
  forall (st : State) (task_i : nat) (acc : list R),
    Forall2 (fun out p => length out <= length (snd p))
            (outputs st task_i task_data_pair) task_data_pair ->
    exists st',
      task_loop st task_i task_data_pair acc
      = Ok (acc ++ zip_with task_loss_of (outputs st task_i task_data_pair)
                            (map snd task_data_pair), st').
Proof.
  induction task_data_pair as [|[input target] rest IH];
    intros st task_i acc Hlen; simpl.
  - exists st. by rewrite app_nil_r.
  - simpl in Hlen. inversion Hlen as [|? ? ? ? Hle Hrest]; subst.
    destruct (forward st input task_i) as [output st1] eqn:Hf.
    simpl in *. rewrite head_loop_all by done. simpl.
    destruct (IH st1 (S task_i) (acc ++ [py_sum (zip_with criterion output target)])
                Hrest) as [st' ->].
    exists st'. rewrite <- app_assoc. simpl. by rewrite py_sum_sumR.
Qed.

(** C4. Once the solver has returned the weights [sol], the iteration
    zeroes the gradients, backpropagates exactly
    [sum_i sol[i] * task_loss[i]], where [task_loss[i]] is the sum over the
    heads of task [i] of the criterion on the output and the target of that
    head, and steps the optimizer. *)
Theorem backpropagated_loss_is_the_weighted_sum
    (st st1 : State) (task_data_pair : list (Tensor * list Tensor))
    (n_tasks : nat) (grads : list (list Grad)) (sol : list R) (diag : Diag) :
  collect_grads st task_data_pair = Ok (grads, st1) ->
  find_min_norm_element grads = Ok (sol, diag) ->
  n_tasks = length task_data_pair ->
  n_tasks <= length sol ->
  Forall2 (fun out p => length out <= length (snd p))
          (outputs st1 0 task_data_pair) task_data_pair ->
  let task_loss :=
    zip_with task_loss_of (outputs st1 0 task_data_pair)
             (map snd task_data_pair) in
  let combined_loss :=
    sumR (map (fun i => (nth i sol 0 * nth i task_loss 0)%R)
                      (seq 0 n_tasks)) in
  exists st2,
    train_iteration st task_data_pair n_tasks
    = Ok ([ZeroGrad; Backward combined_loss; OptimizerStep], st2).
Proof.
  intros Hc Hs Hn Hsol Hlen task_loss combined_loss.
  unfold train_iteration. rewrite Hc. cbn [bind fst snd]. rewrite Hs.
  cbn [bind fst snd]. unfold combine_and_step.
  destruct (task_loop_eq task_data_pair st1 0 [] Hlen) as [st2 ->].
  cbn [bind fst snd app]. fold task_loss.
  assert (Htl : length task_loss = n_tasks).
  { unfold task_loss. rewrite length_zip_with, length_map.
    apply Forall2_length in Hlen. lia. }
  rewrite (PyFacts.mapM_ok _ (fun i => (nth i sol 0 * nth i task_loss 0)%R)).
  - cbn [bind]. exists st2. by rewrite py_sum_sumR.
  - intros i Hi%in_seq. unfold getitem.
    destruct (nth_lookup_or_length sol i 0%R) as [->|?]; [|lia].
    destruct (nth_lookup_or_length task_loss i 0%R) as [->|?]; [|lia].
    reflexivity.
Qed.


End Step.

Lemma backpropagated_loss_is_the_weighted_sum_witness :
  let task_loss :=
    zip_with (task_loss_of toy_criterion) (outputs toy_forward tt 0 toy_data)
             (map snd toy_data) in
  let combined_loss :=
    sumR (map (fun i => (nth i [(1 / 2)%R; (1 / 2)%R] 0 * nth i task_loss 0)%R)
                      (seq 0 2)) in
  exists st2,
    train_iteration toy_forward toy_criterion toy_collect toy_solver tt toy_data 2
    = Ok ([ZeroGrad; Backward combined_loss; OptimizerStep], st2).
Proof.
  apply (backpropagated_loss_is_the_weighted_sum toy_forward toy_criterion
           toy_collect toy_solver tt tt toy_data 2 [[tt]; [tt]]
           [(1 / 2)%R; (1 / 2)%R] tt).
  - reflexivity.
  - reflexivity.
  - reflexivity.
  - simpl. lia.
  - repeat constructor; simpl; lia.
Defined.

End TrainFacts.

(** ** [gaussians.py]: further properties *)

Module GaussiansMore.
Import PyFacts.
Import Py.
Import Gaussians.
Import GaussiansFacts.
Import GaussiansRows.

(** *** The layers depend on the set of rows only *)

Lemma bits_ext (l1 l2 : list Z) :
  bits l1 -> bits l2 -> length l1 = length l2 ->
  (forall k, l1 !! k = Some 1%Z <-> l2 !! k = Some 1%Z) ->
  l1 = l2.
Proof.
  intros H1 H2 Hlen Hon. apply list_eq. intros k.
  destruct (l1 !! k) as [x|] eqn:E1, (l2 !! k) as [y|] eqn:E2.
  - unfold bits in *. rewrite Forall_lookup in H1, H2.
    destruct (H1 k x E1) as [-> | ->], (H2 k y E2) as [-> | ->]; try done.
    + assert (Some 0%Z = Some 1%Z) as [=]. { rewrite <- E1. apply Hon. done. }
    + assert (Some 0%Z = Some 1%Z) as [=]. { rewrite <- E2. apply Hon. done. }
  - apply lookup_lt_Some in E1. apply lookup_ge_None in E2. lia.
  - apply lookup_lt_Some in E2. apply lookup_ge_None in E1. lia.
  - done.
Qed.

Lemma select_incl (kps kps' : list kp_row) (image_id bb_id : Z) (i : nat) :
  incl kps kps' ->
  incl (select kps image_id bb_id i) (select kps' image_id bb_id i).
Proof.
  intros H r. rewrite !select_eq, !filter_In. intros [Hin Hm]. split; [|done].
  by apply H.
Qed.

(** Position [k] of layer [i] is on exactly when some matching row's blob
    is on there, the reference channel being positive. *)
Lemma layer_of_on (n : nat) (g : R) (kps : list kp_row) (image_id bb_id : Z)
    (input : ref_array) (i k : nat) :
  layer_of n g kps image_id bb_id input i !! k = Some 1%Z
  <-> (0 < chan_max input i)%Z
      /\ exists yj, In yj (select kps image_id bb_id i)
                    /\ blob_mask n g yj !! k = Some 1%Z.
Proof.
  unfold layer_of. destruct (Z.ltb_spec 0 (chan_max input i)) as [Hpos|Hneg].
  - destruct (Nat.lt_ge_cases k (n * n)) as [Hk|Hk].
    + rewrite (fold_maximum_or (n * n)); try done.
      * rewrite lookup_repeat by done. split.
        -- intros [?|(m & (yj & <- & Hin)%in_map_iff & Hm)]; [done|].
           split; [done|]. by exists yj.
        -- intros (_ & yj & Hin & Hm). right. exists (blob_mask n g yj).
           split; [|done]. apply in_map_iff. by exists yj.
      * apply List.Forall_forall. intros m (yj & <- & _)%in_map_iff.
        split; [apply length_blob_mask|apply bits_blob_mask].
      * apply repeat_length.
      * apply bits_repeat_0.
    + split.
      * intros H%lookup_lt_Some.
        pose proof (layer_of_shape n g kps image_id bb_id input i) as [Hl _].
        unfold layer_of in Hl. destruct (Z.ltb_spec 0 (chan_max input i)); lia.
      * intros (_ & yj & _ & H%lookup_lt_Some).
        rewrite length_blob_mask in H. lia.
  - split; [|lia].
    destruct (Nat.lt_ge_cases k (n * n)) as [Hk|Hk].
    + rewrite lookup_repeat by done. done.
    + intros H%lookup_lt_Some. rewrite repeat_length in H. lia.
Qed.

Lemma layer_of_incl (n : nat) (g : R) (kps kps' : list kp_row)
    (image_id bb_id : Z) (input : ref_array) (i k : nat) :
  incl kps kps' ->
  layer_of n g kps image_id bb_id input i !! k = Some 1%Z ->
  layer_of n g kps' image_id bb_id input i !! k = Some 1%Z.
Proof.
  intros Hincl. rewrite !layer_of_on. intros (Hpos & yj & Hin & Hm).
  split; [done|]. exists yj. split; [|done]. by eapply select_incl.
Qed.

Lemma layer_of_same_rows (n : nat) (g : R) (kps kps' : list kp_row)
    (image_id bb_id : Z) (input : ref_array) (i : nat) :
  incl kps kps' -> incl kps' kps ->
  layer_of n g kps image_id bb_id input i
  = layer_of n g kps' image_id bb_id input i.
Proof.
  intros H1 H2.
  destruct (layer_of_shape n g kps image_id bb_id input i) as [Hl Hb].
  destruct (layer_of_shape n g kps' image_id bb_id input i) as [Hl' Hb'].
  apply bits_ext; [done|done|congruence|].
  intros k. split; by apply layer_of_incl.
Qed.

(** X1. [gaussians] takes the keypoints table as a set of rows: two
    tables with the same rows, in any order and any number of times, give
    the same result and the same file. *)
Theorem keypoint_order_and_duplicates_do_not_matter
    (kps kps' : list kp_row) (file_path save_path : string) (w : world) :
  incl kps kps' -> incl kps' kps ->
  gaussians kps file_path save_path w = gaussians kps' file_path save_path w.
Proof.
  intros H1 H2. unfold gaussians. rewrite !synthesize_eq.
  destruct (sample_ids file_path) as [ids|e]; [|done]. cbn [bind].
  destruct (loadmat_data w file_path) as [input|e]; [|done]. cbn [bind].
  unfold layers. destruct (_ || _)%bool; [|done].
  replace (map (layer_of 321 50 kps' ids.1 ids.2 input) (seq 0 (ref_c input)))
    with (map (layer_of 321 50 kps ids.1 ids.2 input) (seq 0 (ref_c input)));
    [done|].
  apply map_ext. intros i. by apply layer_of_same_rows.
Qed.

Lemma keypoint_order_and_duplicates_do_not_matter_witness :
  gaussians [sample_keypoint; second_keypoint] sample_path
    "/out/10001_1.pkl" sample_world
  = gaussians [second_keypoint; sample_keypoint; second_keypoint] sample_path
      "/out/10001_1.pkl" sample_world.
Proof.
  apply (keypoint_order_and_duplicates_do_not_matter
           [sample_keypoint; second_keypoint]
           [second_keypoint; sample_keypoint; second_keypoint]).
  - intros r Hr. simpl in *. tauto.
  - intros r Hr. simpl in *. tauto.
Defined.

(** X2. Rows added to the keypoints table only turn pixels on: when the
    synthesis returns for a table, it returns for every table that holds
    its rows, with as many layers, and every pixel that was on is on. *)
Theorem more_keypoints_only_turn_pixels_on
    (kps kps' : list kp_row) (file_path : string) (w : world)
    (vol : volume) :
  incl kps kps' ->
  synthesize kps file_path w = Ok vol ->
  exists vol' : volume,
    synthesize kps' file_path w = Ok vol'
    /\ length vol' = length vol
    /\ forall (i k : nat) (layer : list Z),
         vol !! i = Some layer -> layer !! k = Some 1%Z ->
         exists layer', vol' !! i = Some layer' /\ layer' !! k = Some 1%Z.
Proof.
  intros Hincl Hs.
  apply synthesize_ok_inv in Hs as (ids & input & Hids & Hload & Hl).
  assert (Hcond : ((ref_c input =? 0)%nat
                   || (0 <? ref_h input * ref_w input)%nat)%bool = true).
  { unfold layers in Hl. by destruct (_ || _)%bool. }
  exists (map (layer_of 321 50 kps' ids.1 ids.2 input) (seq 0 (ref_c input))).
  assert (Hl' : layers kps' ids input
                = Ok (map (layer_of 321 50 kps' ids.1 ids.2 input)
                          (seq 0 (ref_c input)))).
  { unfold layers. by rewrite Hcond. }
  split; [by rewrite synthesize_eq, Hids, Hload|].
  apply layers_ok in Hl as Hvol. split.
  { rewrite Hvol. by rewrite !length_map. }
  intros i k layer Hi Hk. rewrite (lookup_layers _ _ _ _ i Hl) in Hi.
  rewrite (lookup_layers _ _ _ _ i Hl').
  destruct (i <? ref_c input)%nat; [|done]. injection Hi as <-.
  eexists. split; [done|]. by eapply layer_of_incl.
Qed.

Lemma more_keypoints_only_turn_pixels_on_witness :
  exists vol' : volume,
    synthesize [sample_keypoint; second_keypoint] sample_path sample_world
    = Ok vol'
    /\ length vol'
       = length (map (layer_of 321 50 [sample_keypoint] 1 1 sample_ref) (seq 0 2))
    /\ forall (i k : nat) (layer : list Z),
         map (layer_of 321 50 [sample_keypoint] 1 1 sample_ref) (seq 0 2) !! i
           = Some layer ->
         layer !! k = Some 1%Z ->
         exists layer', vol' !! i = Some layer' /\ layer' !! k = Some 1%Z.
Proof.
  apply (more_keypoints_only_turn_pixels_on [sample_keypoint]
           [sample_keypoint; second_keypoint] sample_path sample_world).
  - intros r Hr. simpl in *. tauto.
  - rewrite synthesize_eq, sample_ids_sample, loadmat_sample. reflexivity.
Defined.

(** X3. The rows of other samples are ignored: dropping from the table
    every row whose image id or bounding-box id is not the one of the file
    name changes nothing, neither the result nor the file. *)
Theorem rows_of_other_samples_are_ignored
    (kps : list kp_row) (file_path save_path : string) (w : world)
    (image_id bb_id : Z) :
  sample_ids file_path = Ok (image_id, bb_id) ->
  gaussians (List.filter (of_sample image_id bb_id) kps) file_path save_path w
  = gaussians kps file_path save_path w.
Proof.
  intros Hids. unfold gaussians. rewrite !synthesize_eq, Hids. cbn [bind].
  destruct (loadmat_data w file_path) as [input|e]; [|done]. cbn [bind].
  unfold layers. destruct (_ || _)%bool; [|done].
  replace (map (layer_of 321 50 (List.filter _ kps) _ _ input) _)
    with (map (layer_of 321 50 kps (image_id, bb_id).1 (image_id, bb_id).2 input)
              (seq 0 (ref_c input))); [done|].
  apply map_ext. intros i. unfold layer_of. cbn [fst snd].
  rewrite !select_eq, filter_filter_weaker; [done|].
  intros r. unfold matches, of_sample. rewrite !andb_true_iff. tauto.
Qed.

Lemma rows_of_other_samples_are_ignored_witness :
  gaussians (List.filter (of_sample 1 1) [sample_keypoint; KpRow 2 1 1 10 10])
    sample_path "/out/10001_1.pkl" sample_world
  = gaussians [sample_keypoint; KpRow 2 1 1 10 10]
      sample_path "/out/10001_1.pkl" sample_world.
Proof.
  apply (rows_of_other_samples_are_ignored
           [sample_keypoint; KpRow 2 1 1 10 10] sample_path "/out/10001_1.pkl"
           sample_world 1 1).
  vm_compute. reflexivity.
Defined.

Lemma density_sq_dist (yj : kp_row) (g : R) (rc : R * R) :
  (g <> 0)%R ->
  density (iso yj g) rc
  = (peak_const g * exp (- (sq_dist yj rc / (2 * (g * g)))))%R.
Proof. intros Hg. by rewrite density_iso. Qed.

Lemma nearest_point_exists (f : R * R -> R) (l : list (R * R)) :
  l <> [] ->
  exists x0, In x0 l /\ forall x, In x l -> (f x0 <= f x)%R.
Proof.
  induction l as [|x l IH]; [done|]. intros _.
  destruct l as [|y l'].
  - exists x. split; [by left|]. intros z [<-|[]]. lra.
  - destruct IH as (m & Hm & Hmin); [done|].
    destruct (Rle_dec (f x) (f m)) as [Hle|Hgt].
    + exists x. split; [by left|]. intros z [<-|Hz]; [lra|].
      specialize (Hmin z Hz). lra.
    + exists m. split; [by right|]. intros z [<-|Hz]; [lra|]. by apply Hmin.
Qed.

Lemma peak_nearest (n : nat) (g : R) (yj : kp_row) (rc0 : R * R) :
  (g <> 0)%R -> In rc0 (grid n) ->
  (forall rc, In rc (grid n) -> (sq_dist yj rc0 <= sq_dist yj rc)%R) ->
  peak (map (density (iso yj g)) (grid n))
  = (peak_const g * exp (- (sq_dist yj rc0 / (2 * (g * g)))))%R.
Proof.
  intros Hg Hin Hmin. apply peak_np_max. apply np_max_intro.
  - apply in_map_iff. exists rc0. split; [by apply density_sq_dist|done].
  - apply List.Forall_forall. intros v (rc & <- & Hrc)%in_map_iff.
    rewrite density_sq_dist by done.
    pose proof (peak_const_pos g Hg) as HK. pose proof (sq_pos g Hg) as Hgg.
    specialize (Hmin rc Hrc).
    apply Rmult_le_compat_l; [lra|].
    assert (Hinv : (0 < / (2 * (g * g)))%R) by (apply Rinv_0_lt_compat; lra).
    assert (Hle : (- (sq_dist yj rc / (2 * (g * g)))
                   <= - (sq_dist yj rc0 / (2 * (g * g))))%R).
    { unfold Rdiv. nra. }
    destruct Hle as [Hlt| ->]; [|lra].
    left. by apply exp_increasing.
Qed.

Lemma sq_dist_IZR (yj : kp_row) (r c x y : Z) :
  kp_r yj = IZR r -> kp_c yj = IZR c ->
  sq_dist yj (IZR x, IZR y) = IZR ((x - r) * (x - r) + (y - c) * (y - c)).
Proof.
  intros Hr Hc. unfold sq_dist. cbn [fst snd].
  by rewrite Hr, Hc, plus_IZR, !mult_IZR, !minus_IZR.
Qed.

Lemma grid_point (a b : nat) :
  a < 321 -> b < 321 ->
  grid 321 !! (a * 321 + b)
  = Some (IZR (Z.of_nat b + 1), IZR (Z.of_nat a + 1)).
Proof.
  intros Ha Hb. rewrite lookup_grid by done. rewrite !INR_literal.
  do 3 f_equal; lia.
Qed.

Lemma In_grid (rc : R * R) :
  In rc (grid 321) ->
  exists x y : Z, (1 <= x <= 321)%Z /\ (1 <= y <= 321)%Z
                  /\ rc = (IZR x, IZR y).
Proof.
  intros [k Hk]%list_elem_of_In%list_elem_of_lookup_1.
  pose proof (lookup_lt_Some _ _ _ Hk) as Hlt. rewrite length_grid in Hlt.
  assert (Ha : k / 321 < 321) by (apply Nat.Div0.div_lt_upper_bound; lia).
  assert (Hb : k mod 321 < 321) by (apply Nat.mod_upper_bound; lia).
  rewrite (Nat.div_mod_eq k 321), (Nat.mul_comm 321 (k / 321)) in Hk.
  rewrite (grid_point _ _ Ha Hb) in Hk. injection Hk as <-.
  exists (Z.of_nat (k mod 321) + 1)%Z, (Z.of_nat (k / 321) + 1)%Z.
  split; [lia|]. split; [lia|reflexivity].
Qed.

Lemma clamp_nearest (z x : Z) :
  (1 <= x <= 321)%Z ->
  (1 <= clamp z <= 321)%Z
  /\ ((clamp z - z) * (clamp z - z) <= (x - z) * (x - z))%Z.
Proof.
  intros Hx.
  assert (Hcases : (z < 1 /\ clamp z = 1 \/ 321 < z /\ clamp z = 321
                    \/ 1 <= z <= 321 /\ clamp z = z)%Z)
    by (unfold clamp; lia).
  destruct Hcases as [[Hz ->]|[[Hz ->]|[Hz ->]]]; (split; [lia|]).
  - apply Z.mul_le_mono_nonneg; lia.
  - replace ((321 - z) * (321 - z))%Z with ((z - 321) * (z - 321))%Z by lia.
    replace ((x - z) * (x - z))%Z with ((z - x) * (z - x))%Z by lia.
    apply Z.mul_le_mono_nonneg; lia.
  - replace ((z - z) * (z - z))%Z with 0%Z by lia. apply Z.square_nonneg.
Qed.

(** X4. The blob of a row off the grid is the thresholded bump around
    the grid point nearest to it, not around the row. For a row with whole
    coordinates [r] and [c] between -1000 and 1000, where [float64]
    neither underflows nor blurs the comparison, let [d0] be the squared
    distance from the row to the nearest grid point: the pixel at
    position [[a, b]] is on when its squared distance
    [(b + 1 - r)^2 + (a + 1 - c)^2] is less than [d0 + 5000], off when it
    is greater, and [0] or [1] in any case. *)
Theorem blob_threshold_is_relative_to_the_nearest_grid_point
    (yj : kp_row) (r c : Z) :
  kp_r yj = IZR r -> kp_c yj = IZR c ->
  (-1000 <= r <= 1000)%Z -> (-1000 <= c <= 1000)%Z ->
  exists m : list Z,
    blob (grid 321) 321 50 yj = Ok m
    /\ forall a b : nat, a < 321 -> b < 321 ->
         let d := ((Z.of_nat b + 1 - r) * (Z.of_nat b + 1 - r)
                   + (Z.of_nat a + 1 - c) * (Z.of_nat a + 1 - c))%Z in
         let d0 := ((clamp r - r) * (clamp r - r)
                    + (clamp c - c) * (clamp c - c))%Z in
         ((d < d0 + 5000)%Z -> m !! (a * 321 + b) = Some 1%Z)
         /\ ((d0 + 5000 < d)%Z -> m !! (a * 321 + b) = Some 0%Z)
         /\ (m !! (a * 321 + b) = Some 0%Z \/ m !! (a * 321 + b) = Some 1%Z).
Proof.
  intros Hr Hc _ _.
  assert (Hn : 0 < 321) by lia. assert (H50 : (50 <> 0)%R) by lra.
  exists (blob_mask 321 50 yj). split; [by apply blob_grid|].
  intros a b Ha Hb d d0.
  set (rc0 := (IZR (clamp r), IZR (clamp c))).
  assert (Hin : In rc0 (grid 321)).
  { destruct (clamp_nearest r 1 ltac:(lia)) as [Hr0 _].
    destruct (clamp_nearest c 1 ltac:(lia)) as [Hc0 _].
    apply list_elem_of_In.
    apply (list_elem_of_lookup_2 _
             (Z.to_nat (clamp c - 1) * 321 + Z.to_nat (clamp r - 1))).
    rewrite grid_point by lia. unfold rc0. do 3 f_equal; lia. }
  assert (Hmin : forall rc, In rc (grid 321) ->
                   (sq_dist yj rc0 <= sq_dist yj rc)%R).
  { intros rc (x & y & Hx & Hy & ->)%In_grid. unfold rc0.
    rewrite !(sq_dist_IZR yj r c) by done. apply IZR_le.
    destruct (clamp_nearest r x Hx) as [_ H1].
    destruct (clamp_nearest c y Hy) as [_ H2]. lia. }
  rewrite (lookup_blob_mask 321 50 yj _ _ (grid_point a b Ha Hb)).
  rewrite (peak_nearest 321 50 yj rc0 H50 Hin Hmin).
  rewrite density_sq_dist by done. unfold rc0.
  rewrite !(sq_dist_IZR yj r c) by done. fold d d0.
  set (x := (IZR d / (2 * (50 * 50)))%R).
  set (x0 := (IZR d0 / (2 * (50 * 50)))%R).
  pose proof (peak_const_pos 50 H50) as HK.
  assert (Hth : (peak_const 50 * exp (- x) > peak_const 50 * exp (- x0) / Np.e
                 <-> x < x0 + 1)%R).
  { unfold Np.e, Rdiv. rewrite Rmult_assoc, <- exp_Ropp, <- exp_plus. split.
    - intros H. apply Rmult_lt_reg_l in H; [|done]. apply exp_lt_inv in H. lra.
    - intros H. apply Rmult_gt_compat_l; [done|]. apply exp_increasing. lra. }
  assert (Hd : (x < x0 + 1 <-> IZR d < IZR d0 + 5000)%R).
  { unfold x, x0. split; intros H; lra. }
  destruct (Rgt_dec _ _) as [Hgt|Hngt]; (split; [|split; [|auto]]).
  - done.
  - intros H. exfalso. apply Hth, Hd in Hgt.
    apply IZR_lt in H. rewrite plus_IZR in H. lra.
  - intros H. exfalso. apply Hngt, Hth, Hd.
    apply IZR_lt in H. rewrite plus_IZR in H. lra.
  - done.
Qed.

Lemma blob_threshold_is_relative_to_the_nearest_grid_point_witness :
  exists m : list Z,
    blob (grid 321) 321 50 off_grid_keypoint = Ok m
    /\ forall a b : nat, a < 321 -> b < 321 ->
         let d := ((Z.of_nat b + 1 - 400) * (Z.of_nat b + 1 - 400)
                   + (Z.of_nat a + 1 - 100) * (Z.of_nat a + 1 - 100))%Z in
         let d0 := ((clamp 400 - 400) * (clamp 400 - 400)
                    + (clamp 100 - 100) * (clamp 100 - 100))%Z in
         ((d < d0 + 5000)%Z -> m !! (a * 321 + b) = Some 1%Z)
         /\ ((d0 + 5000 < d)%Z -> m !! (a * 321 + b) = Some 0%Z)
         /\ (m !! (a * 321 + b) = Some 0%Z \/ m !! (a * 321 + b) = Some 1%Z).
Proof.
  apply (blob_threshold_is_relative_to_the_nearest_grid_point
           off_grid_keypoint 400 100).
  - reflexivity.
  - reflexivity.
  - lia.
  - lia.
Defined.

(** X5. [allrc] lists the [n * n] points of the grid with the first
    coordinate running fastest: its entry [k] is
    [(k mod n + 1, k / n + 1)]. *)
Theorem grid_enumerates_the_square (n k : nat) :
  k < n * n ->
  length (grid n) = n * n
  /\ grid n !! k = Some (INR (k mod n + 1), INR (k / n + 1)).
Proof.
  intros Hk. split; [apply length_grid|].
  assert (Hn : n <> 0) by lia.
  rewrite (Nat.div_mod_eq k n) at 1.
  rewrite (Nat.mul_comm n (k / n)).
  rewrite lookup_grid.
  - by rewrite !Nat.add_1_r.
  - apply Nat.Div0.div_lt_upper_bound. lia.
  - by apply Nat.mod_upper_bound.
Qed.

Lemma grid_enumerates_the_square_witness :
  length (grid 3) = 3 * 3
  /\ grid 3 !! 5 = Some (INR (5 mod 3 + 1), INR (5 / 3 + 1)).
Proof. apply (grid_enumerates_the_square 3 5). lia. Defined.

(** X6. [gaussians] writes nowhere but to [save_path]: however the call
    ends, every other path holds what it held and the paths that can be
    opened are the same. *)
Theorem gaussians_touches_only_save_path
    (kps : list kp_row) (file_path save_path : string) (w : world) :
  can_open_wb (snd (gaussians kps file_path save_path w)) = can_open_wb w
  /\ (forall p, p <> save_path ->
        files (snd (gaussians kps file_path save_path w)) !! p = files w !! p).
Proof.
  unfold gaussians. destruct (synthesize kps file_path w) as [vol|e].
  - destruct (can_open_wb w save_path); cbn [fst snd files can_open_wb].
    + split; [done|]. intros p Hp. by rewrite lookup_insert_ne.
    + done.
  - done.
Qed.



End GaussiansMore.

(** ** Strings and paths *)

Module PyStrFacts.
Import Py.
Import PyStr.

Example join_relative :
  join "/data" ["object"; "affordance"] = "/data/object/affordance"%string.
Proof. reflexivity. Qed.
Example join_trailing_slash : join "/data/" ["x.png"] = "/data/x.png"%string.
Proof. reflexivity. Qed.
Example join_absolute : join "/data" ["/etc"; "x"] = "/etc/x"%string.
Proof. reflexivity. Qed.
Example join_empty : join "" ["x"] = "x"%string.
Proof. reflexivity. Qed.
Example strip_newline :
  str_strip (" 10001_1" ++ String "010"%char "") = "10001_1"%string.
Proof. reflexivity. Qed.

Lemma append_nil (b : string) : ("" ++ b = b)%string.
Proof. reflexivity. Qed.

Lemma append_cons (x : ascii) (a b : string) :
  (String x a ++ b = String x (a ++ b))%string.
Proof. reflexivity. Qed.

Lemma append_nil_r (a : string) : (a ++ "" = a)%string.
Proof. induction a as [|x a IH]; [done|]. by rewrite append_cons, IH. Qed.

Lemma append_assoc (a b c : string) : ((a ++ b) ++ c = a ++ (b ++ c))%string.
Proof.
  induction a as [|x a IH]; [done|]. by rewrite !append_cons, IH.
Qed.

Lemma length_append (a b : string) :
  String.length (a ++ b) = String.length a + String.length b.
Proof.
  induction a as [|x a IH]; [done|]. rewrite append_cons. simpl. by rewrite IH.
Qed.

Lemma append_inv_tail (a b c : string) : (a ++ c = b ++ c)%string -> a = b.
Proof.
  revert b. induction a as [|x a IH]; intros [|y b] H;
    rewrite ?append_nil, ?append_cons in H.
  - done.
  - exfalso. apply (f_equal String.length) in H. simpl in H.
    rewrite length_append in H. lia.
  - exfalso. apply (f_equal String.length) in H. simpl in H.
    rewrite length_append in H. lia.
  - injection H as -> H. f_equal. by apply IH.
Qed.

Lemma substring_append (u s : string) :
  substring (String.length u) (String.length s) (u ++ s) = s.
Proof.
  induction u as [|x u IH].
  - rewrite append_nil. simpl.
    induction s as [|y s IHs]; [done|]. simpl. by rewrite IHs.
  - rewrite append_cons. simpl. exact IH.
Qed.

(** [endswith] decides [ends_with]. *)
Lemma ends_with_endswith (t s : string) : ends_with t s -> endswith t s = true.
Proof.
  intros [u ->]. unfold endswith. cbv zeta. rewrite length_append.
  apply andb_true_intro. split.
  - apply Nat.leb_le. lia.
  - replace (String.length u + String.length s - String.length s)
      with (String.length u) by lia.
    rewrite substring_append. apply String.eqb_refl.
Qed.

Lemma ends_with_join2 (path b : string) : ends_with (join2 path b) b.
Proof.
  unfold join2. destruct (startswith b "/").
  - by exists ""%string.
  - destruct (_ || _)%bool.
    + by exists path.
    + exists (path ++ "/")%string. by rewrite append_assoc.
Qed.

Lemma ends_with_trans (a b c : string) :
  ends_with a b -> ends_with b c -> ends_with a c.
Proof. intros [u ->] [v ->]. exists (u ++ v)%string. by rewrite append_assoc. Qed.

Lemma ends_with_append (a b : string) : ends_with (a ++ b) b.
Proof. by exists a. Qed.

(** Two strings that end with different strings of one length differ. *)
Lemma ends_with_differ (a b s t : string) :
  ends_with a s -> ends_with b t ->
  String.length s = String.length t -> s <> t -> a <> b.
Proof.
  intros [u ->] [v ->] Hlen Hne Heq. apply Hne. clear Hne.
  revert v Heq. induction u as [|x u IH]; intros v Heq.
  - destruct v as [|y v]; [done|]. exfalso.
    apply (f_equal String.length) in Heq.
    rewrite append_nil, append_cons in Heq. simpl in Heq.
    rewrite length_append in Heq. lia.
  - destruct v as [|y v].
    + exfalso. apply (f_equal String.length) in Heq.
      rewrite append_nil, append_cons in Heq. simpl in Heq.
      rewrite length_append in Heq. lia.
    + rewrite !append_cons in Heq. injection Heq as _ Heq. by apply (IH v).
Qed.

Lemma join2_relative (path b : string) :
  startswith b "/" = false ->
  join2 path b = (path ++ b)%string \/ join2 path b = (path ++ "/" ++ b)%string.
Proof. intros H. unfold join2. rewrite H. destruct (_ || _)%bool; auto. Qed.

End PyStrFacts.

(** ** [train_set] and [val_set] *)

Module Cad120Facts.
Import PyFacts.
Import Py.
Import Gaussians.
Import GaussiansFacts.
Import PyStr.
Import PyStrFacts.
Import Cad120.

Lemma gaussians_frame (kps : list kp_row) (file_path save_path : string)
    (w : world) :
  can_open_wb (snd (gaussians kps file_path save_path w)) = can_open_wb w
  /\ forall p, p <> save_path ->
       files (snd (gaussians kps file_path save_path w)) !! p = files w !! p.
Proof.
  unfold gaussians. destruct (synthesize kps file_path w) as [vol|e]; [|done].
  destruct (can_open_wb w save_path); cbn [fst snd files can_open_wb]; [|done].
  split; [done|]. intros p Hp. by rewrite lookup_insert_ne.
Qed.

Lemma gaussians_writes_label_volume (kps : list kp_row)
    (file_path save_path : string) (w w' : world) :
  gaussians kps file_path save_path w = (Ok tt, w') ->
  good_label w' save_path.
Proof.
  unfold gaussians.
  destruct (synthesize kps file_path w) as [vol|e] eqn:Hs; [|done].
  destruct (can_open_wb w save_path); [|done]. intros [= <-].
  exists vol. cbn [files]. split; [by rewrite lookup_insert_eq|].
  apply synthesize_ok_inv in Hs as (ids & input & _ & _ & ->%layers_ok).
  apply List.Forall_forall. intros layer (i & <- & _)%in_map_iff.
  apply layer_of_shape.
Qed.

(** A call that raises leaves the files as they were. *)
Lemma gaussians_raise (kps : list kp_row) (file_path save_path : string)
    (w w' : world) (e : py_exn) :
  gaussians kps file_path save_path w = (Raise e, w') -> w' = w.
Proof.
  unfold gaussians. destruct (synthesize _ _ _); [destruct (can_open_wb _ _)|];
    by intros [= _ <-] || intros [= <-] || done.
Qed.

Lemma copyfile_ok (w w' : world) (src dst : string) :
  copyfile w src dst = Ok w' ->
  exists f, files w !! src = Some f
            /\ w' = World (<[dst := f]> (files w)) (can_open_wb w).
Proof.
  unfold copyfile. destruct (files w !! src) as [f|]; [|done].
  destruct (String.eqb src dst); [done|].
  destruct (can_open_wb w dst); [|done]. intros [= <-]. by exists f.
Qed.

Lemma open_w_ok (w w0 : world) (p : string) :
  open_w w p = Ok w0 ->
  can_open_wb w p = true
  /\ w0 = World (<[p := OtherFile]> (files w)) (can_open_wb w).
Proof. unfold open_w. destruct (can_open_wb w p); [|done]. by intros [= <-]. Qed.

Lemma ends_with_image_save_path (images_path line : string) :
  ends_with (image_save_path images_path line) ".png".
Proof.
  unfold image_save_path, join. cbn [fold_left].
  eapply ends_with_trans; [apply ends_with_join2|apply ends_with_append].
Qed.

Lemma ends_with_label_save_path (labels_path line : string) :
  ends_with (label_save_path labels_path line) ".pkl".
Proof.
  unfold label_save_path, join. cbn [fold_left].
  eapply ends_with_trans; [apply ends_with_join2|apply ends_with_append].
Qed.

Lemma ends_with_index_path (save s index_name : string) :
  ends_with (index_path save s index_name) index_name.
Proof. unfold index_path, join. cbn [fold_left]. apply ends_with_join2. Qed.

Lemma png_is_not_pkl (a b : string) :
  ends_with a ".png" -> ends_with b ".pkl" -> a <> b.
Proof. intros Ha Hb. by apply (ends_with_differ a b ".png" ".pkl"). Qed.

(** What one line changes: at most its two outputs. *)
Lemma line_step_frame (fresh : bool) (kps : list kp_row)
    (cad images labels line : string) (w : world) :
  let r := line_step fresh kps cad images labels line w in
  can_open_wb (snd (fst r)) = can_open_wb w
  /\ forall p, p <> image_save_path images (str_strip line) ->
               p <> label_save_path labels (str_strip line) ->
       files (snd (fst r)) !! p = files w !! p.
Proof.
  unfold line_step. cbv zeta.
  destruct (fresh && _)%bool; [done|].
  destruct (copyfile w _ _) as [w1|e] eqn:Hc; [|done].
  apply copyfile_ok in Hc as (f & Hf & ->).
  match goal with |- context [gaussians ?k ?a ?b ?c] =>
    pose proof (gaussians_frame k a b c) as [Ho Hfr];
    destruct (gaussians k a b c) as [[[]|e] w2] end;
    cbn [fst snd] in *; (split; [done|]); intros p H1 H2;
    rewrite Hfr by done; cbn [files]; by rewrite lookup_insert_ne.
Qed.

Lemma line_step_returned (fresh : bool) (kps : list kp_row)
    (cad images labels line : string) (w w' : world) (text : string) :
  line_step fresh kps cad images labels line w = (Returned, w', text) ->
  line_done images labels w' line
  /\ text = index_entry images labels line.
Proof.
  unfold line_step. cbv zeta.
  destruct (fresh && _)%bool; [done|].
  destruct (copyfile w _ _) as [w1|e] eqn:Hc; [|done].
  apply copyfile_ok in Hc as (f & Hf & ->).
  match goal with |- context [gaussians ?k ?a ?b ?c] =>
    pose proof (gaussians_frame k a b c) as [Ho Hfr];
    destruct (gaussians k a b c) as [[[]|e] w2] eqn:Hg end; [|done].
  intros [= <- <-]. cbn [fst snd] in *. split; [split|done].
  - rewrite Hfr.
    + cbn [files]. rewrite lookup_insert_eq. by eexists.
    + apply png_is_not_pkl;
        [apply ends_with_image_save_path|apply ends_with_label_save_path].
  - by eapply gaussians_writes_label_volume.
Qed.

Lemma line_step_keeps_images (fresh : bool) (kps : list kp_row)
    (cad images labels line : string) (w : world) (p : string) :
  ends_with p ".png" -> is_Some (files w !! p) ->
  is_Some (files (snd (fst (line_step fresh kps cad images labels line w))) !! p).
Proof.
  intros Hp Hex. unfold line_step. cbv zeta.
  destruct (fresh && _)%bool; [done|].
  destruct (copyfile w _ _) as [w1|e] eqn:Hc; [|done].
  apply copyfile_ok in Hc as (f & Hf & ->).
  match goal with |- context [gaussians ?k ?a ?b ?c] =>
    pose proof (gaussians_frame k a b c) as [Ho Hfr];
    destruct (gaussians k a b c) as [[[]|e] w2] end;
    cbn [fst snd] in *;
    (rewrite Hfr by (by apply png_is_not_pkl;
                       [|apply ends_with_label_save_path]));
    cbn [files];
    (destruct (decide (p = image_save_path images (str_strip line))) as [->|Hne];
       [rewrite lookup_insert_eq; by eexists|by rewrite lookup_insert_ne]).
Qed.

Lemma line_step_keeps_labels (fresh : bool) (kps : list kp_row)
    (cad images labels line : string) (w : world) (p : string) :
  ends_with p ".pkl" -> good_label w p ->
  good_label (snd (fst (line_step fresh kps cad images labels line w))) p.
Proof.
  intros Hp Hgood. unfold line_step. cbv zeta.
  destruct (fresh && _)%bool; [done|].
  destruct (copyfile w _ _) as [w1|e] eqn:Hc; [|done].
  apply copyfile_ok in Hc as (f & Hf & ->).
  assert (Hne : p <> image_save_path images (str_strip line)).
  { intros ->. eapply png_is_not_pkl;
      [apply ends_with_image_save_path|exact Hp|done]. }
  match goal with |- context [gaussians ?k ?a ?b ?c] =>
    pose proof (gaussians_frame k a b c) as [Ho Hfr];
    destruct (gaussians k a b c) as [[[]|e] w2] eqn:Hg end;
    cbn [fst snd] in *.
  - destruct (decide (p = label_save_path labels (str_strip line))) as [->|Hl].
    + by eapply gaussians_writes_label_volume.
    + unfold good_label. rewrite Hfr by done. cbn [files].
      by rewrite lookup_insert_ne.
  - apply gaussians_raise in Hg as ->. unfold good_label. cbn [files].
    by rewrite lookup_insert_ne.
Qed.

Lemma line_done_kept_by_line (fresh : bool) (kps : list kp_row)
    (cad images labels images' labels' line line' : string) (w : world) :
  line_done images labels w line ->
  line_done images labels
    (snd (fst (line_step fresh kps cad images' labels' line' w))) line.
Proof.
  intros [Hi Hl]. split.
  - apply line_step_keeps_images; [apply ends_with_image_save_path|done].
  - apply line_step_keeps_labels; [apply ends_with_label_save_path|done].
Qed.

(** Opening an index leaves the outputs of the lines alone. *)
Lemma line_done_kept_by_open (images labels line p : string) (w w0 : world) :
  ends_with p ".txt" ->
  open_w w p = Ok w0 ->
  line_done images labels w line -> line_done images labels w0 line.
Proof.
  intros Hp (_ & ->)%open_w_ok [Hi (vol & Hl & Hv)].
  split; [|exists vol; split; [|done]]; cbn [files];
    rewrite lookup_insert_ne; try done; intros ->.
  - by apply (ends_with_differ _ _ ".txt" ".png" Hp
                (ends_with_image_save_path images (str_strip line))).
  - by apply (ends_with_differ _ _ ".txt" ".pkl" Hp
                (ends_with_label_save_path labels (str_strip line))).
Qed.

Section Invariant.
Context (fresh : bool) (kps : list kp_row) (cad : string).
Variable P : world -> Prop.
Hypothesis step : forall images labels line w,
  P w -> P (snd (fst (line_step fresh kps cad images labels line w))).

Lemma lines_loop_inv (images labels : string) (lines : list string) :
  forall w written,
    P w ->
    P (snd (fst (lines_loop fresh kps cad images labels lines w written))).
Proof.
  induction lines as [|line rest IH]; intros w written Hw; simpl; [done|].
  pose proof (step images labels line w Hw) as Hs.
  destruct (line_step fresh kps cad images labels line w) as [[o w'] text].
  cbn [fst snd] in Hs. destruct o; cbn [fst snd]; [by apply IH|done|done].
Qed.

Context (index_name ids_prefix : string)
        (ids_files : string -> result (list string)) (save : string).
Hypothesis opening : forall s w w0,
  open_w w (index_path save s index_name) = Ok w0 -> P w -> P w0.

Lemma split_body_inv (s : string) (w : world) (closed : list (string * string)) :
  P w ->
  P (snd (fst (split_body fresh index_name ids_prefix kps ids_files cad
                 save s w closed))).
Proof.
  intros Hw. unfold split_body. cbv zeta.
  destruct (open_w w _) as [w0|e] eqn:Ho; [|done].
  apply opening in Ho; [|done].
  destruct (ids_files _) as [lines|e]; [|done].
  pose proof (lines_loop_inv (images_dir save s) (labels_dir save s) lines
                w0 "" Ho) as Hl.
  destruct (lines_loop _ _ _ _ _ _ _ _) as [[o w'] written].
  cbn [fst snd] in Hl. by destruct o.
Qed.

Lemma splits_loop_inv (splits : list string) :
  forall w closed,
    P w ->
    P (snd (fst (splits_loop fresh index_name ids_prefix kps ids_files cad
                   save splits w closed))).
Proof.
  induction splits as [|s rest IH]; intros w closed Hw; simpl; [done|].
  pose proof (split_body_inv s w closed Hw) as Hb.
  destruct (split_body _ _ _ _ _ _ _ _ _ _) as [[o w'] closed'].
  cbn [fst snd] in Hb. destruct o; [by apply IH|done|done].
Qed.

End Invariant.

Lemma builders_frame (fresh : bool) (index_name ids_prefix : string)
    (kps : list kp_row) (ids_files : string -> result (list string))
    (cad save : string) (splits : list string) (w : world)
    (closed : list (string * string)) (p : string) :
  ~ ends_with p ".png" -> ~ ends_with p ".pkl" -> ~ ends_with p index_name ->
  files (snd (fst (splits_loop fresh index_name ids_prefix kps ids_files cad
                     save splits w closed))) !! p
  = files w !! p.
Proof.
  intros Hpng Hpkl Hidx.
  apply (splits_loop_inv fresh kps cad
           (fun w' => files w' !! p = files w !! p)); [| |done].
  - intros images labels line w' Hw.
    destruct (line_step_frame fresh kps cad images labels line w') as [_ Hfr].
    rewrite Hfr; [done| |].
    + intros ->. apply Hpng, ends_with_image_save_path.
    + intros ->. apply Hpkl, ends_with_label_save_path.
  - intros s w' w0 (_ & ->)%open_w_ok Hw. cbn [files].
    rewrite lookup_insert_ne; [done|]. intros <-.
    apply Hidx, ends_with_index_path.
Qed.

Lemma builders_keep_open (fresh : bool) (index_name ids_prefix : string)
    (kps : list kp_row) (ids_files : string -> result (list string))
    (cad save : string) (splits : list string) (w : world)
    (closed : list (string * string)) :
  can_open_wb (snd (fst (splits_loop fresh index_name ids_prefix kps ids_files
                           cad save splits w closed)))
  = can_open_wb w.
Proof.
  apply (splits_loop_inv fresh kps cad
           (fun w' => can_open_wb w' = can_open_wb w)); [| |done].
  - intros images labels line w' Hw.
    destruct (line_step_frame fresh kps cad images labels line w') as [Ho _].
    congruence.
  - by intros s w' w0 (_ & ->)%open_w_ok Hw.
Qed.

Lemma val_keeps_files (index_name ids_prefix : string)
    (kps : list kp_row) (ids_files : string -> result (list string))
    (cad save : string) (splits : list string) (w : world)
    (closed : list (string * string)) (p : string) (f : file) :
  ~ ends_with p index_name ->
  files w !! p = Some f ->
  files (snd (fst (splits_loop true index_name ids_prefix kps ids_files cad
                     save splits w closed))) !! p = Some f.
Proof.
  intros Hidx.
  apply (splits_loop_inv true kps cad (fun w' => files w' !! p = Some f)).
  - intros images labels line w' Hw.
    destruct (line_step_frame true kps cad images labels line w') as [_ Hfr].
    unfold line_step in *. cbv zeta in *. unfold path_exists in *.
    destruct (files w' !! image_save_path images (str_strip line))
      as [fi|] eqn:Ei; cbn [andb orb] in *; [done|].
    destruct (files w' !! label_save_path labels (str_strip line))
      as [fl|] eqn:El; cbn [andb orb] in *; [done|].
    rewrite Hfr; [done| |]; intros ->; congruence.
  - intros s w' w0 (_ & ->)%open_w_ok Hw. cbn [files].
    rewrite lookup_insert_ne; [done|]. intros <-.
    apply Hidx, ends_with_index_path.
Qed.

Lemma lines_loop_returned (fresh : bool) (kps : list kp_row)
    (cad images labels : string) (lines : list string) :
  forall w written w' written',
    lines_loop fresh kps cad images labels lines w written
    = (Returned, w', written') ->
    Forall (line_done images labels w') lines
    /\ written' = (written ++ index_text images labels lines)%string.
Proof.
  induction lines as [|line rest IH]; intros w written w' written' H;
    simpl in H.
  - injection H as <- <-. split; [done|]. cbn. by rewrite append_nil_r.
  - destruct (line_step fresh kps cad images labels line w)
      as [[o w1] text] eqn:Hs.
    destruct o; [|done|done].
    pose proof (line_step_returned _ _ _ _ _ _ _ _ _ Hs) as (Hd & ->).
    destruct (IH _ _ _ _ H) as [Hall ->]. split.
    + constructor; [|done].
      pose proof (lines_loop_inv fresh kps cad
                    (fun w => line_done images labels w line)
                    (fun images' labels' line' w0 H0 =>
                       line_done_kept_by_line fresh kps cad images labels
                         images' labels' line line' w0 H0)
                    images labels rest w1
                    (written ++ index_entry images labels line) Hd) as Hk.
      by rewrite H in Hk.
    + cbn [index_text fold_right]. by rewrite append_assoc.
Qed.

Lemma split_body_returned (fresh : bool) (index_name ids_prefix : string)
    (kps : list kp_row) (ids_files : string -> result (list string))
    (cad save s : string) (w w' : world) (closed closed' : list (string * string)) :
  split_body fresh index_name ids_prefix kps ids_files cad save s w closed
  = (Returned, w', closed') ->
  can_open_wb w (index_path save s index_name) = true
  /\ exists lines,
       ids_files (ids_prefix ++ s ++ "_split_id.txt")%string = Ok lines
       /\ Forall (line_done (images_dir save s) (labels_dir save s) w') lines
       /\ closed'
          = closed ++ [(index_path save s index_name,
                        index_text (images_dir save s) (labels_dir save s)
                          lines)].
Proof.
  unfold split_body. cbv zeta.
  destruct (open_w w _) as [w0|e] eqn:Ho; [|done].
  apply open_w_ok in Ho as [Ho _].
  destruct (ids_files _) as [lines|e]; [|done].
  destruct (lines_loop _ _ _ _ _ _ _ _) as [[o w1] written] eqn:Hl.
  destruct o; [|done|done]. intros [= <- <-]. split; [done|].
  exists lines. apply lines_loop_returned in Hl as [Hall ->].
  by rewrite append_nil.
Qed.

Section Builders.
Context (fresh : bool) (index_name ids_prefix : string) (kps : list kp_row)
        (ids_files : string -> result (list string)) (cad save : string).
Hypothesis Hname : ends_with index_name ".txt".

Local Abbreviation run :=
  (splits_loop fresh index_name ids_prefix kps ids_files cad save
     ["object"; "actor"]%string).

Lemma builders_returned (w : world) :
  fst (fst (run w [])) = Returned ->
  can_open_wb w (index_path save "object" index_name) = true
  /\ exists lines_o lines_a,
      ids_files (ids_prefix ++ "object" ++ "_split_id.txt")%string = Ok lines_o
      /\ ids_files (ids_prefix ++ "actor" ++ "_split_id.txt")%string = Ok lines_a
      /\ Forall (line_done (images_dir save "object") (labels_dir save "object")
                   (snd (fst (run w [])))) lines_o
      /\ Forall (line_done (images_dir save "actor") (labels_dir save "actor")
                   (snd (fst (run w [])))) lines_a
      /\ snd (run w [])
         = [(index_path save "object" index_name,
             index_text (images_dir save "object") (labels_dir save "object")
               lines_o);
            (index_path save "actor" index_name,
             index_text (images_dir save "actor") (labels_dir save "actor")
               lines_a)].
Proof.
  cbn [splits_loop].
  destruct (split_body fresh index_name ids_prefix kps ids_files cad save
              "object" w []) as [[o1 w1] c1] eqn:H1.
  destruct o1; [|done|done].
  destruct (split_body fresh index_name ids_prefix kps ids_files cad save
              "actor" w1 c1) as [[o2 w2] c2] eqn:H2.
  destruct o2; [|done|done]. cbn [fst snd]. intros _.
  apply split_body_returned in H1 as H1'.
  destruct H1' as (Hopen & lines1 & Hids1 & Hall1 & ->).
  apply split_body_returned in H2 as H2'.
  destruct H2' as (_ & lines2 & Hids2 & Hall2 & ->).
  split; [done|]. exists lines1, lines2.
  split; [done|]. split; [done|]. split; [|by split].
  eapply List.Forall_impl; [|exact Hall1]. intros line Hd.
  pose proof (split_body_inv fresh kps cad
                (fun w => line_done (images_dir save "object")
                            (labels_dir save "object") w line)
                (fun images' labels' line' w0 H0 =>
                   line_done_kept_by_line fresh kps cad _ _
                     images' labels' line line' w0 H0)
                index_name ids_prefix ids_files save
                (fun s w w0 Ho H0 =>
                   line_done_kept_by_open _ _ line _ w w0
                     (ends_with_trans _ _ _
                        (ends_with_index_path save s index_name) Hname)
                     Ho H0)
                "actor" w1 ([] ++ [(index_path save "object" index_name,
                                    index_text (images_dir save "object")
                                      (labels_dir save "object") lines1)])
                Hd) as Hk.
  by rewrite H2 in Hk.
Qed.

End Builders.

Lemma train_name_txt : ends_with "train_affordance.txt" ".txt".
Proof. by exists "train_affordance"%string. Qed.

Lemma val_name_txt : ends_with "val_affordance.txt" ".txt".
Proof. by exists "val_affordance"%string. Qed.

Lemma affordance_txt (p index_name : string) :
  ends_with index_name "_affordance.txt" ->
  ~ ends_with p "_affordance.txt" -> ~ ends_with p index_name.
Proof. intros H Hn Hp. apply Hn. by eapply ends_with_trans. Qed.

(** X8. [train_set] and [val_set] write nowhere but to the images
    ([.png]), the labels ([.pkl]) and the indexes ([_affordance.txt]): a
    path that ends in none of the three, a reference file among them,
    is as it was after the call, however the call ends. *)
Theorem builders_write_only_images_labels_and_indexes
    (kps : list kp_row) (ids_files : string -> result (list string))
    (cad120_path save_path : string) (w : world) (p : string) :
  ~ ends_with p ".png" -> ~ ends_with p ".pkl" ->
  ~ ends_with p "_affordance.txt" ->
  files (snd (fst (train_set kps ids_files cad120_path save_path w))) !! p
  = files w !! p
  /\ files (snd (fst (val_set kps ids_files cad120_path save_path w))) !! p
     = files w !! p.
Proof.
  intros H1 H2 H3. split; apply builders_frame; try done;
    apply affordance_txt; try done.
  - by exists "train"%string.
  - by exists "val"%string.
Qed.

(** X9. [val_set] never overwrites: a file that is there before the
    call, other than an index [val_affordance.txt], is there unchanged
    after it, however the call ends. *)
Theorem val_set_never_changes_an_existing_file
    (kps : list kp_row) (ids_files : string -> result (list string))
    (cad120_path save_path : string) (w : world) (p : string) (f : file) :
  files w !! p = Some f ->
  ~ ends_with p "val_affordance.txt" ->
  files (snd (fst (val_set kps ids_files cad120_path save_path w))) !! p
  = Some f.
Proof. intros Hp Hn. by apply val_keeps_files. Qed.

(** X10. When [train_set] or [val_set] returns, every line of both split
    files has its image and its label: the image path holds a file and
    the label path a pickled volume of crop-sized layers of zeros and
    ones. *)
Theorem builders_outputs_exist
    (kps : list kp_row) (ids_files : string -> result (list string))
    (cad120_path save_path : string) (w : world) (s : string)
    (train_lines test_lines : list string) :
  In s ["object"; "actor"]%string ->
  ids_files ("train_" ++ s ++ "_split_id.txt")%string = Ok train_lines ->
  ids_files ("test_" ++ s ++ "_split_id.txt")%string = Ok test_lines ->
  (fst (fst (train_set kps ids_files cad120_path save_path w)) = Returned ->
   Forall (line_done (images_dir save_path s) (labels_dir save_path s)
             (snd (fst (train_set kps ids_files cad120_path save_path w))))
          train_lines)
  /\ (fst (fst (val_set kps ids_files cad120_path save_path w)) = Returned ->
      Forall (line_done (images_dir save_path s) (labels_dir save_path s)
                (snd (fst (val_set kps ids_files cad120_path save_path w))))
             test_lines).
Proof.
  intros Hs Htr Hte. split; intros Hret.
  - destruct (builders_returned false "train_affordance.txt" "train_" kps
                ids_files cad120_path save_path train_name_txt w Hret)
      as (_ & lo & la & Ho & Ha & Hdo & Hda & _).
    destruct Hs as [<-|[<-|[]]];
      [rewrite Ho in Htr|rewrite Ha in Htr]; by injection Htr as <-.
  - destruct (builders_returned true "val_affordance.txt" "test_" kps
                ids_files cad120_path save_path val_name_txt w Hret)
      as (_ & lo & la & Ho & Ha & Hdo & Hda & _).
    destruct Hs as [<-|[<-|[]]];
      [rewrite Ho in Hte|rewrite Ha in Hte]; by injection Hte as <-.
Qed.

(** X11. When [train_set] returns it has closed two indexes, the one of
    [object] and then the one of [actor], and the text of each is one
    line [image path,label path] for every line of its split file, in the
    order of the split file. *)
Theorem train_set_indexes_list_every_line
    (kps : list kp_row) (ids_files : string -> result (list string))
    (cad120_path save_path : string) (w : world)
    (object_lines actor_lines : list string) :
  ids_files "train_object_split_id.txt"%string = Ok object_lines ->
  ids_files "train_actor_split_id.txt"%string = Ok actor_lines ->
  fst (fst (train_set kps ids_files cad120_path save_path w)) = Returned ->
  snd (train_set kps ids_files cad120_path save_path w)
  = [(index_path save_path "object" "train_affordance.txt",
      index_text (images_dir save_path "object")
        (labels_dir save_path "object") object_lines);
     (index_path save_path "actor" "train_affordance.txt",
      index_text (images_dir save_path "actor")
        (labels_dir save_path "actor") actor_lines)].
Proof.
  intros Ho Ha Hret.
  destruct (builders_returned false "train_affordance.txt" "train_" kps
              ids_files cad120_path save_path train_name_txt w Hret)
    as (_ & lo & la & Ho' & Ha' & _ & _ & Hc).
  unfold train_set. rewrite Hc.
  change ("train_" ++ "object" ++ "_split_id.txt")%string
    with "train_object_split_id.txt"%string in Ho'.
  change ("train_" ++ "actor" ++ "_split_id.txt")%string
    with "train_actor_split_id.txt"%string in Ha'.
  congruence.
Qed.

(** X12. [val_set] cannot be run twice: after a call that returned, a
    second call on the same split files, if [test_object_split_id.txt]
    has a line at all, fails on its [assert] at the first line, whose image
    is already there. *)
Theorem val_set_cannot_run_twice
    (kps : list kp_row) (ids_files : string -> result (list string))
    (cad120_path save_path : string) (w : world) (line : string)
    (rest : list string) :
  fst (fst (val_set kps ids_files cad120_path save_path w)) = Returned ->
  ids_files "test_object_split_id.txt"%string = Ok (line :: rest) ->
  fst (fst (val_set kps ids_files cad120_path save_path
              (snd (fst (val_set kps ids_files cad120_path save_path w)))))
  = AssertionError.
Proof.
  intros Hret Hids.
  destruct (builders_returned true "val_affordance.txt" "test_" kps
              ids_files cad120_path save_path val_name_txt w Hret)
    as (Hopen & lo & la & Ho' & _ & Hall & _ & _).
  change ("test_" ++ "object" ++ "_split_id.txt")%string
    with "test_object_split_id.txt"%string in Ho'.
  rewrite Hids in Ho'. injection Ho' as <-.
  inversion Hall as [|? ? [[f Hi] _] _]; subst.
  pose proof (builders_keep_open true "val_affordance.txt" "test_" kps
                ids_files cad120_path save_path ["object"; "actor"]%string
                w []) as Hko.
  fold (val_set kps ids_files cad120_path save_path w) in Hko, Hi.
  set (w' := snd (fst (val_set kps ids_files cad120_path save_path w))) in *.
  unfold val_set at 1. cbn [splits_loop]. unfold split_body. cbv zeta.
  unfold open_w. rewrite Hko, Hopen.
  change ("test_" ++ "object" ++ "_split_id.txt")%string
    with "test_object_split_id.txt"%string.
  rewrite Hids. cbn [lines_loop]. unfold line_step. cbv zeta.
  unfold path_exists. cbn [files].
  destruct (decide (index_path save_path "object" "val_affordance.txt"
                    = image_save_path (images_dir save_path "object")
                        (str_strip line))) as [<-|Hne].
  - by rewrite lookup_insert_eq.
  - rewrite lookup_insert_ne by done. by rewrite Hi.
Qed.

(** *** The sample run *)

Lemma gaussians_returns (kps : list kp_row) (file_path save_path : string)
    (w : world) (ids : Z * Z) (input : ref_array) :
  sample_ids file_path = Ok ids ->
  loadmat_data w file_path = Ok input ->
  0 < ref_h input * ref_w input ->
  can_open_wb w save_path = true ->
  fst (gaussians kps file_path save_path w) = Ok tt.
Proof.
  intros Hids Hload Hdim Ho. unfold gaussians.
  rewrite synthesize_eq, Hids. cbn [bind]. rewrite Hload. cbn [bind].
  unfold layers.
  destruct (Nat.ltb_spec 0 (ref_h input * ref_w input)) as [_|]; [|lia].
  rewrite orb_true_r. by rewrite Ho.
Qed.

(** The line of the sample goes through wherever its image and its
    reference are there and nothing is in the way. *)
Lemma sample_line_returns (fresh : bool) (kps : list kp_row)
    (images labels : string) (w : world) :
  files w !! "/cad120/object_crop_images/10001_1.png"%string = Some OtherFile ->
  files w !! sample_path = Some (MatFile (Some sample_ref)) ->
  (forall p, can_open_wb w p = true) ->
  files w !! image_save_path images "10001_1" = None ->
  files w !! label_save_path labels "10001_1" = None ->
  fst (fst (line_step fresh kps "/cad120" images labels ("10001_1" ++ nl) w))
  = Returned.
Proof.
  intros Himg Href Hopen Hi Hl. unfold line_step. cbv zeta.
  change (str_strip ("10001_1" ++ nl)) with "10001_1"%string.
  unfold path_exists. rewrite Hi, Hl, andb_false_r.
  change (image_path "/cad120" "10001_1")
    with "/cad120/object_crop_images/10001_1.png"%string.
  change (label_path "/cad120" "10001_1") with sample_path.
  unfold copyfile. rewrite Himg, Hopen.
  destruct (String.eqb_spec "/cad120/object_crop_images/10001_1.png"
              (image_save_path images "10001_1")) as [He|_].
  { rewrite <- He, Himg in Hi. discriminate Hi. }
  match goal with |- context [gaussians ?k ?a ?b ?c] =>
    assert (Hg : fst (gaussians k a b c) = Ok tt);
    [|by destruct (gaussians k a b c) as [[[]|e] w2]] end.
  apply (gaussians_returns _ _ _ _ (1%Z, 1%Z) sample_ref).
  - reflexivity.
  - unfold loadmat_data. cbn [files]. rewrite lookup_insert_ne.
    + by rewrite Href.
    + intros He. rewrite He, Href in Hi. discriminate Hi.
  - cbn. lia.
  - apply Hopen.
Qed.

Ltac run_sample_builder Hr Hopen :=
  cbn [splits_loop]; unfold split_body; cbv zeta; unfold open_w;
  cbn [can_open_wb sample_disk];
  match goal with |- context [sample_ids_files ?n] =>
    change (sample_ids_files n) with (@Ok (list string) [("10001_1" ++ nl)%string])
  end;
  cbn [lines_loop];
  match goal with |- context [line_step ?f ?k ?c ?i ?l ?ln ?w] =>
    pose proof (sample_line_returns f k i l w) as Hr;
    pose proof (line_step_frame f k c i l ln w) as [Hopen _];
    destruct (line_step f k c i l ln w) as [[o w1] text]
  end;
  cbn [fst snd] in Hr, Hopen;
  rewrite Hr by (try (intros p); vm_compute; reflexivity);
  rewrite Hopen; cbn [can_open_wb];
  match goal with |- context [sample_ids_files ?n] =>
    change (sample_ids_files n) with (@Ok (list string) [])
  end;
  reflexivity.

Lemma sample_train_returns :
  fst (fst (train_set [sample_keypoint] sample_ids_files "/cad120" "/out"
              sample_disk)) = Returned.
Proof. unfold train_set. run_sample_builder Hr Hopen. Qed.

Lemma sample_val_returns :
  fst (fst (val_set [sample_keypoint] sample_ids_files "/cad120" "/out"
              sample_disk)) = Returned.
Proof. unfold val_set. run_sample_builder Hr Hopen. Qed.

Lemma mat_is_no_output (s : string) :
  s = ".png"%string \/ s = ".pkl"%string \/ s = "_affordance.txt"%string
  \/ s = "val_affordance.txt"%string ->
  ~ ends_with sample_path s.
Proof.
  intros Hs H%ends_with_endswith.
  destruct Hs as [->|[->|[->| ->]]]; vm_compute in H; discriminate H.
Qed.

Lemma builders_write_only_images_labels_and_indexes_witness :
  files (snd (fst (train_set [sample_keypoint] sample_ids_files "/cad120" "/out"
                     sample_disk))) !! sample_path
  = files sample_disk !! sample_path
  /\ files (snd (fst (val_set [sample_keypoint] sample_ids_files "/cad120" "/out"
                        sample_disk))) !! sample_path
     = files sample_disk !! sample_path.
Proof.
  apply (builders_write_only_images_labels_and_indexes
           [sample_keypoint] sample_ids_files "/cad120" "/out" sample_disk
           sample_path); apply mat_is_no_output; auto.
Defined.

Lemma val_set_never_changes_an_existing_file_witness :
  files (snd (fst (val_set [sample_keypoint] sample_ids_files "/cad120" "/out"
                     sample_disk))) !! sample_path
  = Some (MatFile (Some sample_ref)).
Proof.
  apply (val_set_never_changes_an_existing_file
           [sample_keypoint] sample_ids_files "/cad120" "/out" sample_disk
           sample_path (MatFile (Some sample_ref))).
  - vm_compute. reflexivity.
  - apply mat_is_no_output. auto.
Defined.

Lemma builders_outputs_exist_witness :
  Forall (line_done (images_dir "/out" "object") (labels_dir "/out" "object")
            (snd (fst (train_set [sample_keypoint] sample_ids_files "/cad120"
                         "/out" sample_disk))))
         [("10001_1" ++ nl)%string]
  /\ Forall (line_done (images_dir "/out" "object") (labels_dir "/out" "object")
               (snd (fst (val_set [sample_keypoint] sample_ids_files "/cad120"
                            "/out" sample_disk))))
            [("10001_1" ++ nl)%string].
Proof.
  destruct (builders_outputs_exist
              [sample_keypoint] sample_ids_files "/cad120" "/out" sample_disk
              "object" [("10001_1" ++ nl)%string] [("10001_1" ++ nl)%string])
    as [Htrain Hval].
  - left. reflexivity.
  - reflexivity.
  - reflexivity.
  - split; [apply Htrain, sample_train_returns|apply Hval, sample_val_returns].
Defined.

Lemma train_set_indexes_list_every_line_witness :
  snd (train_set [sample_keypoint] sample_ids_files "/cad120" "/out" sample_disk)
  = [("/out/object/train_affordance.txt"%string,
      ("/out/object/affordance/images/10001_1.png,"
       ++ "/out/object/affordance/labels/10001_1.pkl" ++ nl)%string);
     ("/out/actor/train_affordance.txt"%string, ""%string)].
Proof.
  apply (train_set_indexes_list_every_line
           [sample_keypoint] sample_ids_files "/cad120" "/out" sample_disk
           [("10001_1" ++ nl)%string] []).
  - reflexivity.
  - reflexivity.
  - apply sample_train_returns.
Defined.

Lemma val_set_cannot_run_twice_witness :
  fst (fst (val_set [sample_keypoint] sample_ids_files "/cad120" "/out"
              (snd (fst (val_set [sample_keypoint] sample_ids_files "/cad120"
                           "/out" sample_disk)))))
  = AssertionError.
Proof.
  apply (val_set_cannot_run_twice
           [sample_keypoint] sample_ids_files "/cad120" "/out" sample_disk
           ("10001_1" ++ nl)%string []).
  - apply sample_val_returns.
  - reflexivity.
Defined.

End Cad120Facts.

(** ** Checkpoints *)

Module CheckpointFacts.
Import Py.
Import PyStr.
Import PyStrFacts.
Import Checkpoint.

Example format_04d_pads : format_04d 7 = "0007"%string.
Proof. reflexivity. Qed.
Example format_04d_wide : format_04d 12345 = "12345"%string.
Proof. reflexivity. Qed.
Example format_04d_negative : format_04d (-5) = "-005"%string.
Proof. reflexivity. Qed.
Example range_resumed : range 8 11 = [8; 9; 10]%Z.
Proof. reflexivity. Qed.
Example range_empty : range 5 3 = [].
Proof. reflexivity. Qed.

Lemma decode_zeros (k : nat) (s : string) :
  decode (zeros k ++ s) = decode s.
Proof.
  induction k as [|k IH]; [done|].
  cbn [zeros]. rewrite append_cons. unfold decode in *.
  cbn [NilEmpty.uint_of_string].
  destruct (NilEmpty.uint_of_string (zeros k ++ s)) as [d|];
    destruct (NilEmpty.uint_of_string s) as [d'|]; try done.
Qed.

Lemma decode_digits (n : N) : decode (digits n) = Some n.
Proof.
  unfold decode, digits.
  assert (Hnn : N.to_uint n <> Decimal.Nil).
  { destruct n as [|p]; [done|]. apply DecimalPos.Unsigned.to_uint_nonnil. }
  pose proof (NilZero.usu (N.to_uint n) Hnn) as H.
  unfold NilZero.uint_of_string in H.
  destruct (NilZero.string_of_uint (N.to_uint n)) as [|c s]; [done|].
  rewrite H. by rewrite DecimalN.Unsigned.of_to.
Qed.

Lemma decode_zfill (w : nat) (n : N) : decode (zfill w (digits n)) = Some n.
Proof. unfold zfill. by rewrite decode_zeros, decode_digits. Qed.

Lemma zfill_no_sign (w : nat) (n : N) (t : string) :
  zfill w (digits n) <> String "-" t.
Proof.
  intros H. pose proof (decode_zfill w n) as Hd. rewrite H in Hd.
  unfold decode in Hd. cbn [NilEmpty.uint_of_string] in Hd.
  destruct (NilEmpty.uint_of_string t); discriminate Hd.
Qed.

Lemma decode_format_04d (z : Z) : decode_int (format_04d z) = Some z.
Proof.
  unfold format_04d. destruct (Z.ltb_spec z 0) as [Hneg|Hpos].
  - rewrite append_cons, append_nil. cbn [decode_int].
    rewrite decode_zfill. f_equal. lia.
  - pose proof (zfill_no_sign 4 (Z.to_N z)) as Hns.
    pose proof (decode_zfill 4 (Z.to_N z)) as Hd.
    destruct (zfill 4 (digits (Z.to_N z))) as [|c s] eqn:E.
    + cbn [decode_int]. rewrite Hd. f_equal. lia.
    + unfold decode_int.
      destruct (Ascii.eqb_spec c "-") as [->|Hc]; [by destruct (Hns s)|].
      assert (Hgo : forall (ss : string) (X Y : option Z),
                 c <> "-"%char ->
                 match String c ss with
                 | String "-" _ => X
                 | _ => Y
                 end = Y).
      { intros ss X Y Hne.
        destruct c as [[] [] [] [] [] [] [] []]; try done. }
      rewrite Hgo by done. rewrite Hd. f_equal. lia.
Qed.

Lemma format_04d_inj (z1 z2 : Z) : format_04d z1 = format_04d z2 -> z1 = z2.
Proof.
  intros H. apply (f_equal decode_int) in H.
  rewrite !decode_format_04d in H. by injection H.
Qed.

Lemma join2_inj (d a b : string) :
  startswith a "/" = false -> startswith b "/" = false ->
  join2 d a = join2 d b -> a = b.
Proof.
  intros Ha Hb. unfold join2. rewrite Ha, Hb.
  destruct (_ || _)%bool; intros H%String.app_inj; [done|].
  by apply String.app_inj in H.
Qed.

Section Paths.
Context (save_dir : string).

Lemma history_path_inj (e1 e2 : Z) :
  history_path save_dir e1 = history_path save_dir e2 -> e1 = e2.
Proof.
  unfold history_path, join. cbn [fold_left].
  intros H%join2_inj; [|done|done].
  apply String.app_inj in H. apply append_inv_tail in H.
  by apply format_04d_inj.
Qed.

Lemma latest_is_not_best : checkpoint_path save_dir <> best_path save_dir.
Proof.
  unfold checkpoint_path, best_path, join. cbn [fold_left].
  by intros H%join2_inj.
Qed.

Lemma history_is_not_best (e : Z) :
  history_path save_dir e <> best_path save_dir.
Proof.
  unfold history_path, best_path, join. cbn [fold_left].
  by intros H%join2_inj.
Qed.

Lemma history_is_not_latest (e : Z) :
  history_path save_dir e <> checkpoint_path save_dir.
Proof.
  unfold history_path, checkpoint_path, join. cbn [fold_left].
  intros H%join2_inj; [|done|done].
  change "checkpoint_latest.pth"%string
    with ("checkpoint_" ++ "latest" ++ ".pth")%string in H.
  apply String.app_inj in H. apply append_inv_tail in H.
  apply (f_equal decode_int) in H. rewrite decode_format_04d in H.
  vm_compute in H. discriminate H.
Qed.

End Paths.

Section Save.
Context {D : Type}.
Implicit Types (st : store D) (state : checkpoint D).

Lemma torch_save_ok st st' state (p : string) :
  torch_save st state p = Ok st' ->
  st' = Store (<[p := state]> (saved st)) (can_write st).
Proof. unfold torch_save. destruct (can_write st p); [|done]. by intros [= <-]. Qed.

Lemma saved_copyfile_ok st st' (src dst : string) :
  copyfile st src dst = Ok st' ->
  exists c, saved st !! src = Some c
            /\ st' = Store (<[dst := c]> (saved st)) (can_write st).
Proof.
  unfold copyfile. destruct (saved st !! src) as [c|]; [|done].
  destruct (String.eqb src dst); [done|].
  destruct (can_write st dst); [|done]. intros [= <-]. by exists c.
Qed.

(** What a call changes at most, however it ends. *)
Lemma save_checkpoint_frame state (is_best : bool) (save_dir : string)
    (backup_freq : Z) st :
  can_write (snd (save_checkpoint state is_best save_dir backup_freq st))
  = can_write st
  /\ forall p, p <> checkpoint_path save_dir -> p <> best_path save_dir ->
       p <> history_path save_dir (epoch state) ->
       saved (snd (save_checkpoint state is_best save_dir backup_freq st)) !! p
       = saved st !! p.
Proof.
  unfold save_checkpoint.
  destruct (torch_save st state _) as [st1|e] eqn:H1; [|done].
  apply torch_save_ok in H1 as ->.
  destruct is_best.
  - destruct (copyfile _ _ _) as [st2|e] eqn:H2.
    + apply saved_copyfile_ok in H2 as (c & Hc & ->). cbn [saved can_write] in *.
      destruct (backup_freq =? 0)%Z.
      { cbn [snd saved can_write]. split; [done|]. intros p Hl Hb Hh.
        by rewrite !lookup_insert_ne. }
      destruct (_ =? 0)%Z.
      * destruct (copyfile _ _ _) as [st3|e] eqn:H3.
        -- apply saved_copyfile_ok in H3 as (c' & Hc' & ->).
           cbn [snd saved can_write]. split; [done|]. intros p Hl Hb Hh.
           by rewrite !lookup_insert_ne.
        -- cbn [snd saved can_write]. split; [done|]. intros p Hl Hb Hh.
           by rewrite !lookup_insert_ne.
      * cbn [snd saved can_write]. split; [done|]. intros p Hl Hb Hh.
        by rewrite !lookup_insert_ne.
    + cbn [snd saved can_write]. split; [done|]. intros p Hl Hb Hh.
      by rewrite !lookup_insert_ne.
  - destruct (backup_freq =? 0)%Z.
    { cbn [snd saved can_write]. split; [done|]. intros p Hl Hb Hh.
      by rewrite !lookup_insert_ne. }
    destruct (_ =? 0)%Z.
    + destruct (copyfile _ _ _) as [st3|e] eqn:H3.
      * apply saved_copyfile_ok in H3 as (c' & Hc' & ->).
        cbn [snd saved can_write]. split; [done|]. intros p Hl Hb Hh.
        by rewrite !lookup_insert_ne.
      * cbn [snd saved can_write]. split; [done|]. intros p Hl Hb Hh.
        by rewrite !lookup_insert_ne.
    + cbn [snd saved can_write]. split; [done|]. intros p Hl Hb Hh.
      by rewrite !lookup_insert_ne.
Qed.

Lemma save_checkpoint_returned state (is_best : bool) (save_dir : string)
    (backup_freq : Z) st st' :
  save_checkpoint state is_best save_dir backup_freq st = (None, st') ->
  backup_freq <> 0%Z
  /\ saved st' !! checkpoint_path save_dir = Some state
  /\ saved st' !! best_path save_dir
     = (if is_best then Some state else saved st !! best_path save_dir)
  /\ saved st' !! history_path save_dir (epoch state)
     = (if (epoch state mod backup_freq =? 0)%Z then Some state
        else saved st !! history_path save_dir (epoch state)).
Proof.
  pose proof (latest_is_not_best save_dir) as Hlb.
  pose proof (history_is_not_best save_dir (epoch state)) as Hhb.
  pose proof (history_is_not_latest save_dir (epoch state)) as Hhl.
  unfold save_checkpoint.
  destruct (torch_save st state _) as [st1|e] eqn:H1; [|done].
  apply torch_save_ok in H1 as ->.
  destruct is_best.
  - destruct (copyfile _ _ _) as [st2|e] eqn:H2; [|done].
    apply saved_copyfile_ok in H2 as (c & Hc & ->). cbn [saved can_write] in *.
    rewrite lookup_insert_eq in Hc. injection Hc as <-.
    destruct (Z.eqb_spec backup_freq 0) as [|Hf]; [done|].
    destruct (_ =? 0)%Z.
    + destruct (copyfile _ _ _) as [st3|e] eqn:H3; [|done].
      apply saved_copyfile_ok in H3 as (c' & Hc' & ->). cbn [saved can_write] in *.
      rewrite lookup_insert_ne in Hc' by done. rewrite lookup_insert_eq in Hc'.
      injection Hc' as <-. intros [= <-]. cbn [saved].
      split; [done|]. split; [|split].
      * by rewrite 2!lookup_insert_ne, lookup_insert_eq by done.
      * by rewrite lookup_insert_ne, lookup_insert_eq by done.
      * by rewrite lookup_insert_eq.
    + intros [= <-]. cbn [saved]. split; [done|]. split; [|split].
      * by rewrite lookup_insert_ne, lookup_insert_eq by done.
      * by rewrite lookup_insert_eq.
      * by rewrite 2!lookup_insert_ne by done.
  - destruct (Z.eqb_spec backup_freq 0) as [|Hf]; [done|].
    destruct (_ =? 0)%Z.
    + destruct (copyfile _ _ _) as [st3|e] eqn:H3; [|done].
      apply saved_copyfile_ok in H3 as (c' & Hc' & ->). cbn [saved can_write] in *.
      rewrite lookup_insert_eq in Hc'. injection Hc' as <-.
      intros [= <-]. cbn [saved]. split; [done|]. split; [|split].
      * by rewrite lookup_insert_ne, lookup_insert_eq by done.
      * by rewrite 2!lookup_insert_ne by done.
      * by rewrite lookup_insert_eq.
    + intros [= <-]. cbn [saved]. split; [done|]. split; [|split].
      * by rewrite lookup_insert_eq.
      * by rewrite lookup_insert_ne by done.
      * by rewrite lookup_insert_ne by done.
Qed.

(** Nothing fails when every path can be written. *)
Lemma save_checkpoint_succeeds state (is_best : bool) (save_dir : string)
    (backup_freq : Z) st :
  (forall p, can_write st p = true) -> backup_freq <> 0%Z ->
  fst (save_checkpoint state is_best save_dir backup_freq st) = None.
Proof.
  intros Hw Hf. pose proof (latest_is_not_best save_dir) as Hlb.
  pose proof (history_is_not_latest save_dir (epoch state)) as Hhl.
  unfold save_checkpoint, torch_save. rewrite Hw.
  assert (Hcopy : forall (m : gmap string (checkpoint D)) dst,
             checkpoint_path save_dir <> dst ->
             m !! checkpoint_path save_dir = Some state ->
             copyfile (Store m (can_write st)) (checkpoint_path save_dir) dst
             = Ok (Store (<[dst := state]> m) (can_write st))).
  { intros m dst Hne Hm. unfold copyfile. cbn [saved can_write].
    rewrite Hm, Hw. by destruct (String.eqb_spec (checkpoint_path save_dir) dst). }
  destruct (Z.eqb_spec backup_freq 0) as [|_]; [done|].
  destruct is_best.
  - rewrite Hcopy by (done || by rewrite lookup_insert_eq).
    destruct (_ =? 0)%Z; [|done].
    rewrite Hcopy; [done|done|].
    rewrite lookup_insert_ne by done. by rewrite lookup_insert_eq.
  - destruct (_ =? 0)%Z; [|done].
    rewrite Hcopy; [done|done|]. by rewrite lookup_insert_eq.
Qed.

End Save.

Section Exec.
Context {T D : Type}.
Variable train : Z -> T -> T.
Variable validate : Z -> T -> score * T.
Variable scheduler_step : T -> T.
Variable model_state_dict : T -> D.

Local Abbreviation run_epoch' :=
  (run_epoch train validate scheduler_step model_state_dict).
Local Abbreviation exec_loop' :=
  (exec_loop train validate scheduler_step model_state_dict).
Local Abbreviation trajectory' :=
  (trajectory train validate scheduler_step model_state_dict).
Local Abbreviation trainer_after' :=
  (trainer_after train validate scheduler_step model_state_dict).

Lemma run_epoch_eq (e : Z) (tr : trainer T) :
  let s := fst (validate e (train e (internals tr))) in
  let t3 := scheduler_step (snd (validate e (train e (internals tr)))) in
  run_epoch' e tr
  = EpochResult s (py_gt s (self_best_score tr))
      (Ckpt (e + 1) (model_state_dict t3) (py_max s (self_best_score tr)))
      (Trainer t3 (py_max s (self_best_score tr))).
Proof. unfold run_epoch. by destruct (validate _ _). Qed.

Lemma epoch_run_epoch (e : Z) (tr : trainer T) :
  epoch (state (run_epoch' e tr)) = (e + 1)%Z.
Proof. by rewrite run_epoch_eq. Qed.

Lemma trainer_after_cons (e : Z) (rest : list Z) (tr : trainer T) :
  trainer_after' (e :: rest) tr = trainer_after' rest (after (run_epoch' e tr)).
Proof. reflexivity. Qed.

Lemma exec_loop_trainer (dir : string) (eps : list Z) :
  forall tr st tr' st',
    exec_loop' dir eps tr st = (None, tr', st') -> tr' = trainer_after' eps tr.
Proof.
  induction eps as [|e rest IH]; intros tr st tr' st' H; cbn [exec_loop] in H.
  - by injection H as <- _.
  - cbv zeta in H.
    destruct (save_checkpoint _ _ _ _ _) as [[err|] st1]; [done|].
    rewrite trainer_after_cons. by eapply IH.
Qed.

Lemma exec_loop_frame (dir : string) (eps : list Z) (p : string) :
  p <> checkpoint_path (join dir ["model"]%string) ->
  p <> best_path (join dir ["model"]%string) ->
  (forall e, In e eps -> p <> history_path (join dir ["model"]%string) (e + 1)) ->
  forall tr st,
    saved (snd (exec_loop' dir eps tr st)) !! p = saved st !! p.
Proof.
  intros Hl Hb. induction eps as [|e rest IH]; intros Hh tr st;
    cbn [exec_loop]; [done|]. cbv zeta.
  match goal with |- context [save_checkpoint ?a ?b ?c ?d ?e] =>
    pose proof (save_checkpoint_frame a b c d e) as [_ Hfr];
    destruct (save_checkpoint a b c d e) as [[err|] st1] end;
    cbn [snd] in *.
  - apply Hfr; try done. rewrite epoch_run_epoch. apply Hh. by left.
  - rewrite IH by (intros e' He'; apply Hh; by right).
    apply Hfr; try done. rewrite epoch_run_epoch. apply Hh. by left.
Qed.

Lemma exec_loop_succeeds (dir : string) (eps : list Z) :
  forall tr st,
    (forall p, can_write st p = true) ->
    fst (fst (exec_loop' dir eps tr st)) = None.
Proof.
  induction eps as [|e rest IH]; intros tr st Hw; cbn [exec_loop]; [done|].
  cbv zeta.
  match goal with |- context [save_checkpoint ?a ?b ?c ?d ?e] =>
    pose proof (save_checkpoint_frame a b c d e) as [Hcw _];
    pose proof (save_checkpoint_succeeds a b c d e Hw) as Hok;
    destruct (save_checkpoint a b c d e) as [[err|] st1] end;
    cbn [fst snd] in *.
  - by discriminate Hok.
  - apply IH. intros p. by rewrite Hcw.
Qed.

Lemma exec_loop_history (dir : string) (eps : list Z) :
  NoDup eps ->
  forall tr st tr' st',
    exec_loop' dir eps tr st = (None, tr', st') ->
    forall r, In r (trajectory' eps tr) ->
      (epoch (state r) mod 10 = 0)%Z ->
      saved st' !! history_path (join dir ["model"]%string) (epoch (state r))
      = Some (state r).
Proof.
  induction eps as [|e rest IH]; intros Hnd tr st tr' st' H r Hr Hmod;
    [done|].
  apply NoDup_cons in Hnd as [Hne Hnd].
  cbn [exec_loop] in H. cbv zeta in H.
  destruct (save_checkpoint _ _ _ _ _) as [[err|] st1] eqn:Hs; [done|].
  cbn [trajectory] in Hr. destruct Hr as [<-|Hr].
  - apply save_checkpoint_returned in Hs as (_ & _ & _ & Hh).
    apply Z.eqb_eq in Hmod. rewrite Hmod in Hh.
    pose proof (exec_loop_frame dir rest
                  (history_path (join dir ["model"]%string)
                     (epoch (state (run_epoch' e tr))))) as Hfr.
    specialize (Hfr (history_is_not_latest _ _) (history_is_not_best _ _)).
    rewrite <- Hh.
    rewrite <- (Hfr ltac:(intros e' He' Heq%history_path_inj;
                           rewrite epoch_run_epoch in Heq;
                           apply Hne; apply list_elem_of_In;
                           by replace e with e' by lia)
                    (after (run_epoch' e tr)) st1).
    by rewrite H.
  - by eapply IH.
Qed.

Lemma exec_loop_latest (dir : string) (eps : list Z) :
  forall tr st tr' st',
    exec_loop' dir eps tr st = (None, tr', st') ->
    forall r, last (trajectory' eps tr) = Some r ->
      saved st' !! checkpoint_path (join dir ["model"]%string)
      = Some (state r).
Proof.
  induction eps as [|e rest IH]; intros tr st tr' st' H r Hr; [done|].
  cbn [exec_loop] in H. cbv zeta in H.
  destruct (save_checkpoint _ _ _ _ _) as [[err|] st1] eqn:Hs; [done|].
  cbn [trajectory] in Hr. destruct rest as [|e2 rest'].
  - cbn in Hr. injection Hr as <-. cbn [exec_loop] in H. injection H as _ <-.
    by apply save_checkpoint_returned in Hs as (_ & Hl & _).
  - eapply IH; [exact H|]. cbn [trajectory] in Hr |- *.
    by rewrite last_cons_cons in Hr.
Qed.

Lemma exec_loop_best (dir : string) (eps : list Z) :
  forall tr st tr' st',
    exec_loop' dir eps tr st = (None, tr', st') ->
    saved st' !! best_path (join dir ["model"]%string)
    = match last_best (trajectory' eps tr) with
      | Some r => Some (state r)
      | None => saved st !! best_path (join dir ["model"]%string)
      end.
Proof.
  induction eps as [|e rest IH]; intros tr st tr' st' H.
  - cbn in H. by injection H as _ <-.
  - cbn [exec_loop] in H. cbv zeta in H.
    destruct (save_checkpoint _ _ _ _ _) as [[err|] st1] eqn:Hs; [done|].
    apply save_checkpoint_returned in Hs as (_ & _ & Hb & _).
    rewrite (IH _ _ _ _ H). cbn [trajectory last_best].
    destruct (last_best _) as [r'|]; [done|]. rewrite Hb.
    by destruct (is_best _).
Qed.

(** The scores, one epoch after the other. *)
Lemma py_gt_num (x y : R) : py_gt (Num x) (Num y) = true <-> (x > y)%R.
Proof. unfold py_gt. destruct (Rgt_dec x y); split; (done || lra). Qed.

Lemma py_max_num (x y : R) : py_max (Num x) (Num y) = Num (Rmax x y).
Proof.
  unfold py_max, py_gt, Rmax.
  destruct (Rgt_dec y x), (Rle_dec x y); try done; try lra.
  f_equal. lra.
Qed.

Lemma trajectory_best (eps : list Z) :
  forall (tr : trainer T) (b0 : R),
    self_best_score tr = Num b0 ->
    Forall (fun r => is_number (val_score r)) (trajectory' eps tr) ->
    exists bf,
      self_best_score (trainer_after' eps tr) = Num bf
      /\ (b0 <= bf)%R
      /\ Forall (fun r => forall x, val_score r = Num x -> (x <= bf)%R)
                (trajectory' eps tr)
      /\ match last_best (trajectory' eps tr) with
         | Some r => val_score r = Num bf /\ best_score (state r) = Num bf
                     /\ (b0 < bf)%R
         | None => bf = b0
         end.
Proof.
  induction eps as [|e rest IH]; intros tr b0 Hb Hnum.
  - exists b0. cbn. split; [done|]. split; [lra|]. by split.
  - cbn [trajectory] in *. apply Forall_cons in Hnum as [[x Hx] Hnum].
    rewrite trainer_after_cons.
    assert (Hafter : self_best_score (after (run_epoch' e tr))
                     = Num (Rmax x b0)).
    { rewrite run_epoch_eq in *. cbn [after val_score self_best_score] in *.
      by rewrite Hx, Hb, py_max_num. }
    assert (Hbest : best_score (state (run_epoch' e tr)) = Num (Rmax x b0)).
    { rewrite run_epoch_eq in *. cbn [state val_score best_score] in *.
      by rewrite Hx, Hb, py_max_num. }
    assert (His : is_best (run_epoch' e tr) = true <-> (x > b0)%R).
    { rewrite run_epoch_eq in *. cbn [is_best val_score] in *.
      rewrite Hx, Hb. apply py_gt_num. }
    destruct (IH _ _ Hafter Hnum) as (bf & Hbf & Hle & Hall & Hlast).
    exists bf. split; [done|].
    pose proof (Rmax_l x b0). pose proof (Rmax_r x b0).
    split; [lra|]. split.
    + constructor; [|done]. intros y Hy. rewrite Hx in Hy.
      injection Hy as <-. lra.
    + cbn [last_best]. destruct (last_best _) as [r'|].
      * destruct Hlast as (? & ? & ?). repeat split; try done. lra.
      * subst bf. destruct (is_best (run_epoch' e tr)) eqn:Hi.
        -- assert (Hgt : (x > b0)%R) by (by apply His).
           rewrite Hx, Hbest.
           rewrite Rmax_left by lra. repeat split; (done || lra).
        -- apply Rmax_right.
           destruct (Rle_dec x b0) as [|Hn]; [done|].
           assert (Hgt : (x > b0)%R) by lra. apply His in Hgt. discriminate Hgt.
Qed.

Lemma last_best_In (l : list (epoch_result T D)) (r : epoch_result T D) :
  last_best l = Some r -> In r l /\ is_best r = true.
Proof.
  induction l as [|r0 rest IH]; [done|]. cbn [last_best].
  destruct (last_best rest) as [r'|].
  - intros [= <-]. destruct IH as [? ?]; [done|]. split; [by right|done].
  - destruct (is_best r0) eqn:Hi; [|done]. intros [= <-]. split; [by left|done].
Qed.

Lemma NoDup_range (a b : Z) : NoDup (range a b).
Proof.
  unfold range. apply NoDup_fmap_2_strong; [|apply NoDup_seq].
  intros i j _ _. lia.
Qed.

Lemma In_range (a b e : Z) : In e (range a b) <-> (a <= e < b)%Z.
Proof.
  unfold range. rewrite in_map_iff. split.
  - intros (i & <- & Hi%in_seq). lia.
  - intros He. exists (Z.to_nat (e - a)). split; [lia|].
    apply in_seq. lia.
Qed.

Lemma In_trajectory (eps : list Z) :
  forall (tr : trainer T) (e : Z),
    In e eps ->
    exists r, In r (trajectory' eps tr) /\ epoch (state r) = (e + 1)%Z.
Proof.
  induction eps as [|e0 rest IH]; intros tr e He; [done|].
  cbn [trajectory]. destruct He as [<-|He].
  - exists (run_epoch' e0 tr). split; [by left|apply epoch_run_epoch].
  - destruct (IH (after (run_epoch' e0 tr)) e He) as (r & Hr & Hep).
    exists r. split; [by right|done].
Qed.

Lemma trajectory_last (eps : list Z) :
  forall (tr : trainer T) (r : epoch_result T D),
    last (trajectory' eps tr) = Some r ->
    exists e, last eps = Some e
              /\ epoch (state r) = (e + 1)%Z
              /\ after r = trainer_after' eps tr
              /\ best_score (state r) = self_best_score (after r)
              /\ state_dict (state r) = model_state_dict (internals (after r)).
Proof.
  induction eps as [|e rest IH]; intros tr r Hr; [done|].
  cbn [trajectory] in Hr. rewrite trainer_after_cons.
  destruct rest as [|e2 rest'].
  - cbn in Hr. injection Hr as <-. exists e. split; [done|].
    by rewrite run_epoch_eq.
  - cbn [trajectory] in Hr, IH. rewrite last_cons_cons in Hr.
    destruct (IH _ _ Hr) as (e' & He' & H). exists e'.
    by rewrite last_cons_cons.
Qed.

Lemma last_range (a b : Z) : (a < b)%Z -> last (range a b) = Some (b - 1)%Z.
Proof.
  intros Hab. unfold range.
  replace (Z.to_nat (b - a)) with (S (Z.to_nat (b - a - 1))) by lia.
  rewrite seq_S, map_app. cbn [map]. rewrite last_snoc. f_equal. lia.
Qed.

Lemma trajectory_nonempty (eps : list Z) (tr : trainer T) :
  eps <> [] -> exists r, last (trajectory' eps tr) = Some r.
Proof.
  destruct eps as [|e rest]; [done|]. intros _. cbn [trajectory].
  rewrite last_cons. destruct (last _); by eexists.
Qed.

End Exec.

(** X13. The names of the checkpoints never collide: in every directory
    [checkpoint_latest.pth], [model_best.pth] and the history checkpoint
    of an epoch are three paths, and two epochs have two history
    checkpoints, whatever the epochs, negative or beyond four digits. *)
Theorem checkpoint_paths_never_collide (save_dir : string) (e1 e2 : Z) :
  checkpoint_path save_dir <> best_path save_dir
  /\ history_path save_dir e1 <> checkpoint_path save_dir
  /\ history_path save_dir e1 <> best_path save_dir
  /\ (history_path save_dir e1 = history_path save_dir e2 <-> e1 = e2).
Proof.
  split; [apply latest_is_not_best|].
  split; [apply history_is_not_latest|].
  split; [apply history_is_not_best|].
  split; [apply history_path_inj|by intros ->].
Qed.

Section Save.
Context {D : Type}.

(** X14. When [save_checkpoint] returns, [checkpoint_latest.pth] holds the
    state; [model_best.pth] holds it if [is_best] and is as before if
    not; the history checkpoint of the epoch holds it if the epoch is a
    multiple of [backup_freq] and is as before if not; no other path
    changes. *)
Theorem save_checkpoint_writes_latest_best_and_history
    (state : checkpoint D) (is_best : bool) (save_dir : string)
    (backup_freq : Z) (st st' : store D) :
  save_checkpoint state is_best save_dir backup_freq st = (None, st') ->
  saved st' !! checkpoint_path save_dir = Some state
  /\ saved st' !! best_path save_dir
     = (if is_best then Some state else saved st !! best_path save_dir)
  /\ saved st' !! history_path save_dir (epoch state)
     = (if (epoch state mod backup_freq =? 0)%Z then Some state
        else saved st !! history_path save_dir (epoch state))
  /\ forall p, p <> checkpoint_path save_dir -> p <> best_path save_dir ->
       p <> history_path save_dir (epoch state) ->
       saved st' !! p = saved st !! p.
Proof.
  intros H.
  pose proof (save_checkpoint_frame state is_best save_dir backup_freq st)
    as [_ Hfr].
  rewrite H in Hfr. cbn [snd] in Hfr.
  apply save_checkpoint_returned in H as (_ & Hl & Hb & Hh). done.
Qed.

End Save.

Lemma save_checkpoint_writes_latest_best_and_history_witness :
  saved (snd (save_checkpoint sample_state true "/run" 10 sample_store))
    !! checkpoint_path "/run" = Some sample_state
  /\ saved (snd (save_checkpoint sample_state true "/run" 10 sample_store))
       !! best_path "/run"
     = (if true then Some sample_state
        else saved sample_store !! best_path "/run")
  /\ saved (snd (save_checkpoint sample_state true "/run" 10 sample_store))
       !! history_path "/run" (epoch sample_state)
     = (if (epoch sample_state mod 10 =? 0)%Z then Some sample_state
        else saved sample_store !! history_path "/run" (epoch sample_state))
  /\ forall p, p <> checkpoint_path "/run" -> p <> best_path "/run" ->
       p <> history_path "/run" (epoch sample_state) ->
       saved (snd (save_checkpoint sample_state true "/run" 10 sample_store))
         !! p
       = saved sample_store !! p.
Proof.
  apply (save_checkpoint_writes_latest_best_and_history
           sample_state true "/run" 10 sample_store).
  vm_compute. reflexivity.
Defined.

Section Exec.
Context {T D : Type}.
Variable train : Z -> T -> T.
Variable validate : Z -> T -> score * T.
Variable scheduler_step : T -> T.
Variable model_state_dict : T -> D.

Local Abbreviation exec_train' :=
  (exec_train train validate scheduler_step model_state_dict).
Local Abbreviation trajectory' :=
  (trajectory train validate scheduler_step model_state_dict).

(** X15. When [exec] returns in mode [train], every multiple of ten among
    the epochs finished, [start_epoch + 1] to [epochs], has its history
    checkpoint, which holds the state saved at the end of that epoch: no
    later epoch has overwritten it. If an epoch was run,
    [checkpoint_latest.pth] holds the last state: its [epoch] is [epochs],
    where a resumed run starts, and its [best_score] and [state_dict] are
    those of the trainer. *)
Theorem exec_keeps_a_checkpoint_every_ten_epochs
    (self_save_dir : string) (start_epoch epochs : Z)
    (tr tr' : trainer T) (st st' : store D) :
  exec_train' self_save_dir start_epoch epochs tr st = (None, tr', st') ->
  (forall e, (start_epoch < e <= epochs)%Z -> (e mod 10 = 0)%Z ->
     exists r, In r (trajectory' (range start_epoch epochs) tr)
               /\ epoch (state r) = e
               /\ saved st' !! history_path (join self_save_dir ["model"]) e
                  = Some (state r))
  /\ ((start_epoch < epochs)%Z ->
      saved st' !! checkpoint_path (join self_save_dir ["model"])
      = Some (Ckpt epochs (model_state_dict (internals tr'))
                   (self_best_score tr'))).
Proof.
  unfold exec_train. intros H. split.
  - intros e He Hmod.
    destruct (In_trajectory train validate scheduler_step model_state_dict
                (range start_epoch epochs) tr (e - 1))
      as (r & Hr & Hep).
    { apply In_range. lia. }
    replace (e - 1 + 1)%Z with e in Hep by lia.
    exists r. split; [done|]. split; [done|]. rewrite <- Hep.
    eapply exec_loop_history; [apply NoDup_range|exact H|done|].
    by rewrite Hep.
  - intros Hlt.
    destruct (trajectory_nonempty train validate scheduler_step
                model_state_dict (range start_epoch epochs) tr) as [r Hr].
    { intros Heq. apply (f_equal last) in Heq.
      by rewrite last_range in Heq. }
    rewrite (exec_loop_latest _ _ _ _ _ _ _ _ _ _ H r Hr).
    apply trajectory_last in Hr as (e & He & Hep & Haft & Hbs & Hsd).
    rewrite last_range in He by done. injection He as <-.
    rewrite (exec_loop_trainer _ _ _ _ _ _ _ _ _ _ H), <- Haft, <- Hbs, <- Hsd.
    replace epochs with (epoch (state r)) at 1 by lia.
    by destruct (state r).
Qed.

(** X16. When [exec] returns in mode [train] and no score is [nan],
    [best_score] ends as the greatest of its initial value and the
    validation scores. If it has grown, [model_best.pth] holds the state
    of an epoch whose validation score is that greatest score, saved with
    that [best_score]; if it has not, [model_best.pth] is as it was. *)
Theorem model_best_holds_the_best_epoch
    (self_save_dir : string) (start_epoch epochs : Z)
    (tr tr' : trainer T) (st st' : store D) (b0 : R) :
  exec_train' self_save_dir start_epoch epochs tr st = (None, tr', st') ->
  self_best_score tr = Num b0 ->
  Forall (fun r => is_number (val_score r))
         (trajectory' (range start_epoch epochs) tr) ->
  exists bf,
    self_best_score tr' = Num bf
    /\ (b0 <= bf)%R
    /\ Forall (fun r => forall x, val_score r = Num x -> (x <= bf)%R)
              (trajectory' (range start_epoch epochs) tr)
    /\ ((b0 < bf)%R ->
        exists r, In r (trajectory' (range start_epoch epochs) tr)
                  /\ val_score r = Num bf
                  /\ best_score (state r) = Num bf
                  /\ saved st' !! best_path (join self_save_dir ["model"])
                     = Some (state r))
    /\ (bf = b0 ->
        saved st' !! best_path (join self_save_dir ["model"])
        = saved st !! best_path (join self_save_dir ["model"])).
Proof.
  unfold exec_train. intros H Hb Hnum.
  destruct (trajectory_best train validate scheduler_step model_state_dict
              (range start_epoch epochs) tr b0 Hb Hnum)
    as (bf & Hbf & Hle & Hall & Hlast).
  exists bf. rewrite (exec_loop_trainer _ _ _ _ _ _ _ _ _ _ H).
  split; [done|]. split; [done|]. split; [done|].
  rewrite (exec_loop_best _ _ _ _ _ _ _ _ _ _ H).
  destruct (last_best _) as [r|] eqn:Hr.
  - destruct Hlast as (Hv & Hs & Hlt).
    apply last_best_In in Hr as [Hin _]. split.
    + intros _. by exists r.
    + intros ->. lra.
  - subst bf. split; [|done]. intros Hlt. lra.
Qed.

(** X17. A score that is [nan] unsettles [best_score]: after an epoch
    without a score and an epoch with the score [x], [best_score] is [x],
    lower than before or not, and [model_best.pth] is not touched. *)
Theorem nan_score_lowers_best_score
    (self_save_dir : string) (e1 e2 : Z) (tr tr' : trainer T)
    (st st' : store D) (x : R) :
  let r1 := run_epoch train validate scheduler_step model_state_dict e1 tr in
  let r2 := run_epoch train validate scheduler_step model_state_dict e2
              (after r1) in
  val_score r1 = NaN ->
  val_score r2 = Num x ->
  exec_loop train validate scheduler_step model_state_dict self_save_dir
    [e1; e2] tr st = (None, tr', st') ->
  self_best_score tr' = Num x
  /\ is_best r1 = false /\ is_best r2 = false
  /\ saved st' !! best_path (join self_save_dir ["model"])
     = saved st !! best_path (join self_save_dir ["model"]).
Proof.
  intros r1 r2 H1 H2 H.
  assert (Hb1 : is_best r1 = false
                /\ self_best_score (after r1) = NaN).
  { subst r1. rewrite run_epoch_eq in *.
    cbn [val_score is_best after self_best_score] in *. rewrite H1.
    unfold py_max. by destruct (self_best_score tr). }
  destruct Hb1 as [Hi1 Ha1].
  assert (Hb2 : is_best r2 = false
                /\ self_best_score (after r2) = Num x).
  { subst r2. rewrite (run_epoch_eq _ _ _ _ e2) in *.
    cbn [val_score is_best after self_best_score] in *. by rewrite H2, Ha1. }
  destruct Hb2 as [Hi2 Ha2].
  rewrite (exec_loop_trainer _ _ _ _ _ _ _ _ _ _ H).
  rewrite (exec_loop_best _ _ _ _ _ _ _ _ _ _ H).
  cbn [trajectory last_best trainer_after fold_left].
  fold r1. fold r2. by rewrite Hi1, Hi2.
Qed.

End Exec.

Lemma returned_eta {A B E : Type} (p : option E * A * B) :
  fst (fst p) = None -> p = (None, snd (fst p), snd p).
Proof. destruct p as [[[e|] a] b]; by intros [=]. Qed.

(** Nothing stops a run on [sample_store], where every path can be
    written. *)
Lemma sample_run_returns (epochs : list Z) validate (tr : trainer Z) :
  exec_loop sample_train validate sample_step sample_step "/run" epochs tr
    sample_store
  = (None,
     snd (fst (exec_loop sample_train validate sample_step sample_step "/run"
                 epochs tr sample_store)),
     snd (exec_loop sample_train validate sample_step sample_step "/run"
            epochs tr sample_store)).
Proof. apply returned_eta. by apply exec_loop_succeeds. Qed.

Lemma exec_keeps_a_checkpoint_every_ten_epochs_witness :
  (forall e, (8 < e <= 11)%Z -> (e mod 10 = 0)%Z ->
     exists r, In r (trajectory sample_train sample_validate sample_step
                       sample_step (range 8 11) sample_trainer)
               /\ epoch (state r) = e
               /\ saved (snd sample_run) !! history_path (join "/run" ["model"]) e
                  = Some (state r))
  /\ ((8 < 11)%Z ->
      saved (snd sample_run) !! checkpoint_path (join "/run" ["model"])
      = Some (Ckpt 11 (sample_step (internals (snd (fst sample_run))))
                   (self_best_score (snd (fst sample_run))))).
Proof.
  apply (exec_keeps_a_checkpoint_every_ten_epochs
           sample_train sample_validate sample_step sample_step "/run" 8 11
           sample_trainer (snd (fst sample_run)) sample_store (snd sample_run)).
  apply sample_run_returns.
Defined.

Lemma model_best_holds_the_best_epoch_witness :
  exists bf,
    self_best_score (snd (fst sample_run)) = Num bf
    /\ (0 <= bf)%R
    /\ Forall (fun r => forall x, val_score r = Num x -> (x <= bf)%R)
              (trajectory sample_train sample_validate sample_step sample_step
                 (range 8 11) sample_trainer)
    /\ ((0 < bf)%R ->
        exists r, In r (trajectory sample_train sample_validate sample_step
                          sample_step (range 8 11) sample_trainer)
                  /\ val_score r = Num bf
                  /\ best_score (state r) = Num bf
                  /\ saved (snd sample_run) !! best_path (join "/run" ["model"])
                     = Some (state r))
    /\ (bf = 0%R ->
        saved (snd sample_run) !! best_path (join "/run" ["model"])
        = saved sample_store !! best_path (join "/run" ["model"])).
Proof.
  apply (model_best_holds_the_best_epoch
           sample_train sample_validate sample_step sample_step "/run" 8 11
           sample_trainer (snd (fst sample_run)) sample_store (snd sample_run)
           0).
  - apply sample_run_returns.
  - reflexivity.
  - repeat constructor; eexists; reflexivity.
Defined.

Lemma nan_score_lowers_best_score_witness :
  self_best_score (snd (fst nan_run)) = Num 1
  /\ is_best (run_epoch sample_train nan_validate sample_step sample_step 0
                resumed_trainer)
     = false
  /\ is_best (run_epoch sample_train nan_validate sample_step sample_step 1
                (after (run_epoch sample_train nan_validate sample_step
                          sample_step 0 resumed_trainer)))
     = false
  /\ saved (snd nan_run) !! best_path (join "/run" ["model"])
     = saved sample_store !! best_path (join "/run" ["model"]).
Proof.
  apply (nan_score_lowers_best_score
           sample_train nan_validate sample_step sample_step "/run" 0 1
           resumed_trainer (snd (fst nan_run)) sample_store (snd nan_run) 1).
  - reflexivity.
  - reflexivity.
  - apply sample_run_returns.
Defined.

End CheckpointFacts.

(** ** Multi-scale sizes *)

Module MultiScaleFacts.
Import MultiScale.

Example ms_side_half_scale : ms_size 320 240 = Some (320, 256)%Z.
Proof. reflexivity. Qed.
Example ms_side_tie_down : ms_side 16 = Some 0%Z.
Proof. reflexivity. Qed.
Example ms_side_tie_up : ms_side 48 = Some 64%Z.
Proof. reflexivity. Qed.
Example ms_side_beyond_float : ms_side 2882303761517118080 = None.
Proof. reflexivity. Qed.

Lemma round_div_32 (n : Z) :
  exists q r : Z,
    n = (32 * q + r)%Z /\ (0 <= r < 32)%Z
    /\ round_div n 32
       = (if (r <? 16)%Z then q
          else if (16 <? r)%Z then q + 1
          else if Z.even q then q else q + 1)%Z.
Proof.
  exists (n / 32)%Z, (n mod 32)%Z.
  split; [apply Z.div_mod; lia|]. split; [apply Z.mod_pos_bound; lia|].
  unfold round_div. cbv zeta.
  repeat match goal with
         | |- context [Z.ltb ?a ?b] => destruct (Z.ltb_spec a b)
         end; try reflexivity; lia.
Qed.

(** X18. For [int(w * s)] up to [2^53] in absolute value, where the
    [float64] quotient by 32 is exact, the side of a multi-scale image is
    the multiple of 32 nearest to [int(w * s)]; half way between two
    multiples it is the even one. It is [0], a size no image has, exactly
    when [int(w * s)] is at most 16 in absolute value. *)
Theorem ms_side_is_the_nearest_multiple_of_32 (n : Z) :
  (Z.abs n <= 9007199254740992)%Z ->
  exists side : Z,
    ms_side n = Some side
    /\ (side mod 32 = 0)%Z
    /\ (Z.abs (side - n) <= 16)%Z
    /\ (forall m, (m mod 32 = 0)%Z -> (Z.abs (side - n) <= Z.abs (m - n))%Z)
    /\ (Z.abs (side - n) = 16 -> Z.even (side / 32) = true)%Z
    /\ (side = 0 <-> -16 <= n <= 16)%Z.
Proof.
  intros Hn. exists (round_div n 32 * 32)%Z. split.
  { unfold ms_side, exact_float.
    by destruct (Z.leb_spec (Z.abs n) 9007199254740992); [|lia]. }
  clear Hn. destruct (round_div_32 n) as (q & r & -> & Hr & ->).
  assert (Hodd : Z.even q = false -> Z.even (q + 1) = true).
  { intros H. rewrite Z.even_add, H. reflexivity. }
  split; [|split; [|split; [|split]]].
  - apply Z.mod_mul. lia.
  - destruct (Z.ltb_spec r 16); [lia|]. destruct (Z.ltb_spec 16 r); [lia|].
    destruct (Z.even q); lia.
  - intros m Hm. apply Z.mod_divide in Hm as [k ->]; [|lia].
    destruct (Z.ltb_spec r 16); [lia|]. destruct (Z.ltb_spec 16 r); [lia|].
    destruct (Z.even q); lia.
  - rewrite Z.div_mul by lia.
    destruct (Z.ltb_spec r 16); [lia|]. destruct (Z.ltb_spec 16 r); [lia|].
    destruct (Z.even q) eqn:He; [done|]. intros _. by apply Hodd.
  - destruct (Z.ltb_spec r 16); [lia|]. destruct (Z.ltb_spec 16 r); [lia|].
    assert (r = 16)%Z as -> by lia.
    destruct (Z.even q) eqn:He.
    + split; [lia|]. intros Hn.
      assert (q = 0 \/ q = -1)%Z as [-> | ->] by lia; [lia|done].
    + split; [|intros Hn].
      * intros Hq. assert (q = -1)%Z as -> by lia. lia.
      * assert (q = 0 \/ q = -1)%Z as [-> | ->] by lia; [done|lia].
Qed.

Lemma ms_side_is_the_nearest_multiple_of_32_witness :
  exists side : Z,
    ms_side 48 = Some side
    /\ (side mod 32 = 0)%Z
    /\ (Z.abs (side - 48) <= 16)%Z
    /\ (forall m, (m mod 32 = 0)%Z -> (Z.abs (side - 48) <= Z.abs (m - 48))%Z)
    /\ (Z.abs (side - 48) = 16 -> Z.even (side / 32) = true)%Z
    /\ (side = 0 <-> -16 <= 48 <= 16)%Z.
Proof. apply (ms_side_is_the_nearest_multiple_of_32 48). lia. Defined.

End MultiScaleFacts.

(** ** The keys of the state dict *)

Module StateDictFacts.
Import Py.
Import PyStr.
Import PyStrFacts.
Import StateDict.

Example replace_prefix :
  replace "module.scratch.conv.weight" "module." "" = "scratch.conv.weight"%string.
Proof. reflexivity. Qed.
Example replace_inside :
  replace "scratch.module.conv" "module." "" = "scratch.conv"%string.
Proof. reflexivity. Qed.
Example replace_twice :
  replace "module.module.conv" "module." "" = "conv"%string.
Proof. reflexivity. Qed.
Example replace_no_rescan :
  replace "modmodule.ule.conv" "module." "" = "module.conv"%string.
Proof. reflexivity. Qed.
Example replace_general : replace "aXbXc" "X" "--" = "a--b--c"%string.
Proof. reflexivity. Qed.
Example replace_empty_old : replace "ab" "" "-" = "-a-b-"%string.
Proof. reflexivity. Qed.

Lemma replace_from_plain (old new s : string) :
  occurs old s = false -> replace_from old new 0 s = s.
Proof.
  induction s as [|c t IH]; [done|]. cbn [occurs replace_from].
  intros [Hp Ht]%orb_false_elim. rewrite Hp. by rewrite IH.
Qed.

Lemma replace_plain (k : string) : plain k -> replace k "module." "" = k.
Proof. intros H. by apply replace_from_plain. Qed.

Lemma prefix_append (a b : string) : String.prefix a (a ++ b) = true.
Proof.
  induction a as [|c a IH]; [by destruct b|].
  rewrite append_cons. cbn [String.prefix].
  by destruct (ascii_dec c c).
Qed.

Lemma replace_from_skip (old new u s : string) :
  replace_from old new (String.length u) (u ++ s) = replace_from old new 0 s.
Proof.
  induction u as [|c u IH]; [done|]. rewrite append_cons. exact IH.
Qed.

(** A match at the start is replaced and the rest is gone through. *)
Lemma replace_from_match (c : ascii) (old new s : string) :
  replace_from (String c old) new 0 (String c old ++ s)
  = (new ++ replace_from (String c old) new 0 s)%string.
Proof.
  rewrite append_cons. cbn [replace_from].
  rewrite <- append_cons, prefix_append. cbn [String.length].
  replace (S (String.length old) - 1) with (String.length old) by lia.
  by rewrite replace_from_skip.
Qed.

Lemma replace_wrapped (k : string) :
  plain k -> replace ("module." ++ k) "module." "" = k.
Proof.
  intros H. unfold replace. rewrite replace_from_match, append_nil.
  by apply replace_from_plain.
Qed.

Lemma plain_name_plain (k : string) : plain k -> plain_name k = k.
Proof.
  unfold plain, plain_name. destruct k as [|c t]; [done|]. cbn [occurs].
  by intros [-> _]%orb_false_elim.
Qed.

Lemma plain_name_wrapped (k : string) : plain_name ("module." ++ k) = k.
Proof.
  unfold plain_name. rewrite prefix_append, length_append.
  change (String.length "module.") with 7.
  replace (7 + String.length k - 7) with (String.length k) by lia.
  exact (substring_append "module." k).
Qed.

Lemma replace_key (k : string) :
  wrapped_or_plain k -> replace k "module." "" = plain_name k.
Proof.
  intros [H|(k' & -> & H)].
  - by rewrite replace_plain, plain_name_plain.
  - by rewrite replace_wrapped, plain_name_wrapped.
Qed.

Section Items.
Context {V : Type}.

Lemma filter_none {A : Type} (f : A -> bool) (l : list A) :
  (forall x, In x l -> f x = false) -> List.filter f l = [].
Proof.
  induction l as [|x l IH]; [done|]. intros H. cbn [List.filter].
  rewrite (H x) by (by left). apply IH. intros y Hy. apply H. by right.
Qed.

Lemma strip_module_lookup (items : list (string * V)) :
  forall (m : gmap string V) (k : string),
    fold_left (fun m kv => <[replace (fst kv) "module." "" := snd kv]> m)
              items m !! k
    = match last (List.filter
                    (fun kv => String.eqb (replace (fst kv) "module." "") k)
                    items) with
      | Some kv => Some (snd kv)
      | None => m !! k
      end.
Proof.
  induction items as [|[k0 v0] rest IH]; intros m k; [done|].
  cbn [fold_left List.filter fst snd]. rewrite IH.
  destruct (String.eqb_spec (replace k0 "module." "") k) as [<-|Hne].
  - rewrite last_cons. destruct (last _); [done|].
    by rewrite lookup_insert_eq.
  - destruct (last _); [done|]. by rewrite lookup_insert_ne.
Qed.

(** X19. Loading strips the prefix of [DataParallel]: for a state dict
    whose keys are plain or wrapped, no two of them for the same
    parameter, an item is loaded under its plain name, and nothing else
    is loaded. *)
Theorem loading_strips_the_data_parallel_prefix
    (items : list (string * V)) :
  Forall (fun kv => wrapped_or_plain (fst kv)) items ->
  NoDup (map (fun kv => plain_name (fst kv)) items) ->
  forall (name : string) (v : V),
    strip_module items !! name = Some v
    <-> exists k, In (k, v) items /\ plain_name k = name.
Proof.
  intros Hkeys Hnd name v. unfold strip_module.
  rewrite strip_module_lookup, lookup_empty.
  induction items as [|[k0 v0] rest IH].
  - cbn. split; [done|]. by intros (k & [] & _).
  - apply Forall_cons in Hkeys as [Hk0 Hkeys].
    cbn [map fst] in Hnd. apply NoDup_cons in Hnd as [Hnot Hnd].
    specialize (IH Hkeys Hnd). cbn [List.filter fst].
    rewrite (replace_key k0 Hk0).
    destruct (String.eqb_spec (plain_name k0) name) as [<-|Hne].
    + assert (Hnone : List.filter
                        (fun kv => String.eqb (replace (fst kv) "module." "")
                                              (plain_name k0)) rest = []).
      { apply filter_none. intros [k1 v1] Hin. cbn [fst] in *.
        apply String.eqb_neq. intros Heq. apply Hnot.
        apply list_elem_of_In, in_map_iff. exists (k1, v1). split; [|done].
        cbn [fst]. rewrite <- Heq. symmetry. apply replace_key.
        rewrite List.Forall_forall in Hkeys. by apply (Hkeys (k1, v1)). }
      rewrite Hnone. cbn [last snd]. split.
      * intros [= <-]. exists k0. split; [by left|done].
      * intros (k & [[= -> ->]|Hin] & Hk); [done|]. exfalso. apply Hnot.
        apply list_elem_of_In, in_map_iff. by exists (k, v).
    + rewrite IH. split.
      * intros (k & Hin & Hk). exists k. split; [by right|done].
      * intros (k & [[= -> ->]|Hin] & Hk); [done|]. by exists k.
Qed.

End Items.

Lemma loading_strips_the_data_parallel_prefix_witness :
  strip_module sample_items !! "scratch.conv.weight"%string = Some 1%Z
  <-> exists k, In (k, 1%Z) sample_items
                /\ plain_name k = "scratch.conv.weight"%string.
Proof.
  apply (loading_strips_the_data_parallel_prefix sample_items).
  - constructor; [|constructor; [|constructor]].
    + right. exists "scratch.conv.weight"%string. by split.
    + by left.
  - apply (bool_decide_unpack _). vm_compute. exact I.
Defined.

End StateDictFacts.
